(** * blog_system: the service layer over its metadata, blob and cache adapters

    A shallow embedding of [internal/service] (the edit coordinator, the
    history and revert engine and the user methods) together with reference
    models of the adapters it is written against: the MongoDB metadata
    adapter, the Redis / no-op cache and the S3 blob store.

    Every adapter call is recorded, with its outcome, in a trace that is part
    of the world; an oracle indexed by the position in that trace decides
    which calls fail for reasons outside the model (time-outs, malformed
    ids, network errors).  A failed call leaves the stores as they were. *)

From stdpp Require Import gmap strings list pretty sorting.
From Stdlib Require Import ZArith Ascii.

#[local] Set Warnings "-clear-no-such-hyp".

Local Open Scope Z_scope.
Local Open Scope string_scope.
Local Open Scope list_scope.

(** ** Machine integers: Go's [int] on a 64-bit platform *)

Module GoInt.

Definition min_int : Z := - 2 ^ 63.
Definition max_int : Z := 2 ^ 63 - 1.

Definition wrap (z : Z) : Z := (z + 2 ^ 63) mod 2 ^ 64 - 2 ^ 63.

Definition add (a b : Z) : Z := wrap (a + b).

Definition in_range (z : Z) : Prop := min_int <= z <= max_int.

End GoInt.

(** ** Errors

    The sentinel errors of the packages [service], [database], [cache] and
    [storage], [errors.New] values and [fmt.Errorf] wrappers ([%w]). *)

Inductive error : Type :=
  (* package service *)
  | ErrInvalidCredentials
  | ErrUsernameTaken
  | ErrItemNotFound
  | ErrPermissionDenied
  | ErrInvalidItemType
  | ErrVersionConflict
  | ErrApplyChange
  | ErrRevertNotAllowed
  | ErrHistoryLogNotFound
  | ErrInconsistentState
  (* package database *)
  | DbErrNotFound
  | DbErrDuplicateUser
  | DbErrVersionMismatch
  (* package cache *)
  | CacheErrNotFound
  (* package storage *)
  | StorageErrFileNotFound
  (* errors.New(msg) and fmt.Errorf(msg + ": %w", err) *)
  | ErrorsNew (msg : string)
  | Errorf (msg : string) (wrapped : error)
  (* a run-time panic (a failed type assertion), kept as a result so that it
     can be told apart from every returned error *)
  | GoPanic (msg : string).

#[global] Instance error_eq_dec : EqDecision error.
Proof. solve_decision. Defined.

(** [errors.Is]: identity with the target, along the chain of wrappers. *)
Fixpoint errors_Is (e target : error) : bool :=
  bool_decide (e = target) ||
  match e with
  | Errorf _ e' => errors_Is e' target
  | _ => false
  end.

Inductive Result (A : Type) : Type :=
  | Ok (a : A)
  | Err (e : error).
Arguments Ok {A} a.
Arguments Err {A} e.

Definition err_of {A} (r : Result A) : option error :=
  match r with Ok _ => None | Err e => Some e end.

(** ** Data model (package models) *)

Definition ItemTypePost : string := "post".
Definition ItemTypeCodeFile : string := "codefile".

Definition IsValid (it : string) : bool :=
  if String.eqb it ItemTypePost then true
  else if String.eqb it ItemTypeCodeFile then true
  else false.

Record User := mkUser {
  User_ID : string;
  Username : string;
  PasswordHash : string;
  User_CreatedAt : Z
}.

Record Post := mkPost {
  Post_ID : string;
  Post_UserID : string;
  Title : string;
  Slug : string;
  Post_CreatedAt : Z;
  Post_UpdatedAt : Z;
  Post_S3Path : string;
  Post_Version : Z
}.

Record CodeFile := mkCodeFile {
  File_ID : string;
  File_UserID : string;
  FileName : string;
  Language : string;
  File_CreatedAt : Z;
  File_UpdatedAt : Z;
  File_S3Path : string;
  File_Version : Z
}.

Record Change := mkChange {
  Line : Z;
  Column : Z;
  Text : string;
  Removed : Z
}.

Inductive HistoryAction := ActionCreate | ActionDelete | ActionPatch | ActionSnapshot | ActionRevert.

Record HistoryLog := mkHistoryLog {
  Log_ID : string;
  Log_UserID : string;
  Log_ItemID : string;
  Log_ItemType : string;
  Action : HistoryAction;
  Timestamp : Z;
  ChangeData : option Change;
  S3PathBefore : string;
  S3PathAfter : string;
  ItemVersion : Z;
  RevertedToLogID : option string
}.

(** The [interface{}] that carries item metadata: a [*models.Post] or a
    [*models.CodeFile]. *)
Inductive Meta :=
  | MetaPost (p : Post)
  | MetaCodeFile (f : CodeFile).

#[global] Instance User_eq_dec : EqDecision User.
Proof. solve_decision. Defined.
#[global] Instance Post_eq_dec : EqDecision Post.
Proof. solve_decision. Defined.
#[global] Instance CodeFile_eq_dec : EqDecision CodeFile.
Proof. solve_decision. Defined.
#[global] Instance Change_eq_dec : EqDecision Change.
Proof. solve_decision. Defined.
#[global] Instance HistoryAction_eq_dec : EqDecision HistoryAction.
Proof. solve_decision. Defined.
#[global] Instance HistoryLog_eq_dec : EqDecision HistoryLog.
Proof. solve_decision. Defined.
#[global] Instance Meta_eq_dec : EqDecision Meta.
Proof. solve_decision. Defined.

(** What [encoding/json] carries of a record.  The fields tagged [json:"-"]
    ([S3Path] and [Version] of an item, [PasswordHash] of a user) are left out
    by [json.Marshal] and left at their zero value by [json.Unmarshal]. *)
Definition json_Post (p : Post) : Post :=
  mkPost (Post_ID p) (Post_UserID p) (Title p) (Slug p)
    (Post_CreatedAt p) (Post_UpdatedAt p) "" 0.

Definition json_CodeFile (f : CodeFile) : CodeFile :=
  mkCodeFile (File_ID f) (File_UserID f) (FileName f) (Language f)
    (File_CreatedAt f) (File_UpdatedAt f) "" 0.

Definition json_User (u : User) : User :=
  mkUser (User_ID u) (Username u) "" (User_CreatedAt u).

Definition json_Meta (m : Meta) : Meta :=
  match m with
  | MetaPost p => MetaPost (json_Post p)
  | MetaCodeFile f => MetaCodeFile (json_CodeFile f)
  end.

Definition meta_owner (m : Meta) : string :=
  match m with MetaPost p => Post_UserID p | MetaCodeFile f => File_UserID f end.
Definition meta_version (m : Meta) : Z :=
  match m with MetaPost p => Post_Version p | MetaCodeFile f => File_Version f end.
Definition meta_s3path (m : Meta) : string :=
  match m with MetaPost p => Post_S3Path p | MetaCodeFile f => File_S3Path f end.

(** ** The world: the three external stores, the in-memory counters, the
    clock and the trace of adapter calls *)

Record DB := mkDB {
  users : gmap string User;
  posts : gmap string Post;
  codefiles : gmap string CodeFile;
  history : list HistoryLog
}.

Record CacheSt := mkCache {
  c_users : gmap string User;
  c_posts : gmap string Post;
  c_codefiles : gmap string CodeFile;
  (* item:content:<type>:<id>:v<version> *)
  c_content : gmap (string * string) (gmap Z string)
}.

(** The calls of the three adapter interfaces, with their arguments. *)
Inductive Op :=
  | CacheGetUser (userID : string)
  | CacheSetUser (u : User)
  | CacheGetItemMeta (itemID itemType : string)
  | CacheSetItemMeta (itemID itemType : string) (m : Meta)
  | CacheDeleteItemMeta (itemID itemType : string)
  | CacheGetItemContent (itemID itemType : string) (version : Z)
  | CacheSetItemContent (itemID itemType : string) (version : Z) (content : string)
  | CacheInvalidateItemContent (itemID itemType : string)
  | DbGetUserByUsername (username : string)
  | DbCreateUser (u : User)
  | DbGetPostMetaByID (postID : string)
  | DbGetCodeFileMetaByID (fileID : string)
  | DbUpdatePostMeta (p : Post)
  | DbUpdateCodeFileMeta (f : CodeFile)
  | DbDeletePostMeta (postID : string)
  | DbDeleteCodeFileMeta (fileID : string)
  | DbLogAction (l : HistoryLog)
  | DbGetActionHistory (itemID itemType : string) (limit : Z)
  | DbGetHistoryLogByID (logID : string)
  | StorageUploadFile (key body contentType : string)
  | StorageDownloadFile (key : string)
  | StorageDeleteFile (key : string)
  | IoReadAll (key : string).

(** A call and its outcome ([None]: it returned a nil error). *)
Inductive Event := Call (op : Op) (outcome : option error).

Record World := mkWorld {
  db : DB;
  blobs : gmap string string;
  cache : CacheSt;
  changeCounters : gmap string Z;
  clock : Z;
  trace : list Event
}.

(** What the environment fixes for one run: which adapter calls fail, whether
    Redis is configured (otherwise [NoOpCache]), the snapshot interval, and the
    library and package functions the service calls. *)
Record Env := mkEnv {
  (* does the n-th adapter call of the run fail? *)
  faults : nat -> bool;
  cacheEnabled : bool;
  IntervalChanges : Z;
  (* the package function applyChanges (the change applier) *)
  applyChanges : string -> list Change -> Result string;
  bcrypt_GenerateFromPassword : string -> Result string;
  bcrypt_CompareHashAndPassword : string -> string -> bool;
  auth_GenerateJWT : string -> Result string
}.

Definition adapter_failure : error := ErrorsNew "adapter call failed".

Definition set_db (d : DB) (w : World) : World :=
  mkWorld d (blobs w) (cache w) (changeCounters w) (clock w) (trace w).
Definition set_blobs (b : gmap string string) (w : World) : World :=
  mkWorld (db w) b (cache w) (changeCounters w) (clock w) (trace w).
Definition set_cache (c : CacheSt) (w : World) : World :=
  mkWorld (db w) (blobs w) c (changeCounters w) (clock w) (trace w).
Definition set_changeCounters (cs : gmap string Z) (w : World) : World :=
  mkWorld (db w) (blobs w) (cache w) cs (clock w) (trace w).
Definition set_clock (t : Z) (w : World) : World :=
  mkWorld (db w) (blobs w) (cache w) (changeCounters w) t (trace w).
Definition record_event (ev : Event) (w : World) : World :=
  mkWorld (db w) (blobs w) (cache w) (changeCounters w) (clock w) (trace w ++ [ev]).

(** [time.Now().UTC()]: reads the clock, which then advances. *)
Definition time_Now (w : World) : Z * World := (clock w, set_clock (clock w + 1) w).

(** ** Adapters

    [adapter op body] is one call through an adapter interface: the oracle is
    asked first; a call that is not failed by the oracle runs [body] on the
    stores.  Either way the call and its outcome are appended to the trace. *)

Section Adapters.

Variable E : Env.

Definition adapter {A} (op : Op) (body : World -> Result A * World)
  : World -> Result A * World :=
  fun w =>
    if faults E (length (trace w))
    then (Err adapter_failure, record_event (Call op (Some adapter_failure)) w)
    else let '(r, w') := body w in (r, record_event (Call op (err_of r)) w').

(** *** internal/cache: [RedisCache], or [NoOpCache] when Redis is off.
    The no-op cache answers at once and cannot fail.  Redis holds users and
    item metadata as JSON: a record is written as [json.Marshal] gives it
    and read through [json.Unmarshal], so that a record that comes out of
    the cache has no blob key, version 0 and no password hash. *)

Definition cache_call {A} (op : Op) (noop : Result A)
    (body : CacheSt -> Result A * CacheSt) : World -> Result A * World :=
  fun w =>
    if cacheEnabled E
    then adapter op (fun w0 => let '(r, c) := body (cache w0) in (r, set_cache c w0)) w
    else (noop, record_event (Call op (err_of noop)) w).

Definition cache_GetUser (userID : string) : World -> Result User * World :=
  cache_call (CacheGetUser userID) (Err CacheErrNotFound)
    (fun c => match c_users c !! userID with
              | Some u => (Ok (json_User u), c)
              | None => (Err CacheErrNotFound, c)
              end).

Definition cache_SetUser (u : User) : World -> Result unit * World :=
  cache_call (CacheSetUser u) (Ok tt)
    (fun c => (Ok tt, mkCache (<[User_ID u := json_User u]> (c_users c))
                             (c_posts c) (c_codefiles c) (c_content c))).

Definition cache_GetItemMeta (itemID itemType : string)
  : World -> Result Meta * World :=
  cache_call (CacheGetItemMeta itemID itemType) (Err CacheErrNotFound)
    (fun c =>
       if String.eqb itemType ItemTypePost then
         match c_posts c !! itemID with
         | Some p => (Ok (MetaPost (json_Post p)), c)
         | None => (Err CacheErrNotFound, c)
         end
       else if String.eqb itemType ItemTypeCodeFile then
         match c_codefiles c !! itemID with
         | Some f => (Ok (MetaCodeFile (json_CodeFile f)), c)
         | None => (Err CacheErrNotFound, c)
         end
       else
         (* no key of another type is ever written *)
         (Err CacheErrNotFound, c)).

Definition cache_SetItemMeta (itemID itemType : string) (m : Meta)
  : World -> Result unit * World :=
  cache_call (CacheSetItemMeta itemID itemType m) (Ok tt)
    (fun c =>
       if String.eqb itemType ItemTypePost then
         match m with
         | MetaPost p =>
             (Ok tt, mkCache (c_users c) (<[itemID := json_Post p]> (c_posts c))
                             (c_codefiles c) (c_content c))
         | _ => (Err (ErrorsNew "invalid meta type for post"), c)
         end
       else if String.eqb itemType ItemTypeCodeFile then
         match m with
         | MetaCodeFile f =>
             (Ok tt, mkCache (c_users c) (c_posts c)
                             (<[itemID := json_CodeFile f]> (c_codefiles c)) (c_content c))
         | _ => (Err (ErrorsNew "invalid meta type for codefile"), c)
         end
       else (Err (ErrorsNew "invalid item type for cache"), c)).

Definition cache_DeleteItemMeta (itemID itemType : string)
  : World -> Result unit * World :=
  cache_call (CacheDeleteItemMeta itemID itemType) (Ok tt)
    (fun c =>
       if String.eqb itemType ItemTypePost then
         (Ok tt, mkCache (c_users c) (delete itemID (c_posts c))
                         (c_codefiles c) (c_content c))
       else if String.eqb itemType ItemTypeCodeFile then
         (Ok tt, mkCache (c_users c) (c_posts c)
                         (delete itemID (c_codefiles c)) (c_content c))
       else (Ok tt, c)).

Definition cache_GetItemContent (itemID itemType : string) (version : Z)
  : World -> Result string * World :=
  cache_call (CacheGetItemContent itemID itemType version) (Err CacheErrNotFound)
    (fun c => match c_content c !! (itemType, itemID) ≫= (.!! version) with
              | Some s => (Ok s, c)
              | None => (Err CacheErrNotFound, c)
              end).

Definition cache_SetItemContent (itemID itemType : string) (version : Z)
    (content : string) : World -> Result unit * World :=
  cache_call (CacheSetItemContent itemID itemType version content) (Ok tt)
    (fun c =>
       let old := default ∅ (c_content c !! (itemType, itemID)) in
       (Ok tt, mkCache (c_users c) (c_posts c) (c_codefiles c)
                 (<[(itemType, itemID) := <[version := content]> old]> (c_content c)))).

(** Deletes every cached version of the item. *)
Definition cache_InvalidateItemContent (itemID itemType : string)
  : World -> Result unit * World :=
  cache_call (CacheInvalidateItemContent itemID itemType) (Ok tt)
    (fun c => (Ok tt, mkCache (c_users c) (c_posts c) (c_codefiles c)
                        (delete (itemType, itemID) (c_content c)))).

(** *** internal/database: the MongoDB adapter *)

Definition db_call {A} (op : Op) (body : World -> Result A * World)
  : World -> Result A * World := adapter op body.

Definition db_GetUserByUsername (username : string)
  : World -> Result User * World :=
  db_call (DbGetUserByUsername username)
    (fun w => match users (db w) !! username with
              | Some u =>
                  (Ok (mkUser username (Username u) (PasswordHash u) (User_CreatedAt u)), w)
              | None => (Err DbErrNotFound, w)
              end).

(** [CreateUser] stamps [user.CreatedAt] through the pointer before the
    insert; the struct as the caller sees it afterwards is returned next
    to the error. *)
Definition db_CreateUser (user : User) : World -> (User * Result unit) * World :=
  fun w =>
    if faults E (length (trace w))
    then ((user, Err adapter_failure),
          record_event (Call (DbCreateUser user) (Some adapter_failure)) w)
    else
      if String.eqb (Username user) "" then
        ((user, Err (ErrorsNew "username cannot be empty")),
         record_event (Call (DbCreateUser user)
                         (Some (ErrorsNew "username cannot be empty"))) w)
      else
        let '(now, w1) := time_Now w in
        let user' := mkUser (User_ID user) (Username user) (PasswordHash user) now in
        match users (db w1) !! Username user with
        | Some _ =>
            ((user', Err DbErrDuplicateUser),
             record_event (Call (DbCreateUser user) (Some DbErrDuplicateUser)) w1)
        | None =>
            let d := db w1 in
            let doc := mkUser (Username user) (Username user) (PasswordHash user) now in
            ((user', Ok tt),
             record_event (Call (DbCreateUser user) None)
               (set_db (mkDB (<[Username user := doc]> (users d))
                             (posts d) (codefiles d) (history d)) w1))
        end.

Definition db_GetPostMetaByID (postID : string) : World -> Result Post * World :=
  db_call (DbGetPostMetaByID postID)
    (fun w => match posts (db w) !! postID with
              | Some p =>
                  (Ok (mkPost postID (Post_UserID p) (Title p) (Slug p)
                         (Post_CreatedAt p) (Post_UpdatedAt p)
                         (Post_S3Path p) (Post_Version p)), w)
              | None => (Err DbErrNotFound, w)
              end).

Definition db_GetCodeFileMetaByID (fileID : string)
  : World -> Result CodeFile * World :=
  db_call (DbGetCodeFileMetaByID fileID)
    (fun w => match codefiles (db w) !! fileID with
              | Some f =>
                  (Ok (mkCodeFile fileID (File_UserID f) (FileName f) (Language f)
                         (File_CreatedAt f) (File_UpdatedAt f)
                         (File_S3Path f) (File_Version f)), w)
              | None => (Err DbErrNotFound, w)
              end).

(** Compare-and-set on [version]: the filter is [{_id, version}], the update
    sets title, slug, updatedAt and s3Path and increments the version. *)
Definition db_UpdatePostMeta (post : Post) : World -> Result unit * World :=
  db_call (DbUpdatePostMeta post)
    (fun w =>
       match posts (db w) !! Post_ID post with
       | Some q =>
           if Z.eqb (Post_Version q) (Post_Version post) then
             let '(now, w1) := time_Now w in
             let d := db w1 in
             let q' := mkPost (Post_ID q) (Post_UserID q) (Title post) (Slug post)
                         (Post_CreatedAt q) now (Post_S3Path post)
                         (GoInt.add (Post_Version q) 1) in
             (Ok tt, set_db (mkDB (users d) (<[Post_ID post := q']> (posts d))
                                  (codefiles d) (history d)) w1)
           else (Err DbErrVersionMismatch, w)
       | None => (Err DbErrNotFound, w)
       end).

Definition db_UpdateCodeFileMeta (file : CodeFile) : World -> Result unit * World :=
  db_call (DbUpdateCodeFileMeta file)
    (fun w =>
       match codefiles (db w) !! File_ID file with
       | Some q =>
           if Z.eqb (File_Version q) (File_Version file) then
             let '(now, w1) := time_Now w in
             let d := db w1 in
             let q' := mkCodeFile (File_ID q) (File_UserID q) (FileName file)
                         (Language file) (File_CreatedAt q) now (File_S3Path file)
                         (GoInt.add (File_Version q) 1) in
             (Ok tt, set_db (mkDB (users d) (posts d)
                                  (<[File_ID file := q']> (codefiles d)) (history d)) w1)
           else (Err DbErrVersionMismatch, w)
       | None => (Err DbErrNotFound, w)
       end).

Definition db_DeletePostMeta (postID : string) : World -> Result unit * World :=
  db_call (DbDeletePostMeta postID)
    (fun w =>
       let d := db w in
       match posts d !! postID with
       | Some _ =>
           (Ok tt, set_db (mkDB (users d) (delete postID (posts d))
                                (codefiles d) (history d)) w)
       | None => (Err DbErrNotFound, w)
       end).

Definition db_DeleteCodeFileMeta (fileID : string) : World -> Result unit * World :=
  db_call (DbDeleteCodeFileMeta fileID)
    (fun w =>
       let d := db w in
       match codefiles d !! fileID with
       | Some _ =>
           (Ok tt, set_db (mkDB (users d) (posts d)
                                (delete fileID (codefiles d)) (history d)) w)
       | None => (Err DbErrNotFound, w)
       end).

(** Identifiers of history entries: fresh for every append. *)
Definition new_log_id (d : DB) : string :=
  "log-" +:+ pretty (length (history d)).

Definition stamp_log (id : string) (ts : Z) (l : HistoryLog) : HistoryLog :=
  mkHistoryLog id (Log_UserID l) (Log_ItemID l) (Log_ItemType l) (Action l)
    ts (ChangeData l) (S3PathBefore l) (S3PathAfter l) (ItemVersion l)
    (RevertedToLogID l).

(** [LogAction] assigns the id, fills a zero timestamp, appends. *)
Definition db_LogAction (logEntry : HistoryLog) : World -> Result string * World :=
  db_call (DbLogAction logEntry)
    (fun w =>
       let id := new_log_id (db w) in
       let '(ts, w1) :=
         if Z.eqb (Timestamp logEntry) 0 then time_Now w
         else (Timestamp logEntry, w) in
       let d := db w1 in
       (Ok id, set_db (mkDB (users d) (posts d) (codefiles d)
                            (history d ++ [stamp_log id ts logEntry])) w1)).

Definition newer_first (a b : HistoryLog) : Prop := Timestamp b <= Timestamp a.

#[local] Instance newer_first_dec a b : Decision (newer_first a b).
Proof. unfold newer_first. apply _. Defined.

Definition db_GetActionHistory (itemID itemType : string) (limit : Z)
  : World -> Result (list HistoryLog) * World :=
  db_call (DbGetActionHistory itemID itemType limit)
    (fun w =>
       let matching :=
         filter (fun l => Log_ItemID l = itemID /\ Log_ItemType l = itemType)
                (history (db w)) in
       let sorted := merge_sort newer_first matching in
       (Ok (if Z.ltb 0 limit then take (Z.to_nat limit) sorted else sorted), w)).

Definition db_GetHistoryLogByID (logID : string)
  : World -> Result HistoryLog * World :=
  db_call (DbGetHistoryLogByID logID)
    (fun w =>
       match find (fun l => String.eqb (Log_ID l) logID) (history (db w)) with
       | Some l => (Ok l, w)
       | None => (Err DbErrNotFound, w)
       end).

(** *** internal/storage/s3 *)

Definition storage_UploadFile (key body contentType : string)
  : World -> Result unit * World :=
  adapter (StorageUploadFile key body contentType)
    (fun w => (Ok tt, set_blobs (<[key := body]> (blobs w)) w)).

(** [DownloadFile] hands out a reader on the object. *)
Definition storage_DownloadFile (key : string) : World -> Result string * World :=
  adapter (StorageDownloadFile key)
    (fun w => match blobs w !! key with
              | Some s => (Ok s, w)
              | None => (Err StorageErrFileNotFound, w)
              end).

Definition storage_DeleteFile (key : string) : World -> Result unit * World :=
  adapter (StorageDeleteFile key)
    (fun w => (Ok tt, set_blobs (delete key (blobs w)) w)).

(** [io.ReadAll] on the reader that [DownloadFile] returned for [key]. *)
Definition io_ReadAll (key reader : string) : World -> Result string * World :=
  adapter (IoReadAll key) (fun w => (Ok reader, w)).

End Adapters.

(** ** Control flow: state passing with early return

    [M R A]: a piece of a function body whose enclosing function returns [R];
    it either has returned ([inl r]) or goes on with a value ([inr a]). *)

Definition M (R A : Type) : Type := World -> (R + A) * World.

Definition ret {R A} (a : A) : M R A := fun w => (inr a, w).

Definition Return {R A} (r : R) : M R A := fun w => (inl r, w).

Definition bind {R A B} (m : M R A) (k : A -> M R B) : M R B :=
  fun w => match m w with
           | (inl r, w') => (inl r, w')
           | (inr a, w') => k a w'
           end.

Definition call {R A} (f : World -> A * World) : M R A :=
  fun w => let '(a, w') := f w in (inr a, w').

Definition func {R} (m : M R R) : World -> R * World :=
  fun w => match m w with
           | (inl r, w') => (r, w')
           | (inr r, w') => (r, w')
           end.

Notation "'let*' x ':=' m 'in' k" := (bind m (fun x => k))
  (at level 10, x pattern, m at level 100, k at level 200).

Notation "m ';;' k" := (bind m (fun _ => k))
  (at level 100, k at level 200, right associativity).

(** ** Package service *)

Definition userCacheDuration : Z := 3600.
Definition itemMetaCacheDuration : Z := 1800.
Definition itemContentCacheDuration : Z := 600.

(** Modelled from the spec: [generateS3Path] is named in the service source but
    its body is not part of it.  Section 6 gives the form of the key:
    [<itemType>/<userId>/<itemId>], with no user input beyond the ids. *)
Definition generateS3Path (userID itemID itemType : string) : string :=
  itemType +:+ "/" +:+ userID +:+ "/" +:+ itemID.

(** Modelled from the spec: [mapDBError] is named in the service source but its
    body is not part of it.  Its call site says that it handles
    [database.ErrNotFound], and section 7 lists the store miss as the source
    of [NOT_FOUND]: the miss becomes [ErrItemNotFound], any other error is
    passed on wrapped. *)
Definition mapDBError (dbErr : error) (itemType itemID : string) : error :=
  if errors_Is dbErr DbErrNotFound then ErrItemNotFound
  else Errorf ("database error for " +:+ itemType +:+ " " +:+ itemID) dbErr.

Section Service.

Variable E : Env.

Definition getItemMetaWithCache (itemID itemType : string)
  : World -> Result Meta * World :=
  func (
    (* 1. Check Cache *)
    let* cached := call (cache_GetItemMeta E itemID itemType) in
    match cached with
    | Ok cachedMeta => Return (Ok cachedMeta)
    | Err _ =>
        (* 2. Fetch from DB *)
        let* dbRes :=
          if String.eqb itemType ItemTypePost then
            let* r := call (db_GetPostMetaByID E itemID) in
            ret (match r with Ok p => Ok (MetaPost p) | Err e => Err e end)
          else if String.eqb itemType ItemTypeCodeFile then
            let* r := call (db_GetCodeFileMetaByID E itemID) in
            ret (match r with Ok f => Ok (MetaCodeFile f) | Err e => Err e end)
          else Return (Err ErrInvalidItemType) in
        match dbRes with
        | Err dbErr => Return (Err (mapDBError dbErr itemType itemID))
        | Ok dbMeta =>
            (* 3. Set Cache *)
            call (cache_SetItemMeta E itemID itemType dbMeta) ;;
            ret (Ok dbMeta)
        end
    end).

(** [GetPostDetails] and [GetCodeFileDetails]: the metadata lookup followed
    by the type assertion; a record of the wrong dynamic type is evicted from
    the cache and reported as an internal error. *)
Definition GetPostDetails (postID : string) : World -> Result Post * World :=
  func (
    let* metaRes := call (getItemMetaWithCache postID ItemTypePost) in
    match metaRes with
    | Err err => Return (Err err)
    | Ok meta =>
        match meta with
        | MetaPost post => ret (Ok post)
        | _ =>
            call (cache_DeleteItemMeta E postID ItemTypePost) ;;
            Return (Err (ErrorsNew "internal error retrieving post details"))
        end
    end).

Definition GetCodeFileDetails (fileID : string)
  : World -> Result CodeFile * World :=
  func (
    let* metaRes := call (getItemMetaWithCache fileID ItemTypeCodeFile) in
    match metaRes with
    | Err err => Return (Err err)
    | Ok meta =>
        match meta with
        | MetaCodeFile file => ret (Ok file)
        | _ =>
            call (cache_DeleteItemMeta E fileID ItemTypeCodeFile) ;;
            Return (Err (ErrorsNew "internal error retrieving code file details"))
        end
    end).

(** Modelled from the spec: [getItemVersion] is named in the service source
    but its body is not part of it.  Section 4.3.2 has the conflict carry
    "the true current version": the version is read back from the metadata
    store, not from the cache. *)
Definition getItemVersion (itemID itemType : string) : World -> Result Z * World :=
  func (
    if String.eqb itemType ItemTypePost then
      let* r := call (db_GetPostMetaByID E itemID) in
      ret (match r with
           | Ok p => Ok (Post_Version p)
           | Err e => Err (mapDBError e itemType itemID)
           end)
    else if String.eqb itemType ItemTypeCodeFile then
      let* r := call (db_GetCodeFileMetaByID E itemID) in
      ret (match r with
           | Ok f => Ok (File_Version f)
           | Err e => Err (mapDBError e itemType itemID)
           end)
    else Return (Err ErrInvalidItemType)).

Definition assertion_panic : error :=
  GoPanic "interface conversion: interface {} is not the asserted type".

(** The first [switch itemType] of the coordinator operations: the type
    assertion, the ownership check and the reading of path, owner and
    version.  For a type that is neither case the variables keep their zero
    values. *)
Definition GetItemContent (userID itemID itemTypeStr : string)
  : World -> (string * Z * option error) * World :=
  func (
    let itemType := itemTypeStr in
    if negb (IsValid itemType) then Return ("", 0, Some ErrInvalidItemType) else
    (* 1. Get Metadata *)
    let* metaRes := call (getItemMetaWithCache itemID itemType) in
    match metaRes with
    | Err err => Return ("", 0, Some err)
    | Ok meta =>
        let* (s3Path, ownerUserID, currentVersion) :=
          if String.eqb itemType ItemTypePost then
            match meta with
            | MetaPost postMeta =>
                if negb (String.eqb (Post_UserID postMeta) userID)
                then Return ("", 0, Some ErrPermissionDenied)
                else ret (Post_S3Path postMeta, Post_UserID postMeta, Post_Version postMeta)
            | _ => Return ("", 0, Some assertion_panic)
            end
          else if String.eqb itemType ItemTypeCodeFile then
            match meta with
            | MetaCodeFile fileMeta =>
                if negb (String.eqb (File_UserID fileMeta) userID)
                then Return ("", 0, Some ErrPermissionDenied)
                else ret (File_S3Path fileMeta, File_UserID fileMeta, File_Version fileMeta)
            | _ => Return ("", 0, Some assertion_panic)
            end
          else ret ("", "", 0) in
        if negb (String.eqb ownerUserID userID)
        then Return ("", 0, Some ErrPermissionDenied) else
        (* 2. Check Content Cache *)
        let* cached := call (cache_GetItemContent E itemID itemType currentVersion) in
        match cached with
        | Ok cachedContent => Return (cachedContent, currentVersion, None)
        | Err _ =>
            (* 3. Fetch from S3 if not cached *)
            if String.eqb s3Path "" then Return ("", currentVersion, None) else
            let* dl := call (storage_DownloadFile E s3Path) in
            match dl with
            | Err err =>
                if errors_Is err StorageErrFileNotFound
                then Return ("", currentVersion, None)
                else Return ("", 0, Some (ErrorsNew "failed to retrieve content"))
            | Ok reader =>
                let* rd := call (io_ReadAll E s3Path reader) in
                match rd with
                | Err _ => Return ("", 0, Some (ErrorsNew "failed to read content"))
                | Ok content =>
                    (* 4. Set Content Cache *)
                    call (cache_SetItemContent E itemID itemType currentVersion content) ;;
                    ret (content, currentVersion, None)
                end
            end
        end
    end).

Definition getItemContentFromSource (itemID itemType : string) (version : Z)
    (s3Path : string) : World -> Result string * World :=
  func (
    let* cached := call (cache_GetItemContent E itemID itemType version) in
    match cached with
    | Ok cachedContent => Return (Ok cachedContent)
    | Err _ =>
        if String.eqb s3Path "" then Return (Ok "") else
        let* dl := call (storage_DownloadFile E s3Path) in
        match dl with
        | Err err =>
            if errors_Is err StorageErrFileNotFound then Return (Ok "")
            else Return (Err (Errorf "s3 download error" err))
        | Ok reader =>
            let* rd := call (io_ReadAll E s3Path reader) in
            match rd with
            | Err err => Return (Err (Errorf "s3 read error" err))
            | Ok content => ret (Ok content)
            end
        end
    end).

Definition counterKey (itemType itemID : string) : string :=
  itemType +:+ ":" +:+ itemID.

(** [handleSnapshotting]: the counter is read and written under the mutex;
    the history entry is written after the unlock. *)
Definition handleSnapshotting (userID itemID itemType itemTypeStr : string)
    (currentVersion : Z) (currentS3Path : string) (numChangesApplied : Z)
  : World -> unit * World :=
  func (
    let interval := IntervalChanges E in
    if Z.leb interval 0 then Return tt else
    let key := counterKey itemType itemID in
    let* count := call (fun w =>
      let c := GoInt.add (default 0 (changeCounters w !! key)) numChangesApplied in
      (c, set_changeCounters (<[key := c]> (changeCounters w)) w)) in
    if Z.geb count interval then
      call (fun w => (tt, set_changeCounters (<[key := 0]> (changeCounters w)) w)) ;;
      let* now := call time_Now in
      let snapshotLog :=
        mkHistoryLog "" userID itemID itemTypeStr ActionSnapshot now None
          "" currentS3Path currentVersion None in
      call (db_LogAction E snapshotLog) ;;
      ret tt
    else ret tt).

(** Step 8 of [ApplyItemChanges]: one patch entry per change, each tagged
    with the new version; a failed append is logged and skipped. *)
Fixpoint logPatches (userID itemID itemTypeStr : string) (now : Z)
    (expectedNewVersion : Z) (changes : list Change) : World -> unit * World :=
  match changes with
  | [] => fun w => (tt, w)
  | change :: rest =>
      func (
        let historyLog :=
          mkHistoryLog "" userID itemID itemTypeStr ActionPatch now (Some change)
            "" "" expectedNewVersion None in
        call (db_LogAction E historyLog) ;;
        call (logPatches userID itemID itemTypeStr now expectedNewVersion rest))
  end.

Definition storage_save_failed : error :=
  ErrorsNew "failed to save updated content to storage".

Definition ApplyItemChanges (userID itemID itemTypeStr : string)
    (baseVersion : Z) (changes : list Change)
  : World -> (Z * list Change * option error) * World :=
  func (
    let itemType := itemTypeStr in
    if negb (IsValid itemType) then Return (0, [], Some ErrInvalidItemType) else
    (* 1. Get Metadata *)
    let* metaRes := call (getItemMetaWithCache itemID itemType) in
    match metaRes with
    | Err err => Return (0, [], Some err)
    | Ok meta =>
        let* (s3Path, ownerUserID, currentVersion, contentType) :=
          if String.eqb itemType ItemTypePost then
            match meta with
            | MetaPost postMeta =>
                if negb (String.eqb (Post_UserID postMeta) userID)
                then Return (0, [], Some ErrPermissionDenied)
                else if negb (Z.eqb (Post_Version postMeta) baseVersion)
                then Return (Post_Version postMeta, [], Some ErrVersionConflict)
                else ret (Post_S3Path postMeta, Post_UserID postMeta,
                          Post_Version postMeta, "text/markdown")
            | _ => Return (0, [], Some assertion_panic)
            end
          else if String.eqb itemType ItemTypeCodeFile then
            match meta with
            | MetaCodeFile fileMeta =>
                if negb (String.eqb (File_UserID fileMeta) userID)
                then Return (0, [], Some ErrPermissionDenied)
                else if negb (Z.eqb (File_Version fileMeta) baseVersion)
                then Return (File_Version fileMeta, [], Some ErrVersionConflict)
                else ret (File_S3Path fileMeta, File_UserID fileMeta,
                          File_Version fileMeta, "text/plain")
            | _ => Return (0, [], Some assertion_panic)
            end
          else ret ("", "", 0, "") in
        if negb (String.eqb ownerUserID userID)
        then Return (0, [], Some ErrPermissionDenied) else
        (* 2. Generate S3 Path if missing *)
        let s3Path :=
          if String.eqb s3Path "" then generateS3Path userID itemID itemType
          else s3Path in
        (* 3. Download Current Content *)
        let* cur := call (getItemContentFromSource itemID itemType currentVersion s3Path) in
        match cur with
        | Err err =>
            Return (0, [], Some (Errorf "failed to retrieve current content for update" err))
        | Ok currentContent =>
            (* 4. Apply Changes *)
            match applyChanges E currentContent changes with
            | Err _ => Return (0, [], Some ErrApplyChange)
            | Ok newContent =>
                (* 5. Upload Patched Content to S3 first *)
                let* up := call (storage_UploadFile E s3Path newContent contentType) in
                match up with
                | Err _ => Return (0, [], Some storage_save_failed)
                | Ok _ =>
                    (* 6. Attempt to Update Metadata in DB *)
                    let* now := call time_Now in
                    let expectedNewVersion := GoInt.add currentVersion 1 in
                    let* dbUpdate :=
                      if String.eqb itemType ItemTypePost then
                        match meta with
                        | MetaPost postMeta =>
                            call (db_UpdatePostMeta E
                                    (mkPost (Post_ID postMeta) (Post_UserID postMeta)
                                       (Title postMeta) (Slug postMeta)
                                       (Post_CreatedAt postMeta) now s3Path currentVersion))
                        | _ => Return (0, [], Some assertion_panic)
                        end
                      else if String.eqb itemType ItemTypeCodeFile then
                        match meta with
                        | MetaCodeFile fileMeta =>
                            call (db_UpdateCodeFileMeta E
                                    (mkCodeFile (File_ID fileMeta) (File_UserID fileMeta)
                                       (FileName fileMeta) (Language fileMeta)
                                       (File_CreatedAt fileMeta) now s3Path currentVersion))
                        | _ => Return (0, [], Some assertion_panic)
                        end
                      else ret (Ok tt) in
                    match dbUpdate with
                    | Err dbUpdateErr =>
                        if errors_Is dbUpdateErr DbErrVersionMismatch then
                          let* latest := call (getItemVersion itemID itemType) in
                          match latest with
                          | Err _ => Return (0, [], Some ErrInconsistentState)
                          | Ok latestVersion =>
                              Return (latestVersion, [], Some ErrVersionConflict)
                          end
                        else Return (0, [], Some ErrInconsistentState)
                    | Ok _ =>
                        (* 7. Invalidate/Update Caches *)
                        call (cache_DeleteItemMeta E itemID itemType) ;;
                        call (cache_InvalidateItemContent E itemID itemType) ;;
                        call (cache_SetItemContent E itemID itemType
                                expectedNewVersion newContent) ;;
                        (* 8. Log Action History (Patch) *)
                        call (logPatches userID itemID itemTypeStr now
                                expectedNewVersion changes) ;;
                        (* 9. Snapshot Logic *)
                        call (handleSnapshotting userID itemID itemType itemTypeStr
                                expectedNewVersion s3Path
                                (Z.of_nat (length changes))) ;;
                        ret (expectedNewVersion, changes, None)
                    end
                end
            end
        end
    end).

(** [DeleteItem].  Two places of the source are elided: the body of the
    [if err != nil] after the metadata delete (as written, control falls
    through) and the leading fields of the history entry (taken, as in the
    other entries of this file, to be the user, the item and the time). *)
Definition DeleteItem (userID itemID itemTypeStr : string)
  : World -> option error * World :=
  func (
    let itemType := itemTypeStr in
    if negb (IsValid itemType) then Return (Some ErrInvalidItemType) else
    (* 1. Get Metadata *)
    let* metaRes := call (getItemMetaWithCache itemID itemType) in
    match metaRes with
    | Err err =>
        if errors_Is err ErrItemNotFound then Return None (* Already deleted? OK. *)
        else Return (Some err)
    | Ok meta =>
        let* (s3Path, ownerUserID, currentVersion) :=
          if String.eqb itemType ItemTypePost then
            match meta with
            | MetaPost postMeta =>
                if negb (String.eqb (Post_UserID postMeta) userID)
                then Return (Some ErrPermissionDenied)
                else ret (Post_S3Path postMeta, Post_UserID postMeta, Post_Version postMeta)
            | _ => Return (Some assertion_panic)
            end
          else if String.eqb itemType ItemTypeCodeFile then
            match meta with
            | MetaCodeFile fileMeta =>
                if negb (String.eqb (File_UserID fileMeta) userID)
                then Return (Some ErrPermissionDenied)
                else ret (File_S3Path fileMeta, File_UserID fileMeta, File_Version fileMeta)
            | _ => Return (Some assertion_panic)
            end
          else ret ("", "", 0) in
        if negb (String.eqb ownerUserID userID)
        then Return (Some ErrPermissionDenied) else
        (* 2. Delete Metadata from DB *)
        (if String.eqb itemType ItemTypePost then
           call (db_DeletePostMeta E itemID) ;; ret tt
         else if String.eqb itemType ItemTypeCodeFile then
           call (db_DeleteCodeFileMeta E itemID) ;; ret tt
         else ret tt) ;;
        (* 3. Delete Content from S3 *)
        (if negb (String.eqb s3Path "") then
           call (storage_DeleteFile E s3Path) ;; ret tt
         else ret tt) ;;
        (* 4. Log Action History (Delete) *)
        let* now := call time_Now in
        let historyLog :=
          mkHistoryLog "" userID itemID itemTypeStr ActionDelete now None
            s3Path "" currentVersion None in
        call (db_LogAction E historyLog) ;;
        (* 5. Invalidate Caches *)
        call (cache_DeleteItemMeta E itemID itemType) ;;
        call (cache_InvalidateItemContent E itemID itemType) ;;
        (* Reset change counter for deleted item *)
        call (fun w => (tt, set_changeCounters
                              (delete (counterKey itemType itemID) (changeCounters w)) w)) ;;
        ret None
    end).

Definition GetHistory (userID itemID itemTypeStr : string) (limit : Z)
  : World -> (list HistoryLog * option error) * World :=
  func (
    let itemType := itemTypeStr in
    if negb (IsValid itemType) then Return ([], Some ErrInvalidItemType) else
    (* 1. Verify user owns the item *)
    let* metaRes := call (getItemMetaWithCache itemID itemType) in
    match metaRes with
    | Err err => Return ([], Some err)
    | Ok meta =>
        (if String.eqb itemType ItemTypePost then
           match meta with
           | MetaPost postMeta =>
               if negb (String.eqb (Post_UserID postMeta) userID)
               then Return ([], Some ErrPermissionDenied) else ret tt
           | _ => Return ([], Some assertion_panic)
           end
         else if String.eqb itemType ItemTypeCodeFile then
           match meta with
           | MetaCodeFile fileMeta =>
               if negb (String.eqb (File_UserID fileMeta) userID)
               then Return ([], Some ErrPermissionDenied) else ret tt
           | _ => Return ([], Some assertion_panic)
           end
         else ret tt) ;;
        (* 2. Fetch history from DB *)
        let* h := call (db_GetActionHistory E itemID itemTypeStr limit) in
        match h with
        | Err _ => Return ([], Some (ErrorsNew "failed to retrieve history"))
        | Ok history => ret (history, None)
        end
    end).

Definition RevertToAction (userID targetLogID : string)
  : World -> (Z * option error) * World :=
  func (
    (* 1. Fetch the Target History Log Entry *)
    let* lg := call (db_GetHistoryLogByID E targetLogID) in
    match lg with
    | Err err =>
        if errors_Is err DbErrNotFound then Return (0, Some ErrHistoryLogNotFound)
        else Return (0, Some (ErrorsNew "failed to retrieve target history state"))
    | Ok targetLog =>
        (* 2. Basic Validation *)
        let itemType := Log_ItemType targetLog in
        if negb (IsValid itemType) then Return (0, Some ErrInvalidItemType) else
        if negb (bool_decide (Action targetLog = ActionCreate))
           && negb (bool_decide (Action targetLog = ActionSnapshot))
        then Return (0, Some ErrRevertNotAllowed) else
        if String.eqb (S3PathAfter targetLog) ""
        then Return (0, Some (ErrorsNew "cannot revert: target state content path missing"))
        else
        (* 3. Verify Ownership *)
        let* metaRes := call (getItemMetaWithCache (Log_ItemID targetLog) itemType) in
        match metaRes with
        | Err err => Return (0, Some err)
        | Ok meta =>
            let* (currentS3Path, ownerUserID, currentVersion, contentType) :=
              if String.eqb itemType ItemTypePost then
                match meta with
                | MetaPost postMeta =>
                    if negb (String.eqb (Post_UserID postMeta) userID)
                    then Return (0, Some ErrPermissionDenied)
                    else ret (Post_S3Path postMeta, Post_UserID postMeta,
                              Post_Version postMeta, "text/markdown")
                | _ => Return (0, Some assertion_panic)
                end
              else if String.eqb itemType ItemTypeCodeFile then
                match meta with
                | MetaCodeFile fileMeta =>
                    if negb (String.eqb (File_UserID fileMeta) userID)
                    then Return (0, Some ErrPermissionDenied)
                    else ret (File_S3Path fileMeta, File_UserID fileMeta,
                              File_Version fileMeta, "text/plain")
                | _ => Return (0, Some assertion_panic)
                end
              else ret ("", "", 0, "") in
            if negb (String.eqb ownerUserID userID)
            then Return (0, Some ErrPermissionDenied) else
            if String.eqb currentS3Path ""
            then Return (0, Some (ErrorsNew "internal error: item missing storage path"))
            else
            (* 4. Fetch the Content from the Target State's S3 Path *)
            let* dl := call (storage_DownloadFile E (S3PathAfter targetLog)) in
            match dl with
            | Err _ =>
                Return (0, Some (ErrorsNew "failed to retrieve content for revert state"))
            | Ok reader =>
                let* rd := call (io_ReadAll E (S3PathAfter targetLog) reader) in
                match rd with
                | Err _ =>
                    Return (0, Some (ErrorsNew "failed to read content for revert state"))
                | Ok revertContent =>
                    (* 5. Upload Reverted Content to the current S3 Path *)
                    let* up := call (storage_UploadFile E currentS3Path revertContent
                                       contentType) in
                    match up with
                    | Err _ => Return (0, Some (ErrorsNew "failed to save reverted content"))
                    | Ok _ =>
                        (* 6. Update Item Metadata (Increment version) *)
                        let* now := call time_Now in
                        let expectedNewVersion := GoInt.add currentVersion 1 in
                        let* dbUpdate :=
                          if String.eqb itemType ItemTypePost then
                            match meta with
                            | MetaPost postMeta =>
                                call (db_UpdatePostMeta E
                                        (mkPost (Post_ID postMeta) (Post_UserID postMeta)
                                           (Title postMeta) (Slug postMeta)
                                           (Post_CreatedAt postMeta) now
                                           (Post_S3Path postMeta) currentVersion))
                            | _ => Return (0, Some assertion_panic)
                            end
                          else if String.eqb itemType ItemTypeCodeFile then
                            match meta with
                            | MetaCodeFile fileMeta =>
                                call (db_UpdateCodeFileMeta E
                                        (mkCodeFile (File_ID fileMeta) (File_UserID fileMeta)
                                           (FileName fileMeta) (Language fileMeta)
                                           (File_CreatedAt fileMeta) now
                                           (File_S3Path fileMeta) currentVersion))
                            | _ => Return (0, Some assertion_panic)
                            end
                          else ret (Ok tt) in
                        match dbUpdate with
                        | Err _ => Return (0, Some ErrInconsistentState)
                        | Ok _ =>
                            (* 7. Invalidate Caches *)
                            call (cache_DeleteItemMeta E (Log_ItemID targetLog) itemType) ;;
                            call (cache_InvalidateItemContent E (Log_ItemID targetLog)
                                    itemType) ;;
                            call (cache_SetItemContent E (Log_ItemID targetLog) itemType
                                    expectedNewVersion revertContent) ;;
                            (* 8. Log the Revert Action *)
                            let revertLog :=
                              mkHistoryLog "" userID (Log_ItemID targetLog)
                                (Log_ItemType targetLog) ActionRevert now None ""
                                currentS3Path expectedNewVersion (Some targetLogID) in
                            call (db_LogAction E revertLog) ;;
                            (* Reset change counter after revert *)
                            call (fun w =>
                                    (tt, set_changeCounters
                                           (delete (counterKey itemType (Log_ItemID targetLog))
                                              (changeCounters w)) w)) ;;
                            ret (expectedNewVersion, None)
                        end
                    end
                end
            end
        end
    end).

(** *** User methods.  The error branches that the source elides are
    written out after the comments that stand in for them. *)

Definition RegisterUser (username password : string)
  : World -> Result User * World :=
  func (
    (* hashing logic *)
    match bcrypt_GenerateFromPassword E password with
    | Err err => Return (Err err)
    | Ok hashedPassword =>
        let* now := call time_Now in
        let user := mkUser username username hashedPassword now in
        let* (user, res) := call (db_CreateUser E user) in
        match res with
        | Err err =>
            (* error handling: ErrDuplicateUser -> ErrUsernameTaken *)
            if errors_Is err DbErrDuplicateUser then Return (Err ErrUsernameTaken)
            else Return (Err (Errorf "failed to create user" err))
        | Ok _ =>
            (* Clear hash before returning/caching *)
            let user := mkUser (User_ID user) (Username user) "" (User_CreatedAt user) in
            ret (Ok user)
        end
    end).

Definition LoginUser (username password : string)
  : World -> Result (string * User) * World :=
  func (
    (* 1. Check Cache: the hit is not used, the error is only logged *)
    call (cache_GetUser E username) ;;
    (* 2. Fetch from DB *)
    let* dbUser := call (db_GetUserByUsername E username) in
    match dbUser with
    | Err err =>
        (* map DB error to ErrInvalidCredentials *)
        if errors_Is err DbErrNotFound then Return (Err ErrInvalidCredentials)
        else Return (Err (Errorf "failed to retrieve user" err))
    | Ok user =>
        (* 3. Compare Password *)
        if negb (bcrypt_CompareHashAndPassword E (PasswordHash user) password)
        then Return (Err ErrInvalidCredentials) else
        (* 4. Generate JWT *)
        match auth_GenerateJWT E (User_ID user) with
        | Err err => Return (Err (Errorf "failed to generate token" err))
        | Ok token =>
            (* 5. Cache User (without hash) *)
            let user := mkUser (User_ID user) (Username user) "" (User_CreatedAt user) in
            call (cache_SetUser E user) ;;
            ret (Ok (token, user))
        end
    end).

End Service.

(** * A concrete deployment, for running the service

    A change applier, an oracle under which no adapter call fails, and a few
    small worlds. *)

Module Sample.

Definition is_newline (c : ascii) : bool := Ascii.eqb c "010"%char.

(** Offset of the anchor [(line, column)]: lines end at a line feed, the
    column is counted from the start of the line and may equal its
    length, and an anchor outside the document has no offset. *)
Fixpoint anchor_offset (text : string) (line column : nat) : option nat :=
  match line, column, text with
  | O, O, _ => Some O
  | O, S c, String ch rest =>
      if is_newline ch then None else S <$> anchor_offset rest O c
  | O, S _, EmptyString => None
  | S l, _, String ch rest =>
      S <$> (if is_newline ch then anchor_offset rest l column
             else anchor_offset rest (S l) column)
  | S _, _, EmptyString => None
  end.

Definition apply_one (text : string) (c : Change) : Result string :=
  if Z.ltb (Line c) 0 || Z.ltb (Column c) 0 || Z.ltb (Removed c) 0
  then Err (ErrorsNew "negative coordinate")
  else
    match anchor_offset text (Z.to_nat (Line c)) (Z.to_nat (Column c)) with
    | None => Err (ErrorsNew "BadAnchor")
    | Some start =>
        let stop := (start + Z.to_nat (Removed c))%nat in
        if Nat.ltb (String.length text) stop then Err (ErrorsNew "BadRange")
        else Ok (String.substring 0 start text +:+ Text c +:+
                 String.substring stop (String.length text - stop) text)
    end.

(** Modelled from the spec: the package function [applyChanges] is named in
    the service source but its body is not part of it.  Section 4.1: the
    changes are applied in array order, each to the text left by the ones
    before; a change anchors at [(line, column)], removes [removed]
    characters forward and inserts [text]; an anchor outside the document
    or a removal past its end fails.  Characters are taken to be single
    bytes here, which is exact for ASCII documents. *)
Fixpoint applyChanges_spec (text : string) (changes : list Change) : Result string :=
  match changes with
  | [] => Ok text
  | c :: rest =>
      match apply_one text c with
      | Ok text' => applyChanges_spec text' rest
      | Err e => Err e
      end
  end.

Definition no_faults : nat -> bool := fun _ => false.

Definition env (interval : Z) : Env :=
  mkEnv no_faults true interval applyChanges_spec
    (fun password => Ok ("bcrypt:" +:+ password))
    (fun hash password => String.eqb hash ("bcrypt:" +:+ password))
    (fun userID => Ok ("jwt:" +:+ userID)).

Definition env0 : Env := env 3.

Definition newline : string := String "010"%char EmptyString.

Definition post1 : Post :=
  mkPost "p1" "alice" "Hello" "hello" 10 10 "post/alice/p1" 1.

Definition create_log : HistoryLog :=
  mkHistoryLog "log-0" "alice" "p1" "post" ActionCreate 10 None ""
    "post/alice/p1" 1 None.

Definition empty_cache : CacheSt := mkCache ∅ ∅ ∅ ∅.

(** Alice's post "Hello" at version 1 with content ["abc\n"]; nothing is
    cached. *)
Definition w0 : World :=
  mkWorld (mkDB ∅ {[ "p1" := post1 ]} ∅ [create_log])
    {[ "post/alice/p1" := "abc" +:+ newline ]}
    empty_cache ∅ 100 [].

Definition insert_d : Change := mkChange 0 3 "d" 0.

(** A change anchored at a line the document does not have. *)
Definition bad_change : Change := mkChange 5 0 "x" 0.

(** The world after Alice has patched her post once: version 2, and the
    history holds the create entry and one patch entry. *)
Definition w_patched : World :=
  snd (ApplyItemChanges env0 "alice" "p1" "post" 1 [insert_d] w0).

Definition insert_x : Change := mkChange 0 0 "x" 0.

(** A deployment in which one adapter call fails: the eleventh of the run. *)
Definition env_f : Env :=
  mkEnv (fun n => Nat.eqb n 10) true 3 applyChanges_spec
    (fun password => Ok ("bcrypt:" +:+ password))
    (fun hash password => String.eqb hash ("bcrypt:" +:+ password))
    (fun userID => Ok ("jwt:" +:+ userID)).

(** Alice has read her post: its metadata, as JSON carries it, and its
    content are cached.  The run makes seven adapter calls. *)
Definition w_read : World :=
  snd (GetItemContent env0 "alice" "p1" "post" w0).

(** Then she deletes it, and the invalidation of the cached metadata is the
    call that fails: the store has no record of the post, the cache still
    has one. *)
Definition w_stale_deleted : World :=
  snd (DeleteItem env_f "alice" "p1" "post" w_read).

(** Alice reverts her patched post to its create entry. *)
Definition w_reverted : World :=
  snd (RevertToAction env0 "alice" "log-0" w_patched).


(** Three edits sent as one batch, which reaches the interval of [env0]. *)
Definition three_changes : list Change := [insert_d; insert_x; insert_x].

Definition w_snapshotted : World :=
  snd (ApplyItemChanges env0 "alice" "p1" "post" 1 three_changes w0).


(** The world after the create entry of the post has been fetched. *)
Definition w_log_fetched : World :=
  snd (db_GetHistoryLogByID env0 "log-0" w0).

Definition w_loaded : World :=
  snd (getItemMetaWithCache env0 "p1" "post" w_log_fetched).

(** Alice deletes her post after having read it. *)
Definition w_read_deleted : World :=
  snd (DeleteItem env0 "alice" "p1" "post" w_read).

(** Bob has registered. *)
Definition w_registered : World := snd (RegisterUser env0 "bob" "pw" w0).

Definition bob : User := mkUser "bob" "bob" "" 101.

Definition patch_log : HistoryLog :=
  mkHistoryLog "log-1" "alice" "p1" "post" ActionPatch 100 (Some insert_d) "" "" 2 None.

Definition w_updated : World := snd (db_UpdatePostMeta env0 post1 w0).

End Sample.

(** * Vocabulary of the statements *)

(** The metadata record of an item as a cache hit returns it. *)
Definition cached_meta (c : CacheSt) (itemID itemType : string) : option Meta :=
  if String.eqb itemType ItemTypePost then
    (fun p => MetaPost (json_Post p)) <$> c_posts c !! itemID
  else if String.eqb itemType ItemTypeCodeFile then
    (fun f => MetaCodeFile (json_CodeFile f)) <$> c_codefiles c !! itemID
  else None.

(** The metadata record of an item as the store returns it (the id field is
    the key). *)
Definition stored_meta (d : DB) (itemID itemType : string) : option Meta :=
  if String.eqb itemType ItemTypePost then
    (fun p => MetaPost (mkPost itemID (Post_UserID p) (Title p) (Slug p)
                          (Post_CreatedAt p) (Post_UpdatedAt p)
                          (Post_S3Path p) (Post_Version p))) <$> posts d !! itemID
  else if String.eqb itemType ItemTypeCodeFile then
    (fun f => MetaCodeFile (mkCodeFile itemID (File_UserID f) (FileName f) (Language f)
                              (File_CreatedAt f) (File_UpdatedAt f)
                              (File_S3Path f) (File_Version f))) <$> codefiles d !! itemID
  else None.

(** The record a successful compare-and-set leaves in the store. *)
Definition updated_post (q post : Post) (now : Z) : Post :=
  mkPost (Post_ID q) (Post_UserID q) (Title post) (Slug post) (Post_CreatedAt q)
    now (Post_S3Path post) (GoInt.add (Post_Version q) 1).

Definition updated_codefile (q file : CodeFile) (now : Z) : CodeFile :=
  mkCodeFile (File_ID q) (File_UserID q) (FileName file) (Language file)
    (File_CreatedAt q) now (File_S3Path file) (GoInt.add (File_Version q) 1).

(** The world after an accepted history append. *)
Definition appended (l : HistoryLog) (id : string) (ts t : Z) (w : World) : World :=
  set_db (mkDB (users (db w)) (posts (db w)) (codefiles (db w))
            (history (db w) ++ [stamp_log id ts l]))
    (set_clock t w).

(** The events a run appends to the trace. *)
Definition events_of (w w' : World) (evs : list Event) : Prop :=
  trace w' = trace w ++ evs.

Definition event_op (ev : Event) : Op := match ev with Call op _ => op end.
Definition event_outcome (ev : Event) : option error :=
  match ev with Call _ o => o end.

(** Calls that only read a store. *)
Definition is_read (op : Op) : bool :=
  match op with
  | CacheGetUser _ | CacheGetItemMeta _ _ | CacheGetItemContent _ _ _
  | DbGetUserByUsername _ | DbGetPostMetaByID _ | DbGetCodeFileMetaByID _
  | DbGetActionHistory _ _ _ | DbGetHistoryLogByID _
  | StorageDownloadFile _ | IoReadAll _ => true
  | _ => false
  end.

(** The read-through fill of the metadata cache entry of one item. *)
Definition is_meta_fill (itemID itemType : string) (op : Op) : bool :=
  match op with
  | CacheSetItemMeta i t _ => String.eqb i itemID && String.eqb t itemType
  | _ => false
  end.

(** The compare-and-set on the metadata store. *)
Definition is_metadata_update (op : Op) : bool :=
  match op with
  | DbUpdatePostMeta _ | DbUpdateCodeFileMeta _ => true
  | _ => false
  end.

Definition is_metadata_delete (op : Op) : bool :=
  match op with
  | DbDeletePostMeta _ | DbDeleteCodeFileMeta _ => true
  | _ => false
  end.

Definition is_history_append (op : Op) : bool :=
  match op with DbLogAction _ => true | _ => false end.

Definition is_cache_mutation (op : Op) : bool :=
  match op with
  | CacheSetUser _ | CacheSetItemMeta _ _ _ | CacheDeleteItemMeta _ _
  | CacheSetItemContent _ _ _ _ | CacheInvalidateItemContent _ _ => true
  | _ => false
  end.

Definition is_blob_write (op : Op) : bool :=
  match op with
  | StorageUploadFile _ _ _ | StorageDeleteFile _ => true
  | _ => false
  end.

Definition is_upload (op : Op) : bool :=
  match op with StorageUploadFile _ _ _ => true | _ => false end.

(** What the initial metadata load may do: reads, and the cache fill. *)
Definition load_event (itemID itemType : string) (ev : Event) : bool :=
  is_read (event_op ev) || is_meta_fill itemID itemType (event_op ev).

(** The durable stores and the counters are as before; of the cache only the
    item-metadata entries may differ. *)
Definition stores_kept (w w' : World) : Prop :=
  db w' = db w /\ blobs w' = blobs w /\ changeCounters w' = changeCounters w /\
  clock w' = clock w /\
  c_users (cache w') = c_users (cache w) /\
  c_content (cache w') = c_content (cache w).

(** A log entry that [RevertToAction] accepts as a restore point. *)
Definition restore_point (l : HistoryLog) : Prop :=
  (Action l = ActionCreate \/ Action l = ActionSnapshot) /\ S3PathAfter l <> "".

(** An append to the history of an entry with the given action. *)
Definition is_append_of (a : HistoryAction) (op : Op) : bool :=
  match op with
  | DbLogAction l => bool_decide (Action l = a)
  | _ => false
  end.

(** An upload that the blob store accepted. *)
Definition is_upload_ok (ev : Event) : bool :=
  match event_outcome ev with
  | None => is_upload (event_op ev)
  | Some _ => false
  end.

(** An event that changes neither the metadata store nor the history nor a
    blob, and of the cache at most fills the metadata entry of the item. *)
Definition leaves_stores_alone (itemID itemType : string) (ev : Event) : Prop :=
  is_metadata_update (event_op ev) = false /\
  is_metadata_delete (event_op ev) = false /\
  is_history_append (event_op ev) = false /\
  (is_cache_mutation (event_op ev) = true ->
   is_meta_fill itemID itemType (event_op ev) = true) /\
  (is_blob_write (event_op ev) = true -> event_outcome ev <> None).

(** Checks a trace: every metadata update comes after an accepted upload. *)
Fixpoint updates_follow_upload (uploaded : bool) (evs : list Event) : bool :=
  match evs with
  | [] => true
  | ev :: rest =>
      if is_metadata_update (event_op ev)
      then uploaded && updates_follow_upload uploaded rest
      else updates_follow_upload (uploaded || is_upload_ok ev) rest
  end.


Definition meta_id (m : Meta) : string :=
  match m with MetaPost p => Post_ID p | MetaCodeFile f => File_ID f end.

(** The deployment [E] with an oracle that fails no adapter call. *)
Definition reliable (E : Env) : Env :=
  mkEnv (fun _ => false) (cacheEnabled E) (IntervalChanges E) (applyChanges E)
    (bcrypt_GenerateFromPassword E) (bcrypt_CompareHashAndPassword E)
    (auth_GenerateJWT E).

(** The metadata record the lookup sees: the cached one when Redis is on and
    has it, the stored one otherwise. *)
Definition meta_view (E : Env) (w : World) (itemID itemType : string) : option Meta :=
  match (if cacheEnabled E then cached_meta (cache w) itemID itemType else None) with
  | Some m => Some m
  | None => stored_meta (db w) itemID itemType
  end.

(** The content a read sees for a version: the cached text when Redis is on
    and has it; otherwise the blob under the path, and the empty text when
    the path is empty or names no blob. *)
Definition content_view (E : Env) (w : World) (itemID itemType : string)
    (version : Z) (s3Path : string) : string :=
  match (if cacheEnabled E
         then c_content (cache w) !! (itemType, itemID) ≫= (.!! version)
         else None) with
  | Some s => s
  | None => if String.eqb s3Path "" then "" else default "" (blobs w !! s3Path)
  end.

(** The cached metadata record of the item, if there is one, carries the
    item's id and names the owner that the stored record names. *)
Definition cache_entry_sound (w : World) (itemID itemType : string) : Prop :=
  forall m, cached_meta (cache w) itemID itemType = Some m ->
    meta_id m = itemID /\
    forall q, stored_meta (db w) itemID itemType = Some q -> meta_owner q = meta_owner m.

(** The world after a run that has only appended events and, possibly,
    replaced the cache, or the history and the clock. *)
Definition with_cache (c : CacheSt) (evs : list Event) (w : World) : World :=
  mkWorld (db w) (blobs w) c (changeCounters w) (clock w) (trace w ++ evs).

Definition with_history (h : list HistoryLog) (t : Z) (evs : list Event) (w : World)
  : World :=
  mkWorld (mkDB (users (db w)) (posts (db w)) (codefiles (db w)) (history (db w) ++ h))
    (blobs w) (cache w) (changeCounters w) t (trace w ++ evs).

(** The fill of the metadata cache entry of some item. *)
Definition is_any_meta_fill (op : Op) : bool :=
  match op with CacheSetItemMeta _ _ _ => true | _ => false end.

(** The cases in which [RevertToAction] has to turn the request down: the
    target entry cannot be fetched, or it is neither a create nor a snapshot
    entry, or the record that the lookup returns for its item names another
    owner. *)
Definition must_reject (E : Env) (userID targetLogID : string) (w : World) : Prop :=
  match db_GetHistoryLogByID E targetLogID w with
  | (Err _, _) => True
  | (Ok targetLog, w1) =>
      (Action targetLog <> ActionCreate /\ Action targetLog <> ActionSnapshot) \/
      (exists meta w2,
          getItemMetaWithCache E (Log_ItemID targetLog) (Log_ItemType targetLog) w1
          = (Ok meta, w2) /\
          meta_owner meta <> userID)
  end.




(** ** internal/cache/redis: the keys

    The model of the cache above is indexed by the item type, the item id
    and the version; the adapter folds them into one Redis key. *)

Module RedisCache.

Section KeyGeneration.

(** The [prefix] field; [NewRedisCache] sets it to "gbc:". *)
Variable prefix : string.

Definition userKey (userID : string) : string :=
  prefix +:+ "user:" +:+ userID.

Definition itemMetaKey (itemID itemType : string) : string :=
  prefix +:+ "item:meta:" +:+ itemType +:+ ":" +:+ itemID.

Definition itemContentKey (itemID itemType : string) (version : Z) : string :=
  prefix +:+ "item:content:" +:+ itemType +:+ ":" +:+ itemID +:+ ":v" +:+ pretty version.

End KeyGeneration.

End RedisCache.

(** The character does not occur in the string. *)
Fixpoint free_of (c : ascii) (s : string) : Prop :=
  match s with
  | EmptyString => True
  | String a rest => a <> c /\ free_of c rest
  end.

(** ** internal/config, and the adapters that are chosen from it *)

Module Config.

Record ServerConfig := mkServerConfig { Port : string; Host : string }.

Record JWTConfig := mkJWTConfig { Secret : string; Expiration : Z }.

Record DBConfig := mkDBConfig {
  DB_Type : string;
  MongoURI : string;
  MongoDBName : string;
  DynamoRegion : string;
  DynamoTable : string;
  FirestoreProjectID : string;
  FirestoreCredentials : string
}.

Record StorageConfig := mkStorageConfig {
  Storage_Type : string;
  S3Region : string;
  S3Bucket : string;
  S3Endpoint : string;
  S3AccessKey : string;
  S3SecretKey : string;
  S3UsePathStyle : bool
}.

Record RedisConfig := mkRedisConfig {
  Addr : string;
  Password : string;
  Redis_DB : Z;
  Enabled : bool
}.

Record SnapshotConfig := mkSnapshotConfig { IntervalChanges : Z }.

Record Config := mkConfig {
  Server : ServerConfig;
  JWT : JWTConfig;
  Database : DBConfig;
  Storage : StorageConfig;
  Redis : RedisConfig;
  Snapshot : SnapshotConfig
}.

(** The process environment, after [godotenv.Load] has added what the
    [.env] file holds. *)
Definition Environ := gmap string string.

(** [os.LookupEnv], with the fallback for a variable that is not set. *)
Definition getEnv (env : Environ) (key fallback : string) : string :=
  match env !! key with
  | Some value => value
  | None => fallback
  end.

(** [time.Minute], in nanoseconds. *)
Definition time_Minute : Z := 60000000000.

Section Load.

(** [strconv.Atoi] and [strconv.ParseBool]: the value they return; the error
    they return with it is dropped by every caller here. *)
Variable strconv_Atoi : string -> Z.
Variable strconv_ParseBool : string -> bool.

Definition LoadConfig (env : Environ) : Config :=
  let jwtExpMinutes := strconv_Atoi (getEnv env "JWT_EXPIRATION_MINUTES" "60") in
  let s3UsePathStyle := strconv_ParseBool (getEnv env "S3_USE_PATH_STYLE" "false") in
  let redisDB := strconv_Atoi (getEnv env "REDIS_DB" "0") in
  let redisEnabled := strconv_ParseBool (getEnv env "REDIS_ENABLED" "true") in
  let snapshotInterval := strconv_Atoi (getEnv env "SNAPSHOT_INTERVAL_CHANGES" "50") in
  let redis :=
    mkRedisConfig (getEnv env "REDIS_ADDR" "localhost:6379")
      (getEnv env "REDIS_PASSWORD" "") redisDB redisEnabled in
  (* Basic validation *)
  let redis :=
    if Enabled redis && String.eqb (Addr redis) ""
    then mkRedisConfig (Addr redis) (Password redis) (Redis_DB redis) false
    else redis in
  mkConfig
    (mkServerConfig (getEnv env "SERVER_PORT" "8080") (getEnv env "SERVER_HOST" "localhost"))
    (mkJWTConfig (getEnv env "JWT_SECRET" "a_very_secret_key")
       (GoInt.wrap (jwtExpMinutes * time_Minute)))
    (mkDBConfig (getEnv env "DB_TYPE" "mongodb") (getEnv env "MONGO_URI" "")
       (getEnv env "MONGO_DB_NAME" "") (getEnv env "AWS_REGION" "")
       (getEnv env "DYNAMO_TABLE_NAME" "") (getEnv env "FIRESTORE_PROJECT_ID" "")
       (getEnv env "FIRESTORE_CREDENTIALS_FILE" ""))
    (mkStorageConfig (getEnv env "STORAGE_TYPE" "s3") (getEnv env "AWS_REGION" "")
       (getEnv env "S3_BUCKET_NAME" "") (getEnv env "S3_ENDPOINT" "")
       (getEnv env "AWS_ACCESS_KEY_ID" "") (getEnv env "AWS_SECRET_ACCESS_KEY" "")
       s3UsePathStyle)
    redis
    (mkSnapshotConfig snapshotInterval).

End Load.

(** The constructor that [database.NewDBAdapter] goes on to call. *)
Inductive DBChoice :=
  | NewMongoClient (uri dbName : string)
  | NewDynamoDBClient (region tableName : string)
  | NewFirestoreClient (projectID credentialsFile : string).

Definition NewDBAdapter (cfg : DBConfig) : Result DBChoice :=
  if String.eqb (DB_Type cfg) "mongodb" then
    if String.eqb (MongoURI cfg) "" || String.eqb (MongoDBName cfg) ""
    then Err (ErrorsNew "MongoDB selected but MONGO_URI or MONGO_DB_NAME is missing")
    else Ok (NewMongoClient (MongoURI cfg) (MongoDBName cfg))
  else if String.eqb (DB_Type cfg) "dynamodb" then
    if String.eqb (DynamoRegion cfg) "" || String.eqb (DynamoTable cfg) ""
    then Err (ErrorsNew "DynamoDB selected but AWS_REGION or DYNAMO_TABLE_NAME is missing")
    else Ok (NewDynamoDBClient (DynamoRegion cfg) (DynamoTable cfg))
  else if String.eqb (DB_Type cfg) "firestore" then
    if String.eqb (FirestoreProjectID cfg) ""
    then Err (ErrorsNew "Firestore selected but FIRESTORE_PROJECT_ID is missing")
    else Ok (NewFirestoreClient (FirestoreProjectID cfg) (FirestoreCredentials cfg))
  else if negb (String.eqb (DB_Type cfg) "")
  then Err (ErrorsNew ("unsupported database type: " +:+ DB_Type cfg))
  else Err (ErrorsNew
              "DB_TYPE must be configured (e.g., 'mongodb', 'dynamodb', 'firestore')").

(** The constructor that [storage.NewStorageAdapter] goes on to call. *)
Inductive StorageChoice :=
  | NewS3Client (cfg : StorageConfig).

Definition NewStorageAdapter (cfg : StorageConfig) : Result StorageChoice :=
  if String.eqb (Storage_Type cfg) "s3" then
    if String.eqb (S3Bucket cfg) "" || String.eqb (S3Region cfg) ""
    then Err (ErrorsNew "S3 storage selected but S3_BUCKET_NAME or AWS_REGION is missing")
    else Ok (NewS3Client cfg)
  else if negb (String.eqb (Storage_Type cfg) "")
  then Err (ErrorsNew ("unsupported storage type: " +:+ Storage_Type cfg))
  else Err (ErrorsNew "STORAGE_TYPE must be configured (e.g., 's3')").

(** [redis.NewRedisCache]; [ping] is the error of the ping that checks the
    connection. *)
Definition NewRedisCache (cfg : RedisConfig) (ping : option error) : Result unit :=
  if negb (Enabled cfg) then Err (ErrorsNew "redis disabled")
  else match ping with
       | Some err => Err (Errorf "failed to connect to redis" err)
       | None => Ok tt
       end.

(** The choice of the cache adapter in [main]: is it the Redis one (and not
    [NoOpCache])? *)
Definition main_uses_redis (cfg : RedisConfig) (ping : option error) : bool :=
  match NewRedisCache cfg ping with
  | Ok _ => true
  | Err _ => false
  end.

End Config.

(** ** internal/middleware: the bearer-token check *)

(** [strings.Split(s, sep)] for a separator of one byte: the pieces between
    the occurrences of the separator, of which there is one more than there
    are occurrences. *)
Fixpoint strings_Split (sep : ascii) (s : string) : list string :=
  match s with
  | EmptyString => [EmptyString]
  | String c rest =>
      if Ascii.eqb c sep then EmptyString :: strings_Split sep rest
      else match strings_Split sep rest with
           | piece :: pieces => String c piece :: pieces
           | [] => [String c EmptyString]
           end
  end.

Definition StatusUnauthorized : Z := 401.

(** What the middleware does with a request: it answers itself, or it calls
    the next handler with the user id in the context. *)
Inductive AuthOutcome :=
  | HttpError (message : string) (status : Z)
  | Next (userID : string).

Section Middleware.

(** [strings.ToLower] and [auth.ValidateJWT]. *)
Variable strings_ToLower : string -> string.
Variable auth_ValidateJWT : string -> Result string.

(** [authHeader] is [r.Header.Get("Authorization")], the empty string when the
    header is missing. *)
Definition AuthMiddleware (authHeader : string) : AuthOutcome :=
  if String.eqb authHeader "" then
    HttpError "Authorization header required" StatusUnauthorized
  else
    let parts := strings_Split " "%char authHeader in
    if negb (Nat.eqb (length parts) 2)
       || negb (String.eqb (strings_ToLower (nth 0 parts "")) "bearer")
    then HttpError "Authorization header format must be Bearer {token}"
           StatusUnauthorized
    else
      let tokenString := nth 1 parts "" in
      match auth_ValidateJWT tokenString with
      | Err _ => HttpError "Invalid or expired token" StatusUnauthorized
      | Ok userID => Next userID
      end.

End Middleware.

(** The string has no space. *)
Definition no_space (s : string) : Prop :=
  Forall (fun c => c <> " "%char) (String.list_ascii_of_string s).

(** ** internal/websocket: the hub

    The state that [Hub.Run] owns: the set of registered clients and, for
    each client, its buffered [send] channel.  A send on a closed channel
    and the close of a closed or nil channel panic; [None] is the panic. *)

Module Hub.

(** A [*Client], by its address. *)
Definition Client := nat.

Record Chan := mkChan {
  queue : list string;
  capacity : nat;
  closed : bool
}.

Record State := mkState {
  clients : gset Client;
  chans : gmap Client Chan
}.

(** [close(ch)] *)
Definition chan_close (ch : option Chan) : option Chan :=
  match ch with
  | None => None
  | Some ch => if closed ch then None else Some (mkChan (queue ch) (capacity ch) true)
  end.

(** [select { case ch <- m: ... default: ... }]: whether the send was taken,
    and the channel after it.  A nil channel is never ready. *)
Definition try_send (m : string) (ch : option Chan) : option (option Chan * bool) :=
  match ch with
  | None => Some (None, false)
  | Some ch =>
      if closed ch then None
      else if Nat.ltb (length (queue ch)) (capacity ch)
           then Some (Some (mkChan (queue ch ++ [m]) (capacity ch) false), true)
           else Some (Some ch, false)
  end.

(** [case client := <-h.register] *)
Definition register (c : Client) (s : State) : option State :=
  Some (mkState ({[ c ]} ∪ clients s) (chans s)).

(** [case client := <-h.unregister] *)
Definition unregister (c : Client) (s : State) : option State :=
  if decide (c ∈ clients s) then
    match chan_close (chans s !! c) with
    | Some ch => Some (mkState (clients s ∖ {[ c ]}) (<[c := ch]> (chans s)))
    | None => None
    end
  else Some s.

(** The loop of [case message := <-h.broadcast] over the clients in the
    order the map iteration yields them; the second component lists the
    clients for which a goroutine was started that will send them on
    [h.unregister]. *)
Fixpoint deliver (m : string) (cs : list Client) (chs : gmap Client Chan)
  : option (gmap Client Chan * list Client) :=
  match cs with
  | [] => Some (chs, [])
  | c :: rest =>
      match try_send m (chs !! c) with
      | None => None
      | Some (ch', sent) =>
          match deliver m rest (match ch' with
                                | Some ch' => <[c := ch']> chs
                                | None => chs
                                end) with
          | None => None
          | Some (chs', slow) => Some (chs', if sent then slow else c :: slow)
          end
      end
  end.

Definition broadcast (m : string) (s : State) : option (State * list Client) :=
  match deliver m (elements (clients s)) (chans s) with
  | Some (chs, slow) => Some (mkState (clients s) chs, slow)
  | None => None
  end.

(** [case message, ok := <-c.send] in the [writePump] of the client: the
    message at the head of the queue is taken off; on an empty channel the
    pump waits, or finds the channel closed and returns. *)
Definition receive (c : Client) (s : State) : option State :=
  match chans s !! c with
  | Some ch =>
      match queue ch with
      | _ :: q =>
          Some (mkState (clients s) (<[c := mkChan q (capacity ch) (closed ch)]> (chans s)))
      | [] => Some s
      end
  | None => Some s
  end.

(** [GetClientCount] *)
Definition GetClientCount (s : State) : nat := size (clients s).

Inductive Event :=
  | Register (c : Client)
  | Unregister (c : Client)
  | Broadcast (m : string)
  | Receive (c : Client).

Definition step (ev : Event) (s : State) : option State :=
  match ev with
  | Register c => register c s
  | Unregister c => unregister c s
  | Broadcast m => fst <$> broadcast m s
  | Receive c => receive c s
  end.

(** The channel of every registered client is there and open. *)
Definition registered_open (s : State) : Prop :=
  forall c, c ∈ clients s -> exists ch, chans s !! c = Some ch /\ closed ch = false.

(** What the hub is sent: a client is registered while its channel is open.
    (A connection registers its client once, when the channel is made.) *)
Definition admissible (ev : Event) (s : State) : Prop :=
  match ev with
  | Register c => exists ch, chans s !! c = Some ch /\ closed ch = false
  | _ => True
  end.

(** The events are taken one after the other; each has to be admissible in
    the state it meets. *)
Fixpoint run_admissible (evs : list Event) (s : State) : Prop :=
  match evs with
  | [] => True
  | ev :: rest =>
      admissible ev s /\
      match step ev s with
      | Some s' => run_admissible rest s'
      | None => True
      end
  end.

Fixpoint run (evs : list Event) (s : State) : option State :=
  match evs with
  | [] => Some s
  | ev :: rest =>
      match step ev s with
      | Some s' => run rest s'
      | None => None
      end
  end.

(** Has the channel room for one more message? *)
Definition has_room (ch : Chan) : bool := Nat.ltb (length (queue ch)) (capacity ch).

(** Two registered clients, the second with a full channel, and a third
    client that has connected but is not registered yet. *)
Definition sample : State :=
  mkState {[ 1%nat; 2%nat ]}
    {[ 1%nat := mkChan [] 1 false; 2%nat := mkChan ["x"] 1 false;
       3%nat := mkChan [] 1 false ]}.

Definition sample_events : list Event :=
  [Register 3%nat; Broadcast "a"; Unregister 2%nat; Unregister 2%nat; Receive 1%nat;
   Broadcast "b"].

Definition sample_after_broadcast : State :=
  mkState {[ 1%nat; 2%nat ]}
    {[ 1%nat := mkChan ["m"] 1 false; 2%nat := mkChan ["x"] 1 false;
       3%nat := mkChan [] 1 false ]}.

Definition sample_after_unregister : State :=
  mkState {[ 1%nat ]}
    {[ 1%nat := mkChan [] 1 false; 2%nat := mkChan ["x"] 1 true;
       3%nat := mkChan [] 1 false ]}.

End Hub.

(** * Machine integers *)

Module GoIntFacts.
Import GoInt.

Lemma wrap_in_range z : in_range z -> wrap z = z.
Proof.
  unfold in_range, min_int, max_int, wrap. intros H.
  rewrite Z.mod_small; lia.
Qed.

Lemma add_no_overflow a b : in_range (a + b) -> add a b = a + b.
Proof. apply wrap_in_range. Qed.

Lemma add_succ v : in_range v -> v < max_int -> add v 1 = v + 1.
Proof.
  intros [Hlo Hhi] Hlt. apply add_no_overflow.
  unfold in_range, min_int, max_int in *. lia.
Qed.

End GoIntFacts.

(** * Reasoning about adapter calls

    Each adapter call is characterised by the world it leaves: the world
    before, with one store replaced and one event appended. *)

Ltac wsimpl :=
  unfold with_cache, with_history, appended, record_event, time_Now,
    set_db, set_blobs, set_cache, set_changeCounters, set_clock in *;
  cbn [db blobs cache changeCounters clock trace fst snd
       users posts codefiles history c_users c_posts c_codefiles c_content
       err_of Post_ID Post_UserID Title Slug Post_CreatedAt Post_UpdatedAt
       Post_S3Path Post_Version File_ID File_UserID FileName Language
       File_CreatedAt File_UpdatedAt File_S3Path File_Version] in *.

Lemma set_cache_same w : set_cache (cache w) w = w.
Proof. by destruct w. Qed.

Lemma set_db_same w : set_db (db w) w = w.
Proof. by destruct w. Qed.

Lemma set_blobs_same w : set_blobs (blobs w) w = w.
Proof. by destruct w. Qed.

Section AdapterFacts.

Variable E : Env.

Lemma adapter_inv {A} op (body : World -> Result A * World) w r w' :
  adapter E op body w = (r, w') ->
  (faults E (length (trace w)) = true /\ r = Err adapter_failure /\
   w' = record_event (Call op (Some adapter_failure)) w) \/
  (faults E (length (trace w)) = false /\
   exists wb, body w = (r, wb) /\ w' = record_event (Call op (err_of r)) wb).
Proof.
  unfold adapter. intros H. destruct (faults E (length (trace w))).
  - left. by simplify_eq.
  - right. split; [done|]. destruct (body w) as [r0 wb]. simplify_eq. eauto.
Qed.

Lemma cache_call_inv {A} op (noop : Result A) body w r w' :
  cache_call E op noop body w = (r, w') ->
  exists c, w' = record_event (Call op (err_of r)) (set_cache c w) /\
    ((cacheEnabled E = false /\ r = noop /\ c = cache w) \/
     (cacheEnabled E = true /\ faults E (length (trace w)) = true /\
      r = Err adapter_failure /\ c = cache w) \/
     (cacheEnabled E = true /\ faults E (length (trace w)) = false /\
      body (cache w) = (r, c))).
Proof.
  unfold cache_call. intros H. destruct (cacheEnabled E).
  - apply adapter_inv in H as [(Hf & -> & ->) | (Hf & wb & Hb & ->)].
    + exists (cache w). rewrite set_cache_same. naive_solver.
    + destruct (body (cache w)) as [r0 c] eqn:Hbody. simplify_eq.
      exists c. naive_solver.
  - simplify_eq. exists (cache w). rewrite set_cache_same. naive_solver.
Qed.

(** *** Cache reads leave the cache as it was *)

Lemma cache_GetItemMeta_inv itemID itemType w r w' :
  cache_GetItemMeta E itemID itemType w = (r, w') ->
  w' = record_event (Call (CacheGetItemMeta itemID itemType) (err_of r)) w /\
  match r with
  | Ok m => cacheEnabled E = true /\ cached_meta (cache w) itemID itemType = Some m
  | Err e => True
  end.
Proof.
  unfold cache_GetItemMeta, cached_meta. intros H.
  apply cache_call_inv in H as (c & -> & [(? & -> & ->) | [(? & ? & -> & ->) | (? & ? & Hb)]]);
    rewrite ?set_cache_same; try done.
  repeat case_match; simplify_eq; rewrite ?set_cache_same;
    repeat match goal with H : _ !! _ = _ |- _ => rewrite H end; done.
Qed.

Lemma cache_GetItemContent_inv itemID itemType v w r w' :
  cache_GetItemContent E itemID itemType v w = (r, w') ->
  w' = record_event (Call (CacheGetItemContent itemID itemType v) (err_of r)) w.
Proof.
  unfold cache_GetItemContent. intros H.
  apply cache_call_inv in H as (c & -> & [(? & -> & ->) | [(? & ? & -> & ->) | (? & ? & Hb)]]);
    rewrite ?set_cache_same; try done.
  repeat case_match; simplify_eq; by rewrite ?set_cache_same.
Qed.

Lemma cache_GetUser_inv userID w r w' :
  cache_GetUser E userID w = (r, w') ->
  w' = record_event (Call (CacheGetUser userID) (err_of r)) w.
Proof.
  unfold cache_GetUser. intros H.
  apply cache_call_inv in H as (c & -> & [(? & -> & ->) | [(? & ? & -> & ->) | (? & ? & Hb)]]);
    rewrite ?set_cache_same; try done.
  repeat case_match; simplify_eq; by rewrite ?set_cache_same.
Qed.

(** *** Cache writes *)

Lemma cache_SetItemMeta_inv itemID itemType m w r w' :
  cache_SetItemMeta E itemID itemType m w = (r, w') ->
  exists c,
    w' = record_event (Call (CacheSetItemMeta itemID itemType m) (err_of r)) (set_cache c w) /\
    c_users c = c_users (cache w) /\ c_content c = c_content (cache w).
Proof.
  unfold cache_SetItemMeta. intros H.
  apply cache_call_inv in H as (c & -> & [(? & -> & ->) | [(? & ? & -> & ->) | (? & ? & Hb)]]);
    eexists; (split; [reflexivity|]); try done.
  repeat case_match; by simplify_eq.
Qed.

Lemma cache_DeleteItemMeta_inv itemID itemType w r w' :
  cache_DeleteItemMeta E itemID itemType w = (r, w') ->
  exists c,
    w' = record_event (Call (CacheDeleteItemMeta itemID itemType) (err_of r)) (set_cache c w).
Proof.
  unfold cache_DeleteItemMeta. intros H.
  apply cache_call_inv in H as (c & -> & _). eauto.
Qed.

Lemma cache_InvalidateItemContent_inv itemID itemType w r w' :
  cache_InvalidateItemContent E itemID itemType w = (r, w') ->
  exists c,
    w' = record_event (Call (CacheInvalidateItemContent itemID itemType) (err_of r))
           (set_cache c w).
Proof.
  unfold cache_InvalidateItemContent. intros H.
  apply cache_call_inv in H as (c & -> & _). eauto.
Qed.

Lemma cache_SetItemContent_inv itemID itemType v s w r w' :
  cache_SetItemContent E itemID itemType v s w = (r, w') ->
  exists c,
    w' = record_event (Call (CacheSetItemContent itemID itemType v s) (err_of r))
           (set_cache c w).
Proof.
  unfold cache_SetItemContent. intros H.
  apply cache_call_inv in H as (c & -> & _). eauto.
Qed.

Lemma cache_SetUser_inv u w r w' :
  cache_SetUser E u w = (r, w') ->
  exists c,
    w' = record_event (Call (CacheSetUser u) (err_of r)) (set_cache c w) /\
    (c = cache w \/ c_users c = <[User_ID u := json_User u]> (c_users (cache w))).
Proof.
  unfold cache_SetUser. intros H.
  apply cache_call_inv in H as (c & -> & [(? & -> & ->) | [(? & ? & -> & ->) | (? & ? & Hb)]]);
    eexists; (split; [reflexivity|]); eauto.
  simplify_eq. by right.
Qed.

(** *** Metadata store *)

Lemma db_GetPostMetaByID_inv postID w r w' :
  db_GetPostMetaByID E postID w = (r, w') ->
  w' = record_event (Call (DbGetPostMetaByID postID) (err_of r)) w /\
  match r with
  | Ok p => stored_meta (db w) postID ItemTypePost = Some (MetaPost p)
  | Err e => e = adapter_failure \/ (e = DbErrNotFound /\ posts (db w) !! postID = None)
  end.
Proof.
  unfold db_GetPostMetaByID, db_call, stored_meta. intros H.
  apply adapter_inv in H as [(Hf & -> & ->) | (Hf & wb & Hb & ->)]; [by eauto|].
  destruct (posts (db w) !! postID) eqn:Hp; simplify_eq; split; eauto.
Qed.

Lemma db_GetCodeFileMetaByID_inv fileID w r w' :
  db_GetCodeFileMetaByID E fileID w = (r, w') ->
  w' = record_event (Call (DbGetCodeFileMetaByID fileID) (err_of r)) w /\
  match r with
  | Ok f => stored_meta (db w) fileID ItemTypeCodeFile = Some (MetaCodeFile f)
  | Err e => e = adapter_failure \/ (e = DbErrNotFound /\ codefiles (db w) !! fileID = None)
  end.
Proof.
  unfold db_GetCodeFileMetaByID, db_call, stored_meta. intros H.
  apply adapter_inv in H as [(Hf & -> & ->) | (Hf & wb & Hb & ->)]; [by eauto|].
  destruct (codefiles (db w) !! fileID) eqn:Hp; simplify_eq; split; eauto.
Qed.

Lemma db_UpdatePostMeta_inv post w r w' :
  db_UpdatePostMeta E post w = (r, w') ->
  match r with
  | Ok _ =>
      exists q, posts (db w) !! Post_ID post = Some q /\
        Post_Version q = Post_Version post /\
        w' = record_event (Call (DbUpdatePostMeta post) None)
               (set_db (mkDB (users (db w))
                          (<[Post_ID post := updated_post q post (clock w)]> (posts (db w)))
                          (codefiles (db w)) (history (db w)))
                  (set_clock (clock w + 1) w))
  | Err e =>
      w' = record_event (Call (DbUpdatePostMeta post) (Some e)) w /\
      (e = adapter_failure \/
       (e = DbErrNotFound /\ posts (db w) !! Post_ID post = None) \/
       (e = DbErrVersionMismatch /\
        exists q, posts (db w) !! Post_ID post = Some q /\
                  Post_Version q <> Post_Version post))
  end.
Proof.
  unfold db_UpdatePostMeta, db_call. intros H.
  apply adapter_inv in H as [(Hf & -> & ->) | (Hf & wb & Hb & ->)]; [by eauto|].
  destruct (posts (db w) !! Post_ID post) as [q|] eqn:Hp.
  - destruct (Z.eqb_spec (Post_Version q) (Post_Version post)); wsimpl; simplify_eq.
    + exists q. done.
    + split; [done|]. right; right. eauto.
  - simplify_eq. eauto.
Qed.

Lemma db_UpdateCodeFileMeta_inv file w r w' :
  db_UpdateCodeFileMeta E file w = (r, w') ->
  match r with
  | Ok _ =>
      exists q, codefiles (db w) !! File_ID file = Some q /\
        File_Version q = File_Version file /\
        w' = record_event (Call (DbUpdateCodeFileMeta file) None)
               (set_db (mkDB (users (db w)) (posts (db w))
                          (<[File_ID file := updated_codefile q file (clock w)]>
                             (codefiles (db w)))
                          (history (db w)))
                  (set_clock (clock w + 1) w))
  | Err e =>
      w' = record_event (Call (DbUpdateCodeFileMeta file) (Some e)) w /\
      (e = adapter_failure \/
       (e = DbErrNotFound /\ codefiles (db w) !! File_ID file = None) \/
       (e = DbErrVersionMismatch /\
        exists q, codefiles (db w) !! File_ID file = Some q /\
                  File_Version q <> File_Version file))
  end.
Proof.
  unfold db_UpdateCodeFileMeta, db_call. intros H.
  apply adapter_inv in H as [(Hf & -> & ->) | (Hf & wb & Hb & ->)]; [by eauto|].
  destruct (codefiles (db w) !! File_ID file) as [q|] eqn:Hp.
  - destruct (Z.eqb_spec (File_Version q) (File_Version file)); wsimpl; simplify_eq.
    + exists q. done.
    + split; [done|]. right; right. eauto.
  - simplify_eq. eauto.
Qed.

Lemma db_LogAction_inv l w r w' :
  db_LogAction E l w = (r, w') ->
  (r = Err adapter_failure /\
   w' = record_event (Call (DbLogAction l) (Some adapter_failure)) w) \/
  (exists ts t,
      r = Ok (new_log_id (db w)) /\
      w' = record_event (Call (DbLogAction l) None)
             (appended l (new_log_id (db w)) ts t w) /\
      (Timestamp l <> 0 -> ts = Timestamp l)).
Proof.
  unfold db_LogAction, db_call, appended. intros H.
  apply adapter_inv in H as [(Hf & -> & ->) | (Hf & wb & Hb & ->)]; [by eauto|].
  right. destruct (Z.eqb_spec (Timestamp l) 0); wsimpl; simplify_eq.
  - exists (clock w), (clock w + 1). done.
  - exists (Timestamp l), (clock w). split; [done|]. split; [|done].
    by destruct w.
Qed.

Lemma db_GetHistoryLogByID_inv logID w r w' :
  db_GetHistoryLogByID E logID w = (r, w') ->
  w' = record_event (Call (DbGetHistoryLogByID logID) (err_of r)) w /\
  match r with
  | Ok l => l ∈ history (db w) /\ Log_ID l = logID
  | Err e => e = adapter_failure \/ e = DbErrNotFound
  end.
Proof.
  unfold db_GetHistoryLogByID, db_call. intros H.
  apply adapter_inv in H as [(Hf & -> & ->) | (Hf & wb & Hb & ->)]; [by eauto|].
  destruct (find _ _) as [l|] eqn:Hfind; simplify_eq; (split; [done|]); [|by eauto].
  apply find_some in Hfind as [Hin Heq].
  split; [by apply list_elem_of_In | by apply String.eqb_eq].
Qed.

(** *** Blob store *)

Lemma storage_UploadFile_inv key body contentType w r w' :
  storage_UploadFile E key body contentType w = (r, w') ->
  match r with
  | Ok _ => w' = record_event (Call (StorageUploadFile key body contentType) None)
                   (set_blobs (<[key := body]> (blobs w)) w)
  | Err e => w' = record_event (Call (StorageUploadFile key body contentType) (Some e)) w
  end.
Proof.
  unfold storage_UploadFile. intros H.
  apply adapter_inv in H as [(Hf & -> & ->) | (Hf & wb & Hb & ->)]; [done|].
  by simplify_eq.
Qed.

Lemma storage_DownloadFile_inv key w r w' :
  storage_DownloadFile E key w = (r, w') ->
  w' = record_event (Call (StorageDownloadFile key) (err_of r)) w /\
  match r with
  | Ok s => blobs w !! key = Some s
  | Err _ => True
  end.
Proof.
  unfold storage_DownloadFile. intros H.
  apply adapter_inv in H as [(Hf & -> & ->) | (Hf & wb & Hb & ->)]; [done|].
  destruct (blobs w !! key) eqn:Hk; by simplify_eq.
Qed.

Lemma io_ReadAll_inv key reader w r w' :
  io_ReadAll E key reader w = (r, w') ->
  w' = record_event (Call (IoReadAll key) (err_of r)) w /\
  match r with
  | Ok s => s = reader
  | Err _ => True
  end.
Proof.
  unfold io_ReadAll. intros H.
  apply adapter_inv in H as [(Hf & -> & ->) | (Hf & wb & Hb & ->)]; [done|].
  by simplify_eq.
Qed.

End AdapterFacts.

(** * The service functions *)

Lemma IsValid_cases ty :
  IsValid ty = true -> ty = ItemTypePost \/ ty = ItemTypeCodeFile.
Proof.
  unfold IsValid. intros H.
  destruct (String.eqb_spec ty ItemTypePost); [by left|].
  destruct (String.eqb_spec ty ItemTypeCodeFile); [by right|done].
Qed.

Lemma IsValid_neither ty :
  String.eqb ty ItemTypePost = false -> String.eqb ty ItemTypeCodeFile = false ->
  IsValid ty = false.
Proof. unfold IsValid. by intros -> ->. Qed.

(** Unfolds the control operators and splits a function body into its paths. *)
Ltac paths :=
  unfold func, bind, call, Return, ret in *;
  repeat (case_match; simplify_eq).

(** Closes the path of a [switch itemType] that a valid item type never takes. *)
Ltac not_a_type :=
  match goal with
  | Hv : negb (IsValid ?ty) = false,
    Hp : String.eqb ?ty ItemTypePost = false,
    Hc : String.eqb ?ty ItemTypeCodeFile = false |- _ =>
      rewrite (IsValid_neither ty Hp Hc) in Hv; discriminate Hv
  | Hv : IsValid ?ty = true,
    Hp : String.eqb ?ty ItemTypePost = false,
    Hc : String.eqb ?ty ItemTypeCodeFile = false |- _ =>
      rewrite (IsValid_neither ty Hp Hc) in Hv; discriminate Hv
  end.

Ltac eqb_facts :=
  repeat match goal with
    | H : negb _ = false |- _ => apply negb_false_iff in H
    | H : negb _ = true |- _ => apply negb_true_iff in H
    | H : Z.eqb _ _ = true |- _ => apply Z.eqb_eq in H
    | H : Z.eqb _ _ = false |- _ => apply Z.eqb_neq in H
    | H : String.eqb _ _ = true |- _ => apply String.eqb_eq in H
    end.

(** Replaces the world after each adapter call by its description. *)
Ltac inv_op H :=
  first
    [ apply cache_GetItemMeta_inv in H as [-> ?]
    | apply cache_GetItemContent_inv in H as ->
    | apply cache_GetUser_inv in H as ->
    | apply cache_SetItemMeta_inv in H as (? & -> & ? & ?)
    | apply cache_DeleteItemMeta_inv in H as (? & ->)
    | apply cache_InvalidateItemContent_inv in H as (? & ->)
    | apply cache_SetItemContent_inv in H as (? & ->)
    | apply cache_SetUser_inv in H as (? & -> & ?)
    | apply db_GetPostMetaByID_inv in H as [-> ?]
    | apply db_GetCodeFileMetaByID_inv in H as [-> ?]
    | apply db_GetHistoryLogByID_inv in H as [-> ?]
    | apply storage_DownloadFile_inv in H as [-> ?]
    | apply io_ReadAll_inv in H as [-> ?] ].

Ltac inv_ops :=
  repeat match goal with
    | H : _ = (_, _) |- _ => inv_op H
    end.

Lemma events_of_refl w : events_of w w [].
Proof. unfold events_of. by rewrite app_nil_r. Qed.

Lemma events_of_trans w1 w2 w3 evs1 evs2 :
  events_of w1 w2 evs1 -> events_of w2 w3 evs2 -> events_of w1 w3 (evs1 ++ evs2).
Proof. unfold events_of. intros H1 H2. by rewrite H2, H1, app_assoc. Qed.

Lemma events_of_inj w w' evs1 evs2 :
  events_of w w' evs1 -> events_of w w' evs2 -> evs1 = evs2.
Proof. unfold events_of. intros H1 H2. rewrite H1 in H2. by apply app_inv_head in H2. Qed.

Lemma app_nil_same {A} (l evs : list A) : l ++ evs = l -> evs = [].
Proof.
  intros H. apply (app_inv_head l). by rewrite app_nil_r.
Qed.

Lemma with_cache_nil w : with_cache (cache w) [] w = w.
Proof. unfold with_cache. rewrite app_nil_r. by destruct w. Qed.

Lemma stores_kept_refl w : stores_kept w w.
Proof. by unfold stores_kept. Qed.

(** Solves a goal [events_of w w' ?evs] on a world given by its description. *)
Ltac trace_events :=
  unfold events_of; wsimpl; rewrite <- ?app_assoc; reflexivity.

(** *** Traces *)

Lemma updates_follow_upload_mono b b' evs :
  updates_follow_upload b evs = true -> updates_follow_upload (b || b') evs = true.
Proof.
  revert b. induction evs as [|ev rest IH]; intros b H; cbn in *; [done|].
  destruct (is_metadata_update (event_op ev)).
  - apply andb_true_iff in H as [-> H]. cbn. by apply (IH true).
  - rewrite <- orb_assoc, (orb_comm b'), orb_assoc. by apply IH.
Qed.

Lemma updates_follow_upload_none b evs :
  Forall (fun ev => is_metadata_update (event_op ev) = false) evs ->
  updates_follow_upload b evs = true.
Proof.
  intros H. revert b. induction H as [|ev rest Hev _ IH]; intros b; cbn; [done|].
  by rewrite Hev.
Qed.

Lemma updates_follow_upload_skip b evs1 evs2 :
  Forall (fun ev => is_metadata_update (event_op ev) = false) evs1 ->
  updates_follow_upload b evs2 = true ->
  updates_follow_upload b (evs1 ++ evs2) = true.
Proof.
  intros H. revert b. induction H as [|ev rest Hev _ IH]; intros b H2; cbn; [done|].
  rewrite Hev. apply IH. by apply updates_follow_upload_mono.
Qed.

Lemma updates_follow_upload_sound evs :
  updates_follow_upload false evs = true ->
  forall pre ev post,
    evs = pre ++ ev :: post ->
    is_metadata_update (event_op ev) = true ->
    Exists (fun up => is_upload_ok up = true) pre.
Proof.
  assert (G : forall evs b, updates_follow_upload b evs = true ->
            forall pre ev post, evs = pre ++ ev :: post ->
              is_metadata_update (event_op ev) = true ->
              b = true \/ Exists (fun up => is_upload_ok up = true) pre).
  { clear evs. induction evs as [|e rest IH]; intros b H pre ev post Heq Hup.
    - by destruct pre.
    - destruct pre as [|p pre']; cbn in Heq; simplify_eq.
      + cbn in H. rewrite Hup in H. apply andb_true_iff in H as [-> _]. by left.
      + cbn in H. destruct (is_metadata_update (event_op p)).
        * apply andb_true_iff in H as [-> _]. by left.
        * destruct (IH _ H pre' ev post eq_refl Hup) as [Hb | Hex].
          -- apply orb_true_iff in Hb as [-> | Hp]; [by left|].
             right. by apply Exists_cons_hd.
          -- right. by apply Exists_cons_tl. }
  intros H pre ev post Heq Hup.
  by destruct (G evs false H pre ev post Heq Hup).
Qed.

Lemma load_event_not_update itemID itemType ev :
  load_event itemID itemType ev = true -> is_metadata_update (event_op ev) = false.
Proof. destruct ev as [[] ?]; by cbn. Qed.

Lemma read_not_update ev :
  is_read (event_op ev) = true -> is_metadata_update (event_op ev) = false.
Proof. destruct ev as [[] ?]; by cbn. Qed.

Lemma append_not_update a ev :
  is_append_of a (event_op ev) = true -> is_metadata_update (event_op ev) = false.
Proof. destruct ev as [[] ?]; by cbn. Qed.

Lemma load_event_alone itemID itemType ev :
  load_event itemID itemType ev = true -> leaves_stores_alone itemID itemType ev.
Proof.
  unfold load_event, leaves_stores_alone.
  destruct ev as [[] ?]; cbn; intros H; repeat split; try done.
Qed.

Lemma read_alone itemID itemType ev :
  is_read (event_op ev) = true -> leaves_stores_alone itemID itemType ev.
Proof.
  unfold leaves_stores_alone.
  destruct ev as [[] ?]; cbn; intros H; repeat split; try done.
Qed.

(** Proves that a trace made of described segments holds no metadata update. *)
Ltac no_updates :=
  repeat first
    [ apply Forall_nil_2
    | apply Forall_cons_2; [reflexivity|]
    | apply Forall_app_2
    | (eapply Forall_impl; [eassumption|];
       let x := fresh in let Hx := fresh in
       intros x Hx; cbv beta in Hx;
       first [ eapply load_event_not_update; eassumption
             | apply read_not_update; assumption
             | eapply append_not_update; eassumption ]) ].

(** Checks the order of upload and metadata update on a described trace. *)
Ltac follow :=
  repeat first
    [ apply updates_follow_upload_none; solve [no_updates]
    | progress cbn [app updates_follow_upload event_op event_outcome
                    is_metadata_update is_upload_ok is_upload orb andb]
    | apply updates_follow_upload_skip; [solve [no_updates]|]
    | reflexivity ].

(** Proves that the events of a described trace leave the stores alone. *)
Ltac all_alone :=
  repeat first
    [ apply Forall_nil_2
    | apply Forall_app_2
    | (eapply Forall_impl; [eassumption|];
       let x := fresh in let Hx := fresh in
       intros x Hx; cbv beta in Hx;
       first [ eapply load_event_alone; eassumption
             | apply read_alone; assumption ])
    | apply Forall_cons_2; [by repeat split|] ].

(** Closes a case in which an event that is a metadata update is said to lie
    in a segment of the trace that holds none. *)
Ltac not_in_segment :=
  match goal with
  | Hin : ?ev ∈ ?l, HF : Forall _ ?l,
    Hup : is_metadata_update (event_op ?ev) = true |- _ =>
      rewrite Forall_forall in HF; specialize (HF _ Hin); cbv beta in HF;
      first [ apply load_event_not_update in HF
            | apply read_not_update in HF
            | apply (append_not_update _ _) in HF ];
      congruence
  end.

(** Finds the metadata update among the events of a described trace. *)
Ltac find_update Hin :=
  repeat match type of Hin with
    | _ ∈ _ ++ _ => apply elem_of_app in Hin as [Hin | Hin]
    | _ ∈ _ :: _ => apply elem_of_cons in Hin as [Hin | Hin]
    | _ ∈ [] => by apply elem_of_nil in Hin
    end;
  try not_in_segment.





Lemma stored_meta_id d itemID itemType m :
  stored_meta d itemID itemType = Some m -> meta_id m = itemID.
Proof.
  unfold stored_meta. intros H. repeat case_match; by simplify_option_eq.
Qed.



(** Proves that the events of a described trace are reads or fills of the
    metadata cache. *)
Ltac reads_only :=
  repeat first
    [ apply Forall_nil_2
    | apply Forall_cons_2; [by left|]
    | apply Forall_app_2
    | (eapply Forall_impl; [eassumption|];
       intros [[] ?]; cbn; intros ?; first [done | by left | by right]) ].

Section ServiceFacts.

Variable E : Env.

(** The result of [ApplyItemChanges] on its one successful path. *)
Lemma ApplyItemChanges_success userID itemID itemTypeStr baseVersion changes w v cs w' :
  ApplyItemChanges E userID itemID itemTypeStr baseVersion changes w
    = ((v, cs, None), w') ->
  v = GoInt.add baseVersion 1 /\ cs = changes.
Proof.
  unfold ApplyItemChanges. intros H. paths; try not_a_type; eqb_facts; by subst.
Qed.

(** The metadata load: it leaves every store but the item-metadata cache as it
    was, it only reads and fills that cache, and a record it returns is the
    cached one or else the stored one. *)
Lemma getItemMetaWithCache_inv itemID itemType w r w' :
  getItemMetaWithCache E itemID itemType w = (r, w') ->
  stores_kept w w' /\
  (exists evs, events_of w w' evs /\
               Forall (fun ev => load_event itemID itemType ev = true) evs) /\
  match r with
  | Ok m =>
      (cached_meta (cache w) itemID itemType = Some m /\ cache w' = cache w) \/
      (stored_meta (db w) itemID itemType = Some m)
  | Err e => cache w' = cache w
  end.
Proof.
  unfold getItemMetaWithCache. intros H. paths; inv_ops; wsimpl.
  all: split; [done|].
  all: split; [eexists; split; [trace_events|];
               repeat constructor; unfold load_event; cbn;
               by rewrite ?String.eqb_refl|].
  all: try done.
  all: try (left; naive_solver).
  all: right; eqb_facts; by subst.
Qed.


(** The record the load returns has the dynamic type its item type names, so
    the type assertions of the callers never fail. *)
Lemma getItemMetaWithCache_typed itemID itemType w m w' :
  getItemMetaWithCache E itemID itemType w = (Ok m, w') ->
  (itemType = ItemTypePost /\ exists p, m = MetaPost p) \/
  (itemType = ItemTypeCodeFile /\ exists f, m = MetaCodeFile f).
Proof.
  unfold getItemMetaWithCache. intros H. paths; eqb_facts; subst; try by eauto.
  all: match goal with
       | H : cache_GetItemMeta _ _ _ _ = (Ok _, _) |- _ =>
           apply cache_GetItemMeta_inv in H as [_ [_ Hc]]; unfold cached_meta in Hc
       end.
  all: repeat case_match; eqb_facts; subst; simplify_option_eq; eauto.
Qed.

Lemma codefile_is_not_post : String.eqb ItemTypeCodeFile ItemTypePost = false.
Proof. reflexivity. Qed.

(** Runs the first [switch itemType] of a coordinator operation on a loaded
    record whose owner is not the caller. *)
Ltac run_denied Hv Hload Hown :=
  rewrite Hv; cbn [negb]; rewrite Hload;
  destruct (getItemMetaWithCache_typed _ _ _ _ _ Hload) as [[-> [p ->]] | [-> [f ->]]];
  cbn [meta_owner] in Hown; apply String.eqb_neq in Hown;
  rewrite ?codefile_is_not_post, ?String.eqb_refl, ?Hown; reflexivity.

Lemma GetItemContent_denied userID itemID itemTypeStr w meta w1 :
  IsValid itemTypeStr = true ->
  getItemMetaWithCache E itemID itemTypeStr w = (Ok meta, w1) ->
  meta_owner meta <> userID ->
  GetItemContent E userID itemID itemTypeStr w = (("", 0, Some ErrPermissionDenied), w1).
Proof.
  intros Hv Hload Hown. unfold GetItemContent, func, bind, call, Return, ret.
  run_denied Hv Hload Hown.
Qed.

Lemma ApplyItemChanges_denied userID itemID itemTypeStr baseVersion changes w meta w1 :
  IsValid itemTypeStr = true ->
  getItemMetaWithCache E itemID itemTypeStr w = (Ok meta, w1) ->
  meta_owner meta <> userID ->
  ApplyItemChanges E userID itemID itemTypeStr baseVersion changes w
  = ((0, [], Some ErrPermissionDenied), w1).
Proof.
  intros Hv Hload Hown. unfold ApplyItemChanges, func, bind, call, Return, ret.
  run_denied Hv Hload Hown.
Qed.

Lemma DeleteItem_denied userID itemID itemTypeStr w meta w1 :
  IsValid itemTypeStr = true ->
  getItemMetaWithCache E itemID itemTypeStr w = (Ok meta, w1) ->
  meta_owner meta <> userID ->
  DeleteItem E userID itemID itemTypeStr w = (Some ErrPermissionDenied, w1).
Proof.
  intros Hv Hload Hown. unfold DeleteItem, func, bind, call, Return, ret.
  run_denied Hv Hload Hown.
Qed.

Lemma GetHistory_denied userID itemID itemTypeStr limit w meta w1 :
  IsValid itemTypeStr = true ->
  getItemMetaWithCache E itemID itemTypeStr w = (Ok meta, w1) ->
  meta_owner meta <> userID ->
  GetHistory E userID itemID itemTypeStr limit w = (([], Some ErrPermissionDenied), w1).
Proof.
  intros Hv Hload Hown. unfold GetHistory, func, bind, call, Return, ret.
  run_denied Hv Hload Hown.
Qed.

Lemma RevertToAction_denied userID targetLogID w0 targetLog w meta w1 :
  db_GetHistoryLogByID E targetLogID w0 = (Ok targetLog, w) ->
  restore_point targetLog ->
  IsValid (Log_ItemType targetLog) = true ->
  getItemMetaWithCache E (Log_ItemID targetLog) (Log_ItemType targetLog) w = (Ok meta, w1) ->
  meta_owner meta <> userID ->
  RevertToAction E userID targetLogID w0 = ((0, Some ErrPermissionDenied), w1).
Proof.
  intros Hlog [Hact Hpath] Hv Hload Hown.
  unfold RevertToAction, func, bind, call, Return, ret. rewrite Hlog.
  assert (negb (bool_decide (Action targetLog = ActionCreate))
          && negb (bool_decide (Action targetLog = ActionSnapshot)) = false) as ->.
  { destruct Hact as [-> | ->]; reflexivity. }
  apply String.eqb_neq in Hpath. rewrite Hpath.
  destruct (Log_ItemType targetLog) eqn:Hty; rewrite <- ?Hty in *; clear Hty.
  all: run_denied Hv Hload Hown.
Qed.

Lemma getItemMetaWithCache_form itemID itemType w r w' :
  getItemMetaWithCache E itemID itemType w = (r, w') ->
  exists c evs,
    w' = with_cache c evs w /\
    c_users c = c_users (cache w) /\ c_content c = c_content (cache w) /\
    Forall (fun ev => load_event itemID itemType ev = true) evs /\
    match r with
    | Ok m =>
        (cacheEnabled E = true /\ cached_meta (cache w) itemID itemType = Some m /\
         c = cache w) \/
        (stored_meta (db w) itemID itemType = Some m)
    | Err e =>
        c = cache w /\
        (e = ErrItemNotFound \/ e = ErrInvalidItemType \/
         exists msg e0, e = Errorf msg e0)
    end.
Proof.
  unfold getItemMetaWithCache. intros H. paths; inv_ops; wsimpl.
  all: eexists _, _; split;
    [unfold with_cache; wsimpl; rewrite <- ?app_assoc; reflexivity|].
  all: wsimpl; split; [done|]; split; [done|].
  all: split; [repeat constructor; unfold load_event; cbn;
               by rewrite ?String.eqb_refl|].
  all: try (split; [done|]; unfold mapDBError; case_match; by eauto).
  all: try (left; naive_solver).
  all: try (right; eqb_facts; by subst).
  split; [done|]. by eauto.
Qed.

Lemma getItemContentFromSource_form itemID itemType version s3Path w r w' :
  getItemContentFromSource E itemID itemType version s3Path w = (r, w') ->
  exists evs,
    w' = with_cache (cache w) evs w /\
    Forall (fun ev => is_read (event_op ev) = true) evs.
Proof.
  unfold getItemContentFromSource. intros H. paths; inv_ops; wsimpl.
  all: eexists; split;
    [unfold with_cache; wsimpl; rewrite <- ?app_assoc; reflexivity|].
  all: by repeat constructor.
Qed.

Lemma getItemVersion_form itemID itemType w r w' :
  getItemVersion E itemID itemType w = (r, w') ->
  exists evs,
    w' = with_cache (cache w) evs w /\
    Forall (fun ev => is_read (event_op ev) = true) evs /\
    match r with
    | Ok v => exists m, stored_meta (db w) itemID itemType = Some m /\ meta_version m = v
    | Err _ => True
    end.
Proof.
  unfold getItemVersion. intros H. paths; inv_ops.
  all: try (exists []; split; [symmetry; apply with_cache_nil | by split]).
  all: eexists; split;
    [unfold with_cache; wsimpl; rewrite <- ?app_assoc; reflexivity|].
  all: split; [by repeat constructor|].
  all: try done.
  all: eqb_facts; subst; eauto.
Qed.

(** The patch entries: one append per change, each of a patch entry tagged
    with the new version; only the history and the clock can change. *)
Lemma logPatches_form userID itemID itemTypeStr now v changes w u w' :
  logPatches E userID itemID itemTypeStr now v changes w = (u, w') ->
  exists h t evs,
    w' = with_history h t evs w /\
    Forall (fun l => Action l = ActionPatch /\ ItemVersion l = v) h /\
    Forall (fun ev => is_append_of ActionPatch (event_op ev) = true) evs /\
    length evs = length changes.
Proof.
  revert w u w'. induction changes as [|c rest IH]; intros w u w' H; cbn in H.
  - simplify_eq. exists [], (clock w'), []. unfold with_history.
    rewrite !app_nil_r. by destruct w' as [[] ?].
  - paths.
    match goal with H : logPatches _ _ _ _ _ _ _ _ = _ |- _ =>
      apply IH in H as (h & t & evs & -> & Hh & Hevs & Hlen) end.
    match goal with H : db_LogAction _ _ _ = _ |- _ =>
      apply db_LogAction_inv in H as [[-> ->] | (ts & t0 & -> & -> & _)] end.
    + exists h, t, (Call (DbLogAction (mkHistoryLog "" userID itemID itemTypeStr
                          ActionPatch now (Some c) "" "" v None))
                      (Some adapter_failure) :: evs).
      split; [unfold with_history; wsimpl; by rewrite <- app_assoc|].
      split; [done|]. split; [by constructor|]. cbn. by rewrite Hlen.
    + eexists (_ :: h), t, (_ :: evs).
      split; [unfold with_history; wsimpl; rewrite <- !app_assoc; reflexivity|].
      split; [by constructor|]. split; [by constructor|]. cbn. by rewrite Hlen.
Qed.

(** [handleSnapshotting], case by case. *)
Lemma handleSnapshotting_form userID itemID itemType itemTypeStr v path n w u w' :
  handleSnapshotting E userID itemID itemType itemTypeStr v path n w = (u, w') ->
  let key := counterKey itemType itemID in
  let count := GoInt.add (default 0 (changeCounters w !! key)) n in
  let snap := mkHistoryLog "" userID itemID itemTypeStr ActionSnapshot (clock w) None
                "" path v None in
  (IntervalChanges E <= 0 /\ w' = w) \/
  (0 < IntervalChanges E /\ count < IntervalChanges E /\
   w' = set_changeCounters (<[key := count]> (changeCounters w)) w) \/
  (0 < IntervalChanges E /\ IntervalChanges E <= count /\
   exists h t outcome,
     w' = set_changeCounters (<[key := 0]> (changeCounters w))
            (with_history h t [Call (DbLogAction snap) outcome] w) /\
     ((outcome = Some adapter_failure /\ h = []) \/
      (outcome = None /\ exists id ts, h = [stamp_log id ts snap]))).
Proof.
  unfold handleSnapshotting, func, bind, call, Return, ret. intros H. cbv zeta.
  destruct (Z.leb_spec (IntervalChanges E) 0) as [Hle|Hlt]; [left; by simplify_eq|].
  right. rewrite Z.geb_leb in H.
  destruct (Z.leb_spec (IntervalChanges E)
              (GoInt.add (default 0 (changeCounters w !! counterKey itemType itemID)) n))
    as [Hge|Hlt'].
  - right. split; [done|]. split; [done|].
    cbn [time_Now set_changeCounters changeCounters set_clock clock] in H.
    destruct (db_LogAction E _ _) as [r w1] eqn:Hlog. simplify_eq.
    apply db_LogAction_inv in Hlog as [[-> ->] | (ts & t0 & -> & -> & _)].
    + exists [], (clock w + 1), (Some adapter_failure). split; [|by left].
      wsimpl. rewrite app_nil_r, insert_insert_eq. by destruct w as [[] ?].
    + eexists [_], t0, None. split; [|right; split; [done|]; eauto].
      wsimpl. by rewrite insert_insert_eq.
  - left. by simplify_eq.
Qed.

(** [handleSnapshotting] changes only the counters, the history and the
    clock, and its events are appends of snapshot entries. *)
Lemma handleSnapshotting_frame userID itemID itemType itemTypeStr v path n w u w' :
  handleSnapshotting E userID itemID itemType itemTypeStr v path n w = (u, w') ->
  exists cs h t evs,
    w' = set_changeCounters cs (with_history h t evs w) /\
    Forall (fun ev => is_append_of ActionSnapshot (event_op ev) = true) evs.
Proof.
  intros H. apply handleSnapshotting_form in H.
  destruct H as [[_ ->] | [(_ & _ & ->) | (_ & _ & h & t & o & -> & _)]].
  - exists (changeCounters w), [], (clock w), []. split; [|done].
    wsimpl. rewrite !app_nil_r. by destruct w as [[] ?].
  - eexists _, [], (clock w), []. split; [|done].
    wsimpl. rewrite !app_nil_r. by destruct w as [[] ?].
  - eexists _, h, t, [_]. split; [reflexivity|]. by repeat constructor.
Qed.

End ServiceFacts.

(** Replaces the world after each call of a service function or of a store
    write by its description. *)
Ltac inv_call H :=
  first
    [ apply getItemMetaWithCache_form in H as (? & ? & -> & ? & ? & ? & ?);
      repeat match goal with
        | Hl : _ = cache _ /\ _ |- _ => destruct Hl as [-> Hl]
        end
    | apply getItemContentFromSource_form in H as (? & -> & ?)
    | apply getItemVersion_form in H as (? & -> & ? & ?)
    | apply logPatches_form in H as (? & ? & ? & -> & ? & ? & ?)
    | apply handleSnapshotting_frame in H as (? & ? & ? & ? & -> & ?)
    | apply storage_UploadFile_inv in H; cbn beta iota in H; subst
    | apply db_UpdatePostMeta_inv in H; cbn beta iota in H;
      first [ destruct H as (? & ? & ? & ->) | destruct H as (-> & ?) ]
    | apply db_UpdateCodeFileMeta_inv in H; cbn beta iota in H;
      first [ destruct H as (? & ? & ? & ->) | destruct H as (-> & ?) ]
    | apply db_LogAction_inv in H as [[-> ->] | (? & ? & -> & -> & ?)]
    | inv_op H ].

Ltac inv_calls :=
  repeat (match goal with
          | H : time_Now _ = (_, _) |- _ => unfold time_Now in H; simplify_eq
          | H : _ = (_, _) |- _ => inv_call H
          end; wsimpl).

(** Turns [events_of w w' evs], for a described [w'], into the list. *)
Ltac get_events H :=
  unfold events_of in H; wsimpl; rewrite <- ?app_assoc in H;
  first [ apply app_inv_head in H | symmetry in H; apply app_nil_same in H ];
  subst.

(** * The claims *)

(** C1. A successful [ApplyItemChanges] returns the base version plus one (in
    Go's [int] arithmetic, which is the mathematical sum whenever the base
    version is below the largest [int]) and the very list of changes it was
    given. *)
Theorem C1_apply_returns_next_version_and_changes
    (E : Env) (userID itemID itemTypeStr : string) (baseVersion : Z)
    (changes : list Change) (w w' : World) (newVersion : Z)
    (appliedChanges : list Change) :
  ApplyItemChanges E userID itemID itemTypeStr baseVersion changes w
    = ((newVersion, appliedChanges, None), w') ->
  newVersion = GoInt.add baseVersion 1 /\
  appliedChanges = changes /\
  (GoInt.in_range baseVersion -> baseVersion < GoInt.max_int ->
   newVersion = baseVersion + 1).
Proof.
  intros H. apply ApplyItemChanges_success in H as [-> ->].
  repeat split. intros. by apply GoIntFacts.add_succ.
Qed.

Lemma C1_witness :
  2 = GoInt.add 1 1 /\
  [Sample.insert_d] = [Sample.insert_d] /\
  (GoInt.in_range 1 -> 1 < GoInt.max_int -> 2 = 1 + 1).
Proof.
  apply (C1_apply_returns_next_version_and_changes Sample.env0 "alice" "p1" "post" 1
           [Sample.insert_d] Sample.w0
           (snd (ApplyItemChanges Sample.env0 "alice" "p1" "post" 1
                   [Sample.insert_d] Sample.w0))).
  vm_compute. reflexivity.
Defined.






(** C6 (as the code has it). [RevertToAction] returns an error when the target
    entry cannot be fetched, when its action is neither create nor snapshot,
    and when the requester does not own the item of the entry.  Up to that
    point it has written to no durable store and to no content cache: the
    metadata store, the history, the blobs, the counters and the content and
    user caches are as before, and its calls are reads, apart from the fill
    of the item's metadata cache entry that the ownership lookup does after
    a cache miss.  In the first two cases the cache is untouched as well. *)
Theorem C6_revert_is_rejected_before_any_durable_write
    (E : Env) (userID targetLogID : string) (w w' : World) (v : Z)
    (err : option error) (evs : list Event) :
  RevertToAction E userID targetLogID w = ((v, err), w') ->
  events_of w w' evs ->
  must_reject E userID targetLogID w ->
  err <> None /\ v = 0 /\
  stores_kept w w' /\
  Forall (fun ev => is_read (event_op ev) = true \/
                    is_any_meta_fill (event_op ev) = true) evs /\
  (err = Some ErrPermissionDenied \/ cache w' = cache w).
Proof.
  unfold RevertToAction, must_reject. intros H Hev Hrej.
  destruct (db_GetHistoryLogByID E targetLogID w) as [lg w1] eqn:Hlog.
  unfold func, bind, call, Return, ret in H. rewrite Hlog in H.
  apply db_GetHistoryLogByID_inv in Hlog as [-> _].
  destruct lg as [targetLog|e].
  - (* the entry was fetched *)
    destruct (negb (IsValid (Log_ItemType targetLog))) eqn:Hv.
    { simplify_eq. get_events Hev. repeat split; try done; [reads_only | by right]. }
    destruct (negb (bool_decide (Action targetLog = ActionCreate))
              && negb (bool_decide (Action targetLog = ActionSnapshot))) eqn:Hact.
    { simplify_eq. get_events Hev. repeat split; try done; [reads_only | by right]. }
    destruct (String.eqb (S3PathAfter targetLog) "") eqn:Hpath.
    { simplify_eq. get_events Hev. repeat split; try done; [reads_only | by right]. }
    destruct Hrej as [[Hc Hs] | (meta & w2 & Hload & Hown)].
    { apply andb_false_iff in Hact as [Hact | Hact];
        apply negb_false_iff, bool_decide_eq_true in Hact; done. }
    rewrite Hload in H. apply negb_false_iff in Hv.
    destruct (getItemMetaWithCache_typed _ _ _ _ _ _ Hload) as [[Hty [p ->]] | [Hty [f ->]]];
      rewrite Hty in H; cbn [meta_owner] in Hown; apply String.eqb_neq in Hown;
      rewrite ?codefile_is_not_post, ?String.eqb_refl, ?Hown in H;
      cbn [negb] in H; simplify_eq.
    all: inv_calls; get_events Hev.
    all: repeat split; try done; [reads_only | by left].
  - (* the entry could not be fetched *)
    destruct (errors_Is e DbErrNotFound); simplify_eq; get_events Hev.
    all: repeat split; try done; [reads_only | by right].
Qed.

Lemma C6_witness :
  Some ErrPermissionDenied <> None /\ 0 = 0 /\
  stores_kept Sample.w0 (snd (RevertToAction Sample.env0 "bob" "log-0" Sample.w0)) /\
  Forall (fun ev => is_read (event_op ev) = true \/
                    is_any_meta_fill (event_op ev) = true)
    (trace (snd (RevertToAction Sample.env0 "bob" "log-0" Sample.w0))) /\
  (Some ErrPermissionDenied = Some ErrPermissionDenied \/
   cache (snd (RevertToAction Sample.env0 "bob" "log-0" Sample.w0))
   = cache Sample.w0).
Proof.
  apply (C6_revert_is_rejected_before_any_durable_write Sample.env0 "bob" "log-0"
           Sample.w0 (snd (RevertToAction Sample.env0 "bob" "log-0" Sample.w0))
           0 (Some ErrPermissionDenied)).
  - vm_compute. reflexivity.
  - vm_compute. reflexivity.
  - unfold must_reject.
    assert (Hlog : db_GetHistoryLogByID Sample.env0 "log-0" Sample.w0
                   = (Ok Sample.create_log, Sample.w_log_fetched))
      by (vm_compute; reflexivity).
    rewrite Hlog. right. exists (MetaPost Sample.post1), Sample.w_loaded.
    split; [vm_compute; reflexivity | vm_compute; discriminate].
Defined.

(** C6 as stated fails: Bob's revert of Alice's post is rejected, but not
    before a write: the ownership lookup has missed the cache, read the store
    and written the record to the metadata cache. *)
Lemma C6_counterexample :
  fst (RevertToAction Sample.env0 "bob" "log-0" Sample.w0)
    = (0, Some ErrPermissionDenied) /\
  c_posts (cache Sample.w0) !! "p1" = None /\
  c_posts (cache (snd (RevertToAction Sample.env0 "bob" "log-0" Sample.w0))) !! "p1"
    = Some (json_Post Sample.post1) /\
  trace (snd (RevertToAction Sample.env0 "bob" "log-0" Sample.w0))
    = [Call (DbGetHistoryLogByID "log-0") None;
       Call (CacheGetItemMeta "p1" "post") (Some CacheErrNotFound);
       Call (DbGetPostMetaByID "p1") None;
       Call (CacheSetItemMeta "p1" "post" (MetaPost Sample.post1)) None].
Proof. vm_compute. repeat split; reflexivity. Qed.




(** C8 (as the code has it). When the record that the metadata lookup
    returns for an item names another owner, [GetItemContent],
    [ApplyItemChanges], [DeleteItem] and [GetHistory] return
    [ErrPermissionDenied], and so does [RevertToAction] when its target is a
    restore point of that item.  By then the operation has done the lookup:
    it has read the cache and possibly the store and, after a cache miss, has
    filled the metadata cache entry.  Nothing else is touched: the metadata
    store, the history, the blobs, the content and user caches and the
    counters are as before. *)
Theorem C8_non_owner_is_denied_after_the_lookup
    (E : Env) (userID itemID itemTypeStr : string) (w w1 : World) (meta : Meta) :
  IsValid itemTypeStr = true ->
  getItemMetaWithCache E itemID itemTypeStr w = (Ok meta, w1) ->
  meta_owner meta <> userID ->
  GetItemContent E userID itemID itemTypeStr w
    = (("", 0, Some ErrPermissionDenied), w1) /\
  (forall baseVersion changes,
      ApplyItemChanges E userID itemID itemTypeStr baseVersion changes w
      = ((0, [], Some ErrPermissionDenied), w1)) /\
  DeleteItem E userID itemID itemTypeStr w = (Some ErrPermissionDenied, w1) /\
  (forall limit,
      GetHistory E userID itemID itemTypeStr limit w
      = (([], Some ErrPermissionDenied), w1)) /\
  (forall targetLogID w0 targetLog,
      db_GetHistoryLogByID E targetLogID w0 = (Ok targetLog, w) ->
      Log_ItemID targetLog = itemID -> Log_ItemType targetLog = itemTypeStr ->
      restore_point targetLog ->
      RevertToAction E userID targetLogID w0 = ((0, Some ErrPermissionDenied), w1) /\
      w = record_event (Call (DbGetHistoryLogByID targetLogID) None) w0) /\
  stores_kept w w1 /\
  exists evs, events_of w w1 evs /\
              Forall (fun ev => load_event itemID itemTypeStr ev = true) evs.
Proof.
  intros Hv Hload Hown.
  split; [by eapply GetItemContent_denied|].
  split; [intros; by eapply ApplyItemChanges_denied|].
  split; [by eapply DeleteItem_denied|].
  split; [intros; by eapply GetHistory_denied|].
  split.
  { intros logID w0 lg Hlog <- <- Hrp. split.
    - by eapply RevertToAction_denied.
    - by apply db_GetHistoryLogByID_inv in Hlog as [-> _]. }
  by apply getItemMetaWithCache_inv in Hload as (? & ? & _).
Qed.

Lemma C8_witness :
  DeleteItem Sample.env0 "bob" "p1" "post" Sample.w_log_fetched
    = (Some ErrPermissionDenied, Sample.w_loaded) /\
  RevertToAction Sample.env0 "bob" "log-0" Sample.w0
    = ((0, Some ErrPermissionDenied), Sample.w_loaded) /\
  stores_kept Sample.w_log_fetched Sample.w_loaded.
Proof.
  assert (Hv : IsValid "post" = true) by reflexivity.
  assert (Hload : getItemMetaWithCache Sample.env0 "p1" "post" Sample.w_log_fetched
                  = (Ok (MetaPost Sample.post1), Sample.w_loaded))
    by (vm_compute; reflexivity).
  assert (Hown : meta_owner (MetaPost Sample.post1) <> "bob") by (vm_compute; discriminate).
  destruct (C8_non_owner_is_denied_after_the_lookup Sample.env0 "bob" "p1" "post"
              Sample.w_log_fetched Sample.w_loaded (MetaPost Sample.post1) Hv Hload Hown)
    as (_ & _ & Hdel & _ & Hrev & Hkept & _).
  split; [exact Hdel|]. split; [|exact Hkept].
  refine (proj1 (Hrev "log-0" Sample.w0 Sample.create_log _ _ _ _)).
  - vm_compute; reflexivity.
  - reflexivity.
  - reflexivity.
  - split; [by left | vm_compute; discriminate].
Defined.

(** C8 as stated fails: to deny Bob the content of Alice's post the service
    reads the cache and the metadata store and fills the metadata cache; and
    Bob's revert to a patch entry of her post is refused as not allowed, not
    as permission denied. *)
Lemma C8_counterexample :
  fst (GetItemContent Sample.env0 "bob" "p1" "post" Sample.w0)
    = ("", 0, Some ErrPermissionDenied) /\
  trace Sample.w0 = [] /\
  trace (snd (GetItemContent Sample.env0 "bob" "p1" "post" Sample.w0))
    = [Call (CacheGetItemMeta "p1" "post") (Some CacheErrNotFound);
       Call (DbGetPostMetaByID "p1") None;
       Call (CacheSetItemMeta "p1" "post" (MetaPost Sample.post1)) None] /\
  c_posts (cache Sample.w0) !! "p1" = None /\
  c_posts (cache (snd (GetItemContent Sample.env0 "bob" "p1" "post" Sample.w0))) !! "p1"
    = Some (json_Post Sample.post1) /\
  fst (RevertToAction Sample.env0 "bob" "log-1" Sample.w_patched)
    = (0, Some ErrRevertNotAllowed).
Proof. vm_compute. repeat split; reflexivity. Qed.

(** C4 (as the code has it). In every run of [ApplyItemChanges] a metadata
    update is attempted only after an upload that the blob store accepted.
    When the change applier fails or the upload fails, no metadata update and
    no history append is attempted, no blob is written and the content cache
    is not touched: the metadata store, the history, the blobs, the counters
    and the content and user caches are as before.  The one thing that may
    have changed is the metadata cache entry of the item, which the initial
    lookup fills after a cache miss. *)
Theorem C4_blob_before_metadata_and_failures_persist_nothing
    (E : Env) (userID itemID itemTypeStr : string) (baseVersion : Z)
    (changes : list Change) (w w' : World) (v : Z) (cs : list Change)
    (err : option error) (evs : list Event) :
  ApplyItemChanges E userID itemID itemTypeStr baseVersion changes w
    = ((v, cs, err), w') ->
  events_of w w' evs ->
  (forall pre ev post,
      evs = pre ++ ev :: post ->
      is_metadata_update (event_op ev) = true ->
      Exists (fun up => is_upload_ok up = true) pre) /\
  (err = Some ErrApplyChange \/ err = Some storage_save_failed ->
   stores_kept w w' /\
   Forall (leaves_stores_alone itemID itemTypeStr) evs).
Proof.
  unfold ApplyItemChanges. intros H Hev. split.
  - apply updates_follow_upload_sound.
    paths; try not_a_type; inv_calls; get_events Hev; follow.
  - intros Herr. paths; try not_a_type; try (by destruct Herr).
    all: inv_calls; get_events Hev.
    all: split; [by unfold stores_kept|].
    all: all_alone.
Qed.

Lemma C4_witness :
  stores_kept Sample.w0
    (snd (ApplyItemChanges Sample.env0 "alice" "p1" "post" 1
            [Sample.bad_change] Sample.w0)) /\
  Forall (leaves_stores_alone "p1" "post")
    (trace (snd (ApplyItemChanges Sample.env0 "alice" "p1" "post" 1
                   [Sample.bad_change] Sample.w0))).
Proof.
  refine (proj2 (C4_blob_before_metadata_and_failures_persist_nothing
                   Sample.env0 "alice" "p1" "post" 1 [Sample.bad_change] Sample.w0
                   (snd (ApplyItemChanges Sample.env0 "alice" "p1" "post" 1
                           [Sample.bad_change] Sample.w0))
                   0 [] (Some ErrApplyChange) _ _ _) (or_introl eq_refl)).
  - vm_compute. reflexivity.
  - vm_compute. reflexivity.
Defined.

(** C4 as stated fails: the applier rejects the change, and by then the
    metadata cache has been filled with the record of the post. *)
Lemma C4_counterexample :
  fst (ApplyItemChanges Sample.env0 "alice" "p1" "post" 1
         [Sample.bad_change] Sample.w0)
    = (0, [], Some ErrApplyChange) /\
  c_posts (cache Sample.w0) !! "p1" = None /\
  c_posts (cache (snd (ApplyItemChanges Sample.env0 "alice" "p1" "post" 1
                         [Sample.bad_change] Sample.w0))) !! "p1"
    = Some (json_Post Sample.post1) /\
  trace (snd (ApplyItemChanges Sample.env0 "alice" "p1" "post" 1
                [Sample.bad_change] Sample.w0))
    = [Call (CacheGetItemMeta "p1" "post") (Some CacheErrNotFound);
       Call (DbGetPostMetaByID "p1") None;
       Call (CacheSetItemMeta "p1" "post" (MetaPost Sample.post1)) None;
       Call (CacheGetItemContent "p1" "post" 1) (Some CacheErrNotFound);
       Call (StorageDownloadFile "post/alice/p1") None;
       Call (IoReadAll "post/alice/p1") None].
Proof. vm_compute. repeat split; reflexivity. Qed.

(** C2. A run of [ApplyItemChanges] on the sample deployment.  The store
    holds Alice's post at version 1, and Alice has read it once, so that its
    metadata is in the cache, as JSON, which carries no version.  Her edit
    based on version 1 is turned down with [ErrVersionConflict] and version
    0, the version of the record as it comes out of the cache, after the one
    cache read; the store holds version 1 before and after the call. *)
Lemma C2_conflict_carries_the_cached_version :
  Post_Version <$> posts (db Sample.w_read) !! "p1" = Some 1 /\
  fst (ApplyItemChanges Sample.env0 "alice" "p1" "post" 1
         [Sample.insert_d] Sample.w_read)
    = (0, [], Some ErrVersionConflict) /\
  drop (length (trace Sample.w_read))
    (trace (snd (ApplyItemChanges Sample.env0 "alice" "p1" "post" 1
                   [Sample.insert_d] Sample.w_read)))
    = [Call (CacheGetItemMeta "p1" "post") None] /\
  Post_Version <$>
    posts (db (snd (ApplyItemChanges Sample.env0 "alice" "p1" "post" 1
                      [Sample.insert_d] Sample.w_read))) !! "p1"
    = Some 1.
Proof. vm_compute. repeat split; reflexivity. Qed.

(** C3 (as the code has it). When the metadata update of [ApplyItemChanges]
    fails, the error of the store decides the result: a version mismatch
    gives [ErrVersionConflict] together with the version read back from the
    store, or [ErrInconsistentState] when that read fails; every other
    error, the store's not-found among them, gives [ErrInconsistentState].
    The caller never sees [ErrItemNotFound] from this step. *)
Theorem C3_failed_update_is_conflict_or_inconsistent
    (E : Env) (userID itemID itemTypeStr : string) (baseVersion : Z)
    (changes : list Change) (w w' : World) (v : Z) (cs : list Change)
    (err : option error) (evs : list Event) (ev : Event) (e : error) :
  ApplyItemChanges E userID itemID itemTypeStr baseVersion changes w
    = ((v, cs, err), w') ->
  events_of w w' evs ->
  ev ∈ evs ->
  is_metadata_update (event_op ev) = true ->
  event_outcome ev = Some e ->
  err <> Some ErrItemNotFound /\
  if errors_Is e DbErrVersionMismatch
  then (err = Some ErrVersionConflict /\
        exists m, stored_meta (db w') itemID itemTypeStr = Some m /\ meta_version m = v) \/
       (err = Some ErrInconsistentState /\ v = 0)
  else err = Some ErrInconsistentState /\ v = 0.
Proof.
  unfold ApplyItemChanges. intros H Hev Hin Hup Hout.
  paths; try not_a_type; inv_calls; get_events Hev; find_update Hin.
  all: subst; cbn in Hup, Hout; simplify_eq.
  all: try match goal with He : errors_Is _ _ = _ |- _ => rewrite He end.
  all: split; [done|]; naive_solver.
Qed.

Lemma C3_witness :
  Some ErrVersionConflict <> Some ErrItemNotFound /\
  ((Some ErrVersionConflict = Some ErrVersionConflict /\
    exists m,
      stored_meta
        (db (snd (ApplyItemChanges Sample.env0 "alice" "p1" "post" 0
                    [Sample.insert_x] Sample.w_read)))
        "p1" "post" = Some m /\ meta_version m = 1) \/
   (Some ErrVersionConflict = Some ErrInconsistentState /\ 1 = 0)).
Proof.
  apply (C3_failed_update_is_conflict_or_inconsistent Sample.env0 "alice" "p1" "post" 0
           [Sample.insert_x] Sample.w_read
           (snd (ApplyItemChanges Sample.env0 "alice" "p1" "post" 0
                   [Sample.insert_x] Sample.w_read))
           1 [] (Some ErrVersionConflict)
           (drop (length (trace Sample.w_read))
              (trace (snd (ApplyItemChanges Sample.env0 "alice" "p1" "post" 0
                             [Sample.insert_x] Sample.w_read))))
           (Call (DbUpdatePostMeta
                    (mkPost "p1" "alice" "Hello" "hello" 10 100 "post/alice/p1" 0))
              (Some DbErrVersionMismatch))
           DbErrVersionMismatch).
  - vm_compute. reflexivity.
  - vm_compute. reflexivity.
  - vm_compute. apply list_elem_of_In. cbn. tauto.
  - reflexivity.
  - reflexivity.
Defined.

(** C3 as stated fails: the cached record of a post that the store no longer
    has lets an edit based on version 0, the version of every record that
    comes out of the cache, through to the upload; the store then answers
    the update with its not-found error, and the caller is given
    [ErrInconsistentState]. *)
Lemma C3_counterexample :
  posts (db Sample.w_stale_deleted) !! "p1" = None /\
  fst (ApplyItemChanges Sample.env_f "alice" "p1" "post" 0
         [Sample.insert_x] Sample.w_stale_deleted)
    = (0, [], Some ErrInconsistentState) /\
  drop (length (trace Sample.w_stale_deleted))
    (trace (snd (ApplyItemChanges Sample.env_f "alice" "p1" "post" 0
                   [Sample.insert_x] Sample.w_stale_deleted)))
    = [Call (CacheGetItemMeta "p1" "post") None;
       Call (CacheGetItemContent "p1" "post" 0) (Some CacheErrNotFound);
       Call (StorageDownloadFile "post/alice/p1") None;
       Call (IoReadAll "post/alice/p1") None;
       Call (StorageUploadFile "post/alice/p1" ("xabc" +:+ Sample.newline)
               "text/markdown") None;
       Call (DbUpdatePostMeta
               (mkPost "p1" "alice" "Hello" "hello" 10 101 "post/alice/p1" 0))
         (Some DbErrNotFound)].
Proof. vm_compute. repeat split; reflexivity. Qed.

(** C10. The user record that a successful [RegisterUser] or [LoginUser]
    returns has an empty password hash, and so has every user record that
    [LoginUser] hands to the cache; after a login the cache holds, under the
    id of the user, either what it held before or that record. *)
Theorem C10_no_password_hash_leaves_the_service
    (E : Env) (username password : string) (w : World) :
  (forall user w',
      RegisterUser E username password w = (Ok user, w') ->
      PasswordHash user = "" /\
      forall evs, events_of w w' evs ->
                  Forall (fun ev => is_cache_mutation (event_op ev) = false) evs) /\
  (forall token user w' evs,
      LoginUser E username password w = (Ok (token, user), w') ->
      events_of w w' evs ->
      PasswordHash user = "" /\
      Forall (fun ev => forall cached, event_op ev = CacheSetUser cached ->
                                       cached = user) evs /\
      Forall (fun ev => is_cache_mutation (event_op ev) = true ->
                        event_op ev = CacheSetUser user) evs /\
      (c_users (cache w') = c_users (cache w) \/
       c_users (cache w') = <[User_ID user := user]> (c_users (cache w)))).
Proof.
  split.
  - intros user w' H. unfold RegisterUser in H. paths. split; [done|].
    intros evs Hev.
    match goal with H : db_CreateUser _ _ _ = _ |- _ =>
      unfold db_CreateUser in H; repeat case_match; wsimpl; simplify_eq end.
    get_events Hev. by repeat constructor.
  - intros token user w' evs H Hev. unfold LoginUser in H. paths.
    match goal with H : db_GetUserByUsername _ _ _ = (_, ?w2) |- _ =>
      unfold db_GetUserByUsername, db_call in H;
      apply adapter_inv in H as [(? & ? & ->) | (? & wb & Hb & ->)];
      [done|]; repeat case_match; simplify_eq end.
    inv_ops. wsimpl. get_events Hev.
    split; [done|].
    split; [repeat constructor; cbn; congruence|].
    split; [repeat constructor; cbn; congruence|].
    match goal with H : _ \/ _ |- _ => destruct H as [-> | ->] end; eauto.
Qed.

Lemma C10_witness :
  (exists user,
      fst (RegisterUser Sample.env0 "carol" "secret" Sample.w0) = Ok user /\
      PasswordHash user = "") /\
  (exists token user,
      fst (LoginUser Sample.env0 "carol" "secret"
             (snd (RegisterUser Sample.env0 "carol" "secret" Sample.w0)))
      = Ok (token, user) /\
      PasswordHash user = "").
Proof.
  split.
  - eexists. split; [vm_compute; reflexivity|].
    refine (proj1 (proj1 (C10_no_password_hash_leaves_the_service Sample.env0
                            "carol" "secret" Sample.w0) _
                     (snd (RegisterUser Sample.env0 "carol" "secret" Sample.w0)) _)).
    vm_compute. reflexivity.
  - eexists _, _. split; [vm_compute; reflexivity|].
    refine (proj1 (proj2 (C10_no_password_hash_leaves_the_service Sample.env0
                            "carol" "secret"
                            (snd (RegisterUser Sample.env0 "carol" "secret" Sample.w0)))
                     _ _
                     (snd (LoginUser Sample.env0 "carol" "secret"
                             (snd (RegisterUser Sample.env0 "carol" "secret"
                                     Sample.w0))))
                     [Call (CacheGetUser "carol") (Some CacheErrNotFound);
                      Call (DbGetUserByUsername "carol") None;
                      Call (CacheSetUser (mkUser "carol" "carol" "" 101)) None]
                     _ _)).
    + vm_compute. reflexivity.
    + vm_compute. reflexivity.
Defined.

(** * Further properties of the service

    The runs below are taken in the deployment [reliable E], where the oracle
    fails no adapter call; what the cache and the store hold decides every
    outcome. *)
Ltac unfold_service :=
  unfold GetItemContent, getItemContentFromSource, getItemMetaWithCache,
    cache_GetItemMeta, cache_SetItemMeta, cache_DeleteItemMeta,
    cache_GetItemContent, cache_SetItemContent, cache_InvalidateItemContent,
    cache_GetUser, cache_SetUser, cache_call,
    db_GetPostMetaByID, db_GetCodeFileMetaByID, db_UpdatePostMeta,
    db_UpdateCodeFileMeta, db_DeletePostMeta, db_DeleteCodeFileMeta,
    db_LogAction, db_GetActionHistory, db_GetHistoryLogByID, db_GetUserByUsername,
    db_call, storage_UploadFile, storage_DownloadFile, storage_DeleteFile,
    io_ReadAll, adapter, func, bind, call, ret, Return in *.

Ltac run :=
  unfold record_event, set_db, set_blobs, set_cache, set_changeCounters,
    set_clock, time_Now in *;
  cbn [reliable faults cacheEnabled IntervalChanges applyChanges
       bcrypt_GenerateFromPassword bcrypt_CompareHashAndPassword auth_GenerateJWT
       fst snd negb andb orb err_of
       db blobs cache changeCounters clock trace
       users posts codefiles history c_users c_posts c_codefiles c_content
       Post_ID Post_UserID Title Slug Post_CreatedAt Post_UpdatedAt
       Post_S3Path Post_Version File_ID File_UserID FileName Language
       File_CreatedAt File_UpdatedAt File_S3Path File_Version
       meta_owner meta_version meta_s3path
       set_db set_blobs set_cache set_changeCounters set_clock record_event time_Now
       fmap option_fmap option_map mbind option_bind default] in *.

Lemma post_is_not_codefile : String.eqb ItemTypePost ItemTypeCodeFile = false.
Proof. reflexivity. Qed.

Ltac types :=
  rewrite ?String.eqb_refl, ?codefile_is_not_post, ?post_is_not_codefile in *.

Ltac known t :=
  lazymatch t with
  | _ !! _ => idtac
  | _ ≫= _ => idtac
  | String.eqb _ _ => idtac
  | Z.eqb _ _ => idtac
  | cacheEnabled _ => idtac
  end.

Ltac use_lookups :=
  repeat match goal with
    | H : ?t = _, H' : context [?t] |- _ =>
        known t; assert_fails (constr_eq H H'); rewrite H in H'
    | H : ?t = _ |- context [?t] => known t; rewrite H
    end.

Ltac cases :=
  repeat (case_match; use_lookups; run; simplify_eq; types).

Lemma mapDBError_not_found itemType itemID :
  mapDBError DbErrNotFound itemType itemID = ErrItemNotFound.
Proof. reflexivity. Qed.

Lemma meta_view_cases E w itemID itemType :
  meta_view E w itemID itemType = None \/
  exists m, meta_view E w itemID itemType = Some m.
Proof. destruct (meta_view E w itemID itemType); eauto. Qed.

(** The lookup in the reliable deployment: its result is the view, it
    leaves everything but the metadata entries of the cache as it was, and
    with Redis on the cache holds afterwards, as JSON carries it, the record
    that was returned. *)
Lemma getItemMetaWithCache_reliable E itemID itemType w :
  IsValid itemType = true ->
  exists c evs,
    getItemMetaWithCache (reliable E) itemID itemType w
    = (match meta_view E w itemID itemType with
       | Some m => Ok m
       | None => Err ErrItemNotFound
       end, with_cache c evs w) /\
    c_users c = c_users (cache w) /\ c_content c = c_content (cache w) /\
    (cacheEnabled E = true ->
     cached_meta c itemID itemType = json_Meta <$> meta_view E w itemID itemType).
Proof.
  intros Hv. unfold meta_view, cached_meta, stored_meta, with_cache.
  destruct (IsValid_cases _ Hv) as [-> | ->]; types.
  all: unfold_service; run; types.
  all: destruct (cacheEnabled E); run.
  all: cases; run.
  all: rewrite <- ?app_assoc, ?mapDBError_not_found.
  all: first [ eexists _, _; (split; [reflexivity|])
             | exists (cache w), []; rewrite app_nil_r; split; [by destruct w|] ].
  all: run; types.
  all: rewrite ?lookup_insert_eq; use_lookups; try done.
  all: split; [done|]; split; [done|]; intros _; run; types;
    rewrite ?lookup_insert_eq; use_lookups; done.
Qed.

Ltac unfold_calls :=
  unfold getItemContentFromSource,
    cache_GetItemMeta, cache_SetItemMeta, cache_DeleteItemMeta,
    cache_GetItemContent, cache_SetItemContent, cache_InvalidateItemContent,
    cache_GetUser, cache_SetUser, cache_call,
    db_GetPostMetaByID, db_GetCodeFileMetaByID, db_UpdatePostMeta,
    db_UpdateCodeFileMeta, db_DeletePostMeta, db_DeleteCodeFileMeta,
    db_LogAction, db_GetActionHistory, db_GetHistoryLogByID, db_GetUserByUsername,
    db_CreateUser,
    db_call, storage_UploadFile, storage_DownloadFile, storage_DeleteFile,
    io_ReadAll, adapter, func, bind, call, ret, Return.

Ltac step :=
  unfold record_event, set_db, set_blobs, set_cache, set_changeCounters,
    set_clock, time_Now, with_cache;
  cbn [reliable faults cacheEnabled IntervalChanges applyChanges
       bcrypt_GenerateFromPassword bcrypt_CompareHashAndPassword auth_GenerateJWT
       fst snd negb andb orb err_of
       db blobs cache changeCounters clock trace
       users posts codefiles history c_users c_posts c_codefiles c_content
       Post_ID Post_UserID Title Slug Post_CreatedAt Post_UpdatedAt
       Post_S3Path Post_Version File_ID File_UserID FileName Language
       File_CreatedAt File_UpdatedAt File_S3Path File_Version
       meta_owner meta_version meta_s3path
       User_ID Username PasswordHash User_CreatedAt
       fmap option_fmap option_map mbind option_bind default];
  rewrite ?String.eqb_refl, ?codefile_is_not_post, ?post_is_not_codefile.

(** Splits the goal on the tests and lookups its evaluation is stuck on. *)
Ltac branch :=
  match goal with
  | H : ?t = _ |- context [?t] => known t; rewrite H
  | H : c_content ?c = _ |- context [c_content ?c] => rewrite H
  | |- context [match ?x with _ => _ end] =>
      lazymatch x with
      | context [match _ with _ => _ end] => fail
      | _ => destruct x eqn:?
      end
  end.

Ltac exec := step; repeat (branch; simplify_eq; step).

Lemma GetItemContent_reliable E userID itemID itemTypeStr w :
  IsValid itemTypeStr = true ->
  exists c evs,
    GetItemContent (reliable E) userID itemID itemTypeStr w
    = (match meta_view E w itemID itemTypeStr with
       | None => ("", 0, Some ErrItemNotFound)
       | Some m =>
           if String.eqb (meta_owner m) userID
           then (content_view E w itemID itemTypeStr (meta_version m) (meta_s3path m),
                 meta_version m, None)
           else ("", 0, Some ErrPermissionDenied)
       end, with_cache c evs w) /\
    c_users c = c_users (cache w) /\
    (cacheEnabled E = true ->
     cached_meta c itemID itemTypeStr = json_Meta <$> meta_view E w itemID itemTypeStr).
Proof.
  intros Hv.
  destruct (getItemMetaWithCache_reliable E itemID itemTypeStr w Hv)
    as (c & evs & Hl & Hu & Hc & Hcache).
  unfold GetItemContent, func, bind, call, ret, Return. cbv beta zeta.
  rewrite Hv. cbn [negb]. rewrite Hl.
  destruct (meta_view E w itemID itemTypeStr) as [m|] eqn:Hm.
  2: { exists c, evs. done. }
  apply getItemMetaWithCache_typed in Hl.
  assert (Hkeep : forall c',
             c_posts c' = c_posts c -> c_codefiles c' = c_codefiles c ->
             cacheEnabled E = true ->
             cached_meta c' itemID itemTypeStr = json_Meta <$> Some m).
  { intros c' Hp Hf Hon. rewrite <- (Hcache Hon).
    unfold cached_meta. by rewrite Hp, Hf. }
  clear Hcache Hm.
  destruct Hl as [[-> [p ->]] | [-> [f ->]]]; step.
  all: match goal with |- context [negb (String.eqb ?a ?b)] =>
         destruct (String.eqb a b) eqn:Hown end; step.
  all: try (exists c, evs; split; [done|]; split; [done|]; by apply Hkeep).
  all: unfold content_view; unfold_calls; exec.
  all: rewrite <- ?app_assoc; eexists _, _; (split; [reflexivity|]);
    (split; [done|]); by apply Hkeep.
Qed.

Lemma getItemContentFromSource_reliable E itemID itemType version s3Path w :
  exists evs,
    getItemContentFromSource (reliable E) itemID itemType version s3Path w
    = (Ok (content_view E w itemID itemType version s3Path),
       with_cache (cache w) evs w).
Proof.
  unfold content_view. unfold_calls. exec.
  all: rewrite <- ?app_assoc; eexists; reflexivity.
Qed.

Lemma meta_view_sound E w itemID itemType m :
  cache_entry_sound w itemID itemType -> meta_view E w itemID itemType = Some m ->
  meta_id m = itemID /\
  forall q, stored_meta (db w) itemID itemType = Some q -> meta_owner q = meta_owner m.
Proof.
  unfold meta_view. intros Hok H.
  destruct (cacheEnabled E);
    [destruct (cached_meta (cache w) itemID itemType) eqn:Hc|].
  - simplify_eq. by apply Hok.
  - split; [by eapply stored_meta_id|]. intros q Hq. congruence.
  - split; [by eapply stored_meta_id|]. intros q Hq. congruence.
Qed.

Lemma generateS3Path_nonempty userID itemID itemType :
  String.eqb (generateS3Path userID itemID itemType) "" = false.
Proof. unfold generateS3Path. by destruct itemType. Qed.

Lemma content_view_with_cache E c evs w itemID itemType version s3Path :
  c_content c = c_content (cache w) ->
  content_view E (with_cache c evs w) itemID itemType version s3Path
  = content_view E w itemID itemType version s3Path.
Proof. unfold content_view, with_cache. cbn. by intros ->. Qed.

(** Splits on what the evaluation of the left-hand side of the premise is
    stuck on. *)
Ltac branch_premise :=
  match goal with
  | H : ?t = _ |- (?l = _) -> _ =>
      known t; match l with context [t] => rewrite H end
  | H : c_content ?c = _ |- (?l = _) -> _ =>
      match l with context [c_content c] => rewrite H end
  | |- (?l = _) -> _ =>
      match l with
      | context [match ?x with _ => _ end] =>
          lazymatch x with
          | context [match _ with _ => _ end] => fail
          | _ => destruct x eqn:?
          end
      end
  end.

(** Runs one call, given as an equation, forward. *)
Ltac fwd H :=
  revert H; unfold_calls; step; repeat (branch_premise; step);
  intros H; simplify_eq.

Lemma ApplyItemChanges_commit E userID itemID itemTypeStr baseVersion changes w v cs w' :
  cache_entry_sound w itemID itemTypeStr ->
  ApplyItemChanges (reliable E) userID itemID itemTypeStr baseVersion changes w
    = ((v, cs, None), w') ->
  exists m m' newContent,
    let path := if String.eqb (meta_s3path m) ""
                then generateS3Path userID itemID itemTypeStr else meta_s3path m in
    meta_view E w itemID itemTypeStr = Some m /\
    meta_owner m = userID /\ meta_version m = baseVersion /\
    applyChanges E (content_view E w itemID itemTypeStr baseVersion path) changes
      = Ok newContent /\
    v = GoInt.add baseVersion 1 /\
    blobs w' = <[path := newContent]> (blobs w) /\
    meta_view E w' itemID itemTypeStr = Some m' /\
    meta_owner m' = userID /\ meta_version m' = v /\ meta_s3path m' = path /\
    content_view E w' itemID itemTypeStr v path = newContent.
Proof.
  intros Hok H. unfold ApplyItemChanges in H. paths; try not_a_type.
  all: match goal with
       | Hl : getItemMetaWithCache _ ?i ?t ?w0 = _, Hv : negb (IsValid _) = false |- _ =>
           apply negb_false_iff in Hv;
           destruct (getItemMetaWithCache_reliable E i t w0 Hv)
             as (c & evs & Heq & Hu & Hc & Hview);
           rewrite Heq in Hl; clear Heq;
           destruct (meta_view E w0 i t) as [m|] eqn:Hm; simplify_eq
       end.
  all: match goal with
       | Hs : getItemContentFromSource _ ?i ?t ?ver ?p ?w0 = _ |- _ =>
           destruct (getItemContentFromSource_reliable E i t ver p w0) as (evs1 & Heq);
           rewrite Heq in Hs; clear Heq; simplify_eq
       end.
  all: destruct (meta_view_sound _ _ _ _ _ Hok Hm) as [Hid Hown];
    cbn [meta_id meta_owner] in Hid, Hown.
  all: rewrite content_view_with_cache in * by done.
  all: clear Hview.
  all: eqb_facts; subst.
  all: unfold stored_meta in Hown; types.
  all: repeat match goal with
         | H : storage_UploadFile _ _ _ _ _ = _ |- _ => fwd H
         | H : time_Now _ = _ |- _ => unfold time_Now in H; simplify_eq
         | H : db_UpdatePostMeta _ _ _ = _ |- _ => fwd H
         | H : db_UpdateCodeFileMeta _ _ _ = _ |- _ => fwd H
         | H : cache_DeleteItemMeta _ _ _ _ = _ |- _ => fwd H
         | H : cache_InvalidateItemContent _ _ _ _ = _ |- _ => fwd H
         | H : cache_SetItemContent _ _ _ _ _ _ = _ |- _ => fwd H
         | H : logPatches _ _ _ _ _ _ _ _ = _ |- _ =>
             apply logPatches_form in H as (? & ? & ? & -> & _)
         | H : handleSnapshotting _ _ _ _ _ _ _ _ _ = _ |- _ =>
             apply handleSnapshotting_frame in H as (? & ? & ? & ? & -> & _)
         end.
  all: unfold with_history, set_changeCounters; step.
  all: eexists _, _, _; cbv zeta; (split; [reflexivity|]); step.
  all: rewrite ?generateS3Path_nonempty.
  all: repeat match goal with
         | H : ?t = _ |- context [?t] => known t; rewrite H
         end.
  all: repeat match goal with
         | H : Post_S3Path _ = "" |- _ => rewrite H
         | H : File_S3Path _ = "" |- _ => rewrite H
         end; rewrite ?String.eqb_refl.
  all: cbn [reliable applyChanges] in *.
  all: split; [done|]; split; [done|]; split; [eassumption|]; split; [done|];
    split; [done|].
  all: unfold meta_view, cached_meta, stored_meta, content_view; step.
  all: rewrite ?lookup_delete_eq, ?lookup_insert_eq; step.
  all: repeat match goal with
         | H : ?t = _ |- context [?t] => known t; rewrite H
         end; rewrite ?generateS3Path_nonempty, ?lookup_insert_eq; step.
  all: specialize (Hown _ eq_refl); cbn in Hown.
  all: eqb_facts.
  all: (split; [reflexivity|]); cbn; repeat split; congruence.
Qed.

Lemma add_one_changes (v : Z) : GoInt.add v 1 <> v.
Proof.
  unfold GoInt.add, GoInt.wrap. intros H.
  pose proof (Z.mod_pos_bound (v + 1 + 2 ^ 63) (2 ^ 64) ltac:(lia)) as Hb.
  destruct (Z_lt_dec (v + 1 + 2 ^ 63) (2 ^ 64)) as [Hlt|Hge].
  - rewrite Z.mod_small in H by lia. lia.
  - assert (v + 1 + 2 ^ 63 = 2 ^ 64) as Heq by lia.
    rewrite Heq, Z.mod_same in H by lia. lia.
Qed.

Lemma GetItemContent_invalid E userID itemID itemTypeStr w :
  IsValid itemTypeStr = false ->
  GetItemContent E userID itemID itemTypeStr w = (("", 0, Some ErrInvalidItemType), w).
Proof. intros Hv. unfold GetItemContent, func, Return. cbv zeta. by rewrite Hv. Qed.

Lemma GetItemContent_fst E userID itemID itemTypeStr w :
  fst (GetItemContent (reliable E) userID itemID itemTypeStr w) =
  if IsValid itemTypeStr then
    match meta_view E w itemID itemTypeStr with
    | None => ("", 0, Some ErrItemNotFound)
    | Some m =>
        if String.eqb (meta_owner m) userID
        then (content_view E w itemID itemTypeStr (meta_version m) (meta_s3path m),
              meta_version m, None)
        else ("", 0, Some ErrPermissionDenied)
    end
  else ("", 0, Some ErrInvalidItemType).
Proof.
  destruct (IsValid itemTypeStr) eqn:Hv.
  - destruct (GetItemContent_reliable E userID itemID itemTypeStr w Hv)
      as (c & evs & -> & _). done.
  - by rewrite GetItemContent_invalid.
Qed.

(** A record that has gone through JSON keeps its id and its owner, and has
    version 0 and no blob key. *)
Lemma json_Meta_fields m :
  meta_owner (json_Meta m) = meta_owner m /\ meta_id (json_Meta m) = meta_id m /\
  meta_version (json_Meta m) = 0 /\ meta_s3path (json_Meta m) = "".
Proof. by destruct m. Qed.

Lemma cached_meta_json c itemID itemType m :
  cached_meta c itemID itemType = Some m -> json_Meta m = m.
Proof.
  unfold cached_meta. intros H.
  repeat case_match; try done; apply fmap_Some in H as (? & _ & ->); reflexivity.
Qed.

Lemma content_view_of_a_hit E w itemID itemType :
  cacheEnabled E = true ->
  content_view E w itemID itemType 0 ""
  = default "" (c_content (cache w) !! (itemType, itemID) ≫= (.!! 0)).
Proof. unfold content_view. intros ->. by case_match. Qed.

(** X1. Where no adapter call fails, [GetItemContent] returns for a valid
    item type as follows.  When Redis is on and holds a metadata record of
    the item, the read is served from that record, which carries the owner
    but, being JSON, neither the version nor the blob key: for another
    owner the result is [ErrPermissionDenied], and otherwise it is version 0
    with the text cached for version 0, or the empty text when there is
    none.  Without such a record the store decides: [ErrItemNotFound] when it
    has no record, [ErrPermissionDenied] when its record names another
    owner, and otherwise the version of its record with the text cached for
    that version or else the blob under the record's path, the empty text
    standing in for an empty path or a missing blob. *)
Theorem GetItemContent_without_faults
    (E : Env) (userID itemID itemTypeStr : string) (w : World) :
  fst (GetItemContent (reliable E) userID itemID itemTypeStr w) =
  if IsValid itemTypeStr then
    match (if cacheEnabled E then cached_meta (cache w) itemID itemTypeStr else None) with
    | Some m =>
        if String.eqb (meta_owner m) userID
        then (default "" (c_content (cache w) !! (itemTypeStr, itemID) ≫= (.!! 0)),
              0, None)
        else ("", 0, Some ErrPermissionDenied)
    | None =>
        match stored_meta (db w) itemID itemTypeStr with
        | None => ("", 0, Some ErrItemNotFound)
        | Some m =>
            if String.eqb (meta_owner m) userID
            then (content_view E w itemID itemTypeStr (meta_version m) (meta_s3path m),
                  meta_version m, None)
            else ("", 0, Some ErrPermissionDenied)
        end
    end
  else ("", 0, Some ErrInvalidItemType).
Proof.
  rewrite GetItemContent_fst. destruct (IsValid itemTypeStr); [|done].
  unfold meta_view. destruct (cacheEnabled E) eqn:Hon; [|done].
  destruct (cached_meta (cache w) itemID itemTypeStr) as [m|] eqn:Hm; [|done].
  apply cached_meta_json in Hm.
  destruct (json_Meta_fields m) as (_ & _ & Hver & Hpath). rewrite Hm in Hver, Hpath.
  rewrite Hver, Hpath. by rewrite content_view_of_a_hit.
Qed.

(** X2. With Redis on and no adapter call failing, a read that follows a
    successful read of the same item by the same user is served from the
    metadata record that the first read left in the cache, and that record
    has lost the version and the blob key: the second read returns version
    0, whatever version the store holds, and the text cached for version 0,
    or the empty text when there is none. *)
Theorem GetItemContent_twice
    (E : Env) (userID itemID itemTypeStr content : string) (version : Z)
    (w w' : World) :
  cacheEnabled E = true ->
  GetItemContent (reliable E) userID itemID itemTypeStr w
    = ((content, version, None), w') ->
  fst (GetItemContent (reliable E) userID itemID itemTypeStr w')
  = (default "" (c_content (cache w') !! (itemTypeStr, itemID) ≫= (.!! 0)), 0, None).
Proof.
  intros Hon H.
  destruct (IsValid itemTypeStr) eqn:Hv;
    [|by rewrite GetItemContent_invalid in H].
  destruct (GetItemContent_reliable E userID itemID itemTypeStr w Hv)
    as (c & evs & Heq & _ & Hcache). rewrite Heq in H. specialize (Hcache Hon).
  destruct (meta_view E w itemID itemTypeStr) as [m|]; [|done].
  destruct (String.eqb (meta_owner m) userID) eqn:Ho; [|done].
  simplify_eq. rewrite GetItemContent_fst, Hv. unfold meta_view. rewrite Hon.
  cbn [with_cache cache]. rewrite Hcache. cbn [fmap option_fmap option_map].
  destruct (json_Meta_fields m) as (-> & _ & -> & ->). rewrite Ho.
  by rewrite content_view_of_a_hit.
Qed.

Lemma GetItemContent_twice_witness :
  fst (GetItemContent (reliable Sample.env0) "alice" "p1" "post" Sample.w_read)
  = ("", 0, None).
Proof.
  rewrite (GetItemContent_twice Sample.env0 "alice" "p1" "post"
             ("abc" +:+ Sample.newline) 1 Sample.w0 Sample.w_read).
  - vm_compute. reflexivity.
  - reflexivity.
  - vm_compute. reflexivity.
Defined.



(** X4. No lost update.  Where no adapter call fails and the cached record
    of the item, if any, is the item's and names its stored owner, a second
    [ApplyItemChanges] that is based on the version the first one was based
    on is turned down with [ErrVersionConflict] and the version the first
    one committed, and it writes neither metadata nor a blob. *)
Theorem second_writer_conflicts
    (E : Env) (userID itemID itemTypeStr : string) (baseVersion : Z)
    (changes changes' : list Change) (w w' : World) (v : Z) (cs : list Change) :
  cache_entry_sound w itemID itemTypeStr ->
  ApplyItemChanges (reliable E) userID itemID itemTypeStr baseVersion changes w
    = ((v, cs, None), w') ->
  exists w'',
    ApplyItemChanges (reliable E) userID itemID itemTypeStr baseVersion changes' w'
    = ((v, [], Some ErrVersionConflict), w'') /\
    db w'' = db w' /\ blobs w'' = blobs w'.
Proof.
  intros Hok H.
  assert (Hv : IsValid itemTypeStr = true).
  { unfold ApplyItemChanges, func, Return in H. cbv zeta in H.
    destruct (IsValid itemTypeStr); [done|]. cbn in H. by simplify_eq. }
  destruct (ApplyItemChanges_commit _ _ _ _ _ _ _ _ _ _ Hok H)
    as (m & m' & content & Hm & Ho & Hver & Happ & -> & Hb & Hm' & Ho' & Hv' & Hp' & Hc').
  destruct (getItemMetaWithCache_reliable E itemID itemTypeStr w' Hv)
    as (c & evs & Hl & _).
  rewrite Hm' in Hl. pose proof Hl as Hty. apply getItemMetaWithCache_typed in Hty.
  exists (with_cache c evs w'). split; [|done].
  unfold ApplyItemChanges, func, bind, call, ret, Return. cbv beta zeta.
  rewrite Hv. cbn [negb]. rewrite Hl.
  destruct Hty as [[-> [p ->]] | [-> [f ->]]]; cbn in Ho', Hv'; step.
  all: rewrite Ho', String.eqb_refl; cbn [negb]; rewrite Hv'.
  all: destruct (Z.eqb_spec (GoInt.add baseVersion 1) baseVersion) as [Heq|_];
    [by apply add_one_changes in Heq|done].
Qed.

Lemma second_writer_conflicts_witness :
  exists w'',
    ApplyItemChanges (reliable Sample.env0) "alice" "p1" "post" 1 [Sample.insert_x]
      Sample.w_patched
    = ((2, [], Some ErrVersionConflict), w'') /\
    db w'' = db Sample.w_patched /\ blobs w'' = blobs Sample.w_patched.
Proof.
  apply (second_writer_conflicts Sample.env0 "alice" "p1" "post" 1
           [Sample.insert_d] [Sample.insert_x] Sample.w0 Sample.w_patched 2
           [Sample.insert_d]).
  - intros m Hm. vm_compute in Hm. discriminate Hm.
  - vm_compute. reflexivity.
Defined.

Lemma meta_view_none E w itemID itemType :
  meta_view E w itemID itemType = None -> stored_meta (db w) itemID itemType = None.
Proof. unfold meta_view. intros H. by repeat case_match. Qed.

Lemma DeleteItem_commit E userID itemID itemTypeStr w w' q :
  stored_meta (db w) itemID itemTypeStr = Some q ->
  DeleteItem (reliable E) userID itemID itemTypeStr w = (None, w') ->
  exists m l,
    meta_view E w itemID itemTypeStr = Some m /\ meta_owner m = userID /\
    stored_meta (db w') itemID itemTypeStr = None /\
    meta_view E w' itemID itemTypeStr = None /\
    blobs w' = (if String.eqb (meta_s3path m) "" then blobs w
                else delete (meta_s3path m) (blobs w)) /\
    changeCounters w' = delete (counterKey itemTypeStr itemID) (changeCounters w) /\
    history (db w') = history (db w) ++ [l] /\
    Action l = ActionDelete /\ Log_ItemID l = itemID /\ Log_ItemType l = itemTypeStr /\
    S3PathBefore l = meta_s3path m /\ ItemVersion l = meta_version m.
Proof.
  intros Hq H. unfold DeleteItem in H. paths; try not_a_type.
  all: match goal with
       | Hl : getItemMetaWithCache _ ?i ?t ?w0 = _, Hv : negb (IsValid _) = false |- _ =>
           apply negb_false_iff in Hv;
           destruct (getItemMetaWithCache_reliable E i t w0 Hv)
             as (c & evs & Heq & Hu & Hc & Hview);
           rewrite Heq in Hl; clear Heq;
           destruct (meta_view E w0 i t) as [m|] eqn:Hm; simplify_eq
       end.
  all: try (apply meta_view_none in Hm; congruence).
  all: eqb_facts; subst.
  all: revert Hq; unfold stored_meta; types; intros Hq;
    apply fmap_Some in Hq as (q0 & Hq & ->).
  all: repeat match goal with
         | H : db_DeletePostMeta _ _ _ = _ |- _ => fwd H
         | H : db_DeleteCodeFileMeta _ _ _ = _ |- _ => fwd H
         | H : storage_DeleteFile _ _ _ = _ |- _ => fwd H
         | H : time_Now _ = _ |- _ => unfold time_Now in H; simplify_eq
         | H : db_LogAction _ _ _ = _ |- _ => fwd H
         | H : cache_DeleteItemMeta _ _ _ _ = _ |- _ => fwd H
         | H : cache_InvalidateItemContent _ _ _ _ = _ |- _ => fwd H
         end.
  all: step; eexists _, _; (split; [reflexivity|]); step.
  all: unfold meta_view, cached_meta, stored_meta; step.
  all: rewrite ?lookup_delete_eq; step.
  all: repeat match goal with
         | H : ?t = _ |- context [?t] => known t; rewrite H
         end.
  all: repeat match goal with
         | H : Post_S3Path _ = "" |- _ => rewrite H
         | H : File_S3Path _ = "" |- _ => rewrite H
         end; rewrite ?String.eqb_refl.
  all: repeat (split; [reflexivity|]); reflexivity.
Qed.

(** X5. Where no adapter call fails, a [DeleteItem] of an item that the
    store has and that returns nil has removed the item's metadata record
    and its change counter and has appended one delete entry.  When the
    lookup was answered by the store, the blob under the stored path is
    deleted as well, and the entry carries that path as [S3PathBefore] and
    the stored version.  When it was answered by the cache (Redis is on and
    holds a record of the item), the record has no blob key: the blob stays
    in the blob store, and the entry carries an empty [S3PathBefore] and
    version 0. *)
Theorem DeleteItem_removes_the_item
    (E : Env) (userID itemID itemTypeStr : string) (w w' : World) (q : Meta) :
  stored_meta (db w) itemID itemTypeStr = Some q ->
  DeleteItem (reliable E) userID itemID itemTypeStr w = (None, w') ->
  exists l,
    stored_meta (db w') itemID itemTypeStr = None /\
    changeCounters w' !! counterKey itemTypeStr itemID = None /\
    history (db w') = history (db w) ++ [l] /\
    Action l = ActionDelete /\ Log_ItemID l = itemID /\ Log_ItemType l = itemTypeStr /\
    match (if cacheEnabled E then cached_meta (cache w) itemID itemTypeStr else None) with
    | Some _ => blobs w' = blobs w /\ S3PathBefore l = "" /\ ItemVersion l = 0
    | None =>
        blobs w' = (if String.eqb (meta_s3path q) "" then blobs w
                    else delete (meta_s3path q) (blobs w)) /\
        S3PathBefore l = meta_s3path q /\ ItemVersion l = meta_version q
    end.
Proof.
  intros Hq H.
  destruct (DeleteItem_commit _ _ _ _ _ _ _ Hq H)
    as (m & l & Hm & Ho & Hs & _ & Hb & Hcnt & Hh & Ha & Hi & Ht & Hp & Hver).
  exists l. split; [done|]. split; [rewrite Hcnt; apply lookup_delete_eq|].
  do 4 (split; [done|]).
  unfold meta_view in Hm. destruct (cacheEnabled E).
  - destruct (cached_meta (cache w) itemID itemTypeStr) as [m0|] eqn:Hc.
    + simplify_eq. apply cached_meta_json in Hc.
      destruct (json_Meta_fields m) as (_ & _ & Hv0 & Hp0). rewrite Hc in Hv0, Hp0.
      rewrite Hp0 in Hb, Hp. rewrite Hv0 in Hver. done.
    + rewrite Hq in Hm. by simplify_eq.
  - rewrite Hq in Hm. by simplify_eq.
Qed.

Lemma DeleteItem_removes_the_item_witness :
  exists l,
    stored_meta (db Sample.w_read_deleted) "p1" "post" = None /\
    changeCounters Sample.w_read_deleted !! counterKey "post" "p1" = None /\
    history (db Sample.w_read_deleted) = history (db Sample.w_read) ++ [l] /\
    Action l = ActionDelete /\ Log_ItemID l = "p1" /\ Log_ItemType l = "post" /\
    match (if cacheEnabled Sample.env0
           then cached_meta (cache Sample.w_read) "p1" "post" else None) with
    | Some _ =>
        blobs Sample.w_read_deleted = blobs Sample.w_read /\
        S3PathBefore l = "" /\ ItemVersion l = 0
    | None =>
        blobs Sample.w_read_deleted
        = (if String.eqb (meta_s3path (MetaPost Sample.post1)) "" then blobs Sample.w_read
           else delete (meta_s3path (MetaPost Sample.post1)) (blobs Sample.w_read)) /\
        S3PathBefore l = meta_s3path (MetaPost Sample.post1) /\
        ItemVersion l = meta_version (MetaPost Sample.post1)
    end.
Proof.
  apply (DeleteItem_removes_the_item Sample.env0 "alice" "p1" "post" Sample.w_read
           Sample.w_read_deleted (MetaPost Sample.post1)).
  - vm_compute. reflexivity.
  - vm_compute. reflexivity.
Defined.

(** X6. Where no adapter call fails, after such a delete the item is gone for
    its former owner too: a read reports [ErrItemNotFound], and so does an
    attempt to change it. *)
Theorem read_after_DeleteItem
    (E : Env) (userID itemID itemTypeStr : string) (w w' : World) (q : Meta)
    (baseVersion : Z) (changes : list Change) :
  stored_meta (db w) itemID itemTypeStr = Some q ->
  DeleteItem (reliable E) userID itemID itemTypeStr w = (None, w') ->
  fst (GetItemContent (reliable E) userID itemID itemTypeStr w')
    = ("", 0, Some ErrItemNotFound) /\
  fst (ApplyItemChanges (reliable E) userID itemID itemTypeStr baseVersion changes w')
    = (0, [], Some ErrItemNotFound).
Proof.
  intros Hq H.
  assert (Hv : IsValid itemTypeStr = true).
  { unfold DeleteItem, func, Return in H. cbv zeta in H.
    destruct (IsValid itemTypeStr); [done|]. cbn in H. by simplify_eq. }
  destruct (DeleteItem_commit _ _ _ _ _ _ _ Hq H)
    as (m & l & _ & _ & _ & Hview & _).
  split.
  - by rewrite GetItemContent_fst, Hv, Hview.
  - destruct (getItemMetaWithCache_reliable E itemID itemTypeStr w' Hv)
      as (c & evs & Hl & _).
    rewrite Hview in Hl.
    unfold ApplyItemChanges, func, bind, call, ret, Return. cbv beta zeta.
    rewrite Hv. cbn [negb]. by rewrite Hl.
Qed.

Lemma read_after_DeleteItem_witness :
  fst (GetItemContent (reliable Sample.env0) "alice" "p1" "post" Sample.w_read_deleted)
    = ("", 0, Some ErrItemNotFound) /\
  fst (ApplyItemChanges (reliable Sample.env0) "alice" "p1" "post" 1 [Sample.insert_d]
         Sample.w_read_deleted)
    = (0, [], Some ErrItemNotFound).
Proof.
  apply (read_after_DeleteItem Sample.env0 "alice" "p1" "post" Sample.w_read
           Sample.w_read_deleted (MetaPost Sample.post1) 1 [Sample.insert_d]).
  - vm_compute. reflexivity.
  - vm_compute. reflexivity.
Defined.

(** X7. Register, then log in.  Where no adapter call fails, bcrypt accepts
    the hash it made of the password and the token can be signed, a login
    with the name and password of a successful registration succeeds: it
    returns the token for that name and the very user record that the
    registration returned, and leaves that record, which has no password
    hash, in the user cache when Redis is on. *)
Theorem login_after_RegisterUser
    (E : Env) (username password token : string) (w w1 : World) (user : User) :
  (forall h, bcrypt_GenerateFromPassword E password = Ok h ->
             bcrypt_CompareHashAndPassword E h password = true) ->
  auth_GenerateJWT E username = Ok token ->
  RegisterUser (reliable E) username password w = (Ok user, w1) ->
  exists w2,
    LoginUser (reliable E) username password w1 = (Ok (token, user), w2) /\
    PasswordHash user = "" /\
    (cacheEnabled E = true -> c_users (cache w2) !! username = Some user).
Proof.
  intros Hbc Hjwt H. unfold RegisterUser in H. paths.
  all: cbn [reliable bcrypt_GenerateFromPassword] in *.
  all: match goal with Hg : bcrypt_GenerateFromPassword _ _ = Ok _ |- _ =>
         specialize (Hbc _ Hg) end.
  all: repeat match goal with
         | H : time_Now _ = _ |- _ => unfold time_Now in H; simplify_eq
         | H : db_CreateUser _ _ _ = _ |- _ => fwd H
         end.
  all: unfold LoginUser; unfold_calls; step.
  all: repeat (first [rewrite lookup_insert_eq | rewrite Hbc | rewrite Hjwt | branch];
               simplify_eq; step).
  all: eexists; (split; [reflexivity|]); (split; [reflexivity|]); step.
  all: intros; by rewrite ?lookup_insert_eq.
Qed.

Lemma login_after_RegisterUser_witness :
  exists w2,
    LoginUser (reliable Sample.env0) "bob" "pw" Sample.w_registered
    = (Ok ("jwt:bob", Sample.bob), w2) /\
    PasswordHash Sample.bob = "" /\
    (cacheEnabled Sample.env0 = true -> c_users (cache w2) !! "bob" = Some Sample.bob).
Proof.
  apply (login_after_RegisterUser Sample.env0 "bob" "pw" "jwt:bob" Sample.w0
           Sample.w_registered Sample.bob).
  - intros h Hh. vm_compute in Hh. injection Hh as <-. vm_compute. reflexivity.
  - vm_compute. reflexivity.
  - vm_compute. reflexivity.
Defined.

Lemma errors_Is_refl e : errors_Is e e = true.
Proof. destruct e; cbn; by rewrite bool_decide_eq_true_2. Qed.

(** X8. A name can be registered once.  Where no adapter call fails, the
    registration of a non-empty name that the user store already has is
    turned down with [ErrUsernameTaken], whatever the password, and the user
    store, with the hash it holds for that name, stays as it was. *)
Theorem RegisterUser_of_a_taken_name
    (E : Env) (username password hash : string) (w : World) (existing : User) :
  username <> "" ->
  users (db w) !! username = Some existing ->
  bcrypt_GenerateFromPassword E password = Ok hash ->
  exists w',
    RegisterUser (reliable E) username password w = (Err ErrUsernameTaken, w') /\
    users (db w') = users (db w) /\ cache w' = cache w.
Proof.
  intros Hne Hex Hbc. apply String.eqb_neq in Hne.
  unfold RegisterUser. unfold_calls. step. rewrite Hbc. step.
  rewrite Hne, Hex, errors_Is_refl. eexists. split; [reflexivity|]. done.
Qed.

Lemma RegisterUser_of_a_taken_name_witness :
  exists w',
    RegisterUser (reliable Sample.env0) "bob" "other" Sample.w_registered
    = (Err ErrUsernameTaken, w') /\
    users (db w') = users (db Sample.w_registered) /\
    cache w' = cache Sample.w_registered.
Proof.
  apply (RegisterUser_of_a_taken_name Sample.env0 "bob" "other" "bcrypt:other"
           Sample.w_registered (mkUser "bob" "bob" "bcrypt:pw" 101)).
  - discriminate.
  - vm_compute. reflexivity.
  - vm_compute. reflexivity.
Defined.

(** X9. Where no adapter call fails, a login under a name the user store
    does not have, or with a password that bcrypt does not accept for the
    stored hash, returns [ErrInvalidCredentials] and writes nothing: the
    stores and the cache are as before. *)
Theorem LoginUser_rejects
    (E : Env) (username password : string) (w : World) :
  match users (db w) !! username with
  | None => True
  | Some u => bcrypt_CompareHashAndPassword E (PasswordHash u) password = false
  end ->
  exists w',
    LoginUser (reliable E) username password w = (Err ErrInvalidCredentials, w') /\
    db w' = db w /\ blobs w' = blobs w /\ cache w' = cache w.
Proof.
  intros H. unfold LoginUser. unfold_calls. step.
  destruct (users (db w) !! username) as [u|] eqn:Hu.
  all: repeat (first [rewrite H | rewrite errors_Is_refl | branch]; simplify_eq; step).
  all: eexists; (split; [reflexivity|]); cbn; repeat split; by destruct w.
Qed.

Lemma LoginUser_rejects_witness :
  exists w',
    LoginUser (reliable Sample.env0) "bob" "guess" Sample.w_registered
    = (Err ErrInvalidCredentials, w') /\
    db w' = db Sample.w_registered /\ blobs w' = blobs Sample.w_registered /\
    cache w' = cache Sample.w_registered.
Proof.
  apply (LoginUser_rejects Sample.env0 "bob" "guess" Sample.w_registered).
  vm_compute. reflexivity.
Defined.

#[local] Existing Instance newer_first_dec.

#[local] Instance newer_first_total : Total newer_first.
Proof. intros a b. unfold newer_first. lia. Qed.

#[local] Instance newer_first_trans : Transitive newer_first.
Proof. intros a b c. unfold newer_first. lia. Qed.

Lemma StronglySorted_take {A} (R : relation A) n l :
  StronglySorted R l -> StronglySorted R (take n l).
Proof.
  intros H. revert n. induction H as [|x l Hl IH Hx]; intros [|n]; cbn;
    try constructor; [apply IH | by apply Forall_take].
Qed.

Lemma db_GetActionHistory_inv E itemID itemType limit w r w' :
  db_GetActionHistory E itemID itemType limit w = (r, w') ->
  w' = record_event (Call (DbGetActionHistory itemID itemType limit) (err_of r)) w /\
  match r with
  | Ok h =>
      let sorted :=
        merge_sort newer_first
          (filter (fun l => Log_ItemID l = itemID /\ Log_ItemType l = itemType)
             (history (db w))) in
      h = if Z.ltb 0 limit then take (Z.to_nat limit) sorted else sorted
  | Err _ => True
  end.
Proof.
  unfold db_GetActionHistory, db_call. intros H.
  apply adapter_inv in H as [(Hf & -> & ->) | (Hf & wb & Hb & ->)]; [done|].
  by simplify_eq.
Qed.

(** X10. The entries that a successful [GetHistory] returns are entries of
    the stored history of the item asked for, newest first; with a positive
    limit there are at most that many, and with a limit of zero or less every
    entry of the item is among them.  The call changes neither the metadata
    store nor the blobs. *)
Theorem GetHistory_returns_the_newest_entries
    (E : Env) (userID itemID itemTypeStr : string) (limit : Z) (w w' : World)
    (h : list HistoryLog) :
  GetHistory E userID itemID itemTypeStr limit w = ((h, None), w') ->
  StronglySorted newer_first h /\
  (forall l, l ∈ h ->
     l ∈ history (db w) /\ Log_ItemID l = itemID /\ Log_ItemType l = itemTypeStr) /\
  (0 < limit -> (length h <= Z.to_nat limit)%nat) /\
  (limit <= 0 ->
   forall l, l ∈ history (db w) -> Log_ItemID l = itemID ->
             Log_ItemType l = itemTypeStr -> l ∈ h) /\
  db w' = db w /\ blobs w' = blobs w.
Proof.
  unfold GetHistory. intros H. paths; try not_a_type.
  all: match goal with
       | Hh : db_GetActionHistory _ _ _ _ _ = _ |- _ =>
           apply db_GetActionHistory_inv in Hh as [-> Hh]; cbv zeta in Hh
       end.
  all: inv_calls.
  all: set (entries := filter _ _) in *.
  all: assert (Hin : forall l, l ∈ merge_sort newer_first entries <->
                       l ∈ history (db w) /\ Log_ItemID l = itemID /\
                       Log_ItemType l = itemTypeStr)
         by (intros l; rewrite merge_sort_Permutation; subst entries;
             rewrite list_elem_of_filter; naive_solver).
  all: pose proof (StronglySorted_merge_sort newer_first entries) as Hs.
  all: destruct (Z.ltb_spec 0 limit); subst h.
  all: split; [by try apply StronglySorted_take|].
  all: split; [intros l Hl; try apply subseteq_take in Hl; by apply Hin|].
  all: split; [intros ?; try (rewrite length_take); lia|].
  all: split; [intros ? l ? ? ?; try lia; by apply Hin|done].
Qed.

Lemma GetHistory_returns_the_newest_entries_witness :
  StronglySorted newer_first [Sample.patch_log] /\
  (forall l, l ∈ [Sample.patch_log] ->
     l ∈ history (db Sample.w_patched) /\ Log_ItemID l = "p1" /\ Log_ItemType l = "post") /\
  (0 < 1 -> (length [Sample.patch_log] <= Z.to_nat 1)%nat) /\
  (1 <= 0 ->
   forall l, l ∈ history (db Sample.w_patched) -> Log_ItemID l = "p1" ->
             Log_ItemType l = "post" -> l ∈ [Sample.patch_log]) /\
  db (snd (GetHistory Sample.env0 "alice" "p1" "post" 1 Sample.w_patched))
    = db Sample.w_patched /\
  blobs (snd (GetHistory Sample.env0 "alice" "p1" "post" 1 Sample.w_patched))
    = blobs Sample.w_patched.
Proof.
  apply (GetHistory_returns_the_newest_entries Sample.env0 "alice" "p1" "post" 1
           Sample.w_patched
           (snd (GetHistory Sample.env0 "alice" "p1" "post" 1 Sample.w_patched))
           [Sample.patch_log]).
  vm_compute. reflexivity.
Defined.

(** X12. [GetPostDetails] and [GetCodeFileDetails] return exactly what the
    metadata lookup returns for their item type, in the world the lookup
    leaves: the record it found, or its error.  The branch for a record of
    the wrong dynamic type is never taken, so neither function ever evicts a
    cache entry or reports its internal error. *)
Theorem details_are_the_lookup (E : Env) (itemID : string) (w : World) :
  match getItemMetaWithCache E itemID ItemTypePost w with
  | (Ok (MetaPost p), w') => GetPostDetails E itemID w = (Ok p, w')
  | (Ok (MetaCodeFile _), _) => False
  | (Err e, w') => GetPostDetails E itemID w = (Err e, w')
  end /\
  match getItemMetaWithCache E itemID ItemTypeCodeFile w with
  | (Ok (MetaCodeFile f), w') => GetCodeFileDetails E itemID w = (Ok f, w')
  | (Ok (MetaPost _), _) => False
  | (Err e, w') => GetCodeFileDetails E itemID w = (Err e, w')
  end.
Proof.
  unfold GetPostDetails, GetCodeFileDetails, func, bind, call, ret, Return.
  destruct (getItemMetaWithCache E itemID ItemTypePost w) as [r1 w1] eqn:H1.
  destruct (getItemMetaWithCache E itemID ItemTypeCodeFile w) as [r2 w2] eqn:H2.
  split.
  - destruct r1 as [[p|f]|e]; [done| |done].
    apply getItemMetaWithCache_typed in H1.
    destruct H1 as [[_ [p ?]] | [? _]]; done.
  - destruct r2 as [[p|f]|e]; [|done|done].
    apply getItemMetaWithCache_typed in H2.
    destruct H2 as [[? _] | [_ [f ?]]]; done.
Qed.

(** X13. Between calls the change counter of an item stays below the
    interval: when snapshots are on, the counter is not negative and adding
    the number of changes does not overflow, [handleSnapshotting] leaves the
    item's counter at a value from zero up to, but not including, the
    interval, and the counters of all other items as they were. *)
Theorem handleSnapshotting_keeps_the_counter_below_the_interval
    (E : Env) (userID itemID itemType itemTypeStr : string) (v : Z) (path : string)
    (n : Z) (w w' : World) (u : unit) :
  handleSnapshotting E userID itemID itemType itemTypeStr v path n w = (u, w') ->
  0 < IntervalChanges E ->
  0 <= n -> 0 <= default 0 (changeCounters w !! counterKey itemType itemID) ->
  default 0 (changeCounters w !! counterKey itemType itemID) + n <= GoInt.max_int ->
  0 <= default 0 (changeCounters w' !! counterKey itemType itemID) < IntervalChanges E /\
  forall key, key <> counterKey itemType itemID ->
              changeCounters w' !! key = changeCounters w !! key.
Proof.
  intros H Hi Hn Hc Hmax.
  apply handleSnapshotting_form in H. cbv zeta in H.
  rewrite GoIntFacts.add_no_overflow in H
    by (unfold GoInt.in_range, GoInt.min_int, GoInt.max_int in *; lia).
  destruct H as [[? _] | [(_ & Hlt & ->) | (_ & Hge & h & t & o & -> & _)]]; [lia| |].
  all: unfold with_history; cbn; rewrite lookup_insert_eq; cbn.
  all: split; [lia|]; intros key Hk; by rewrite lookup_insert_ne.
Qed.

Lemma handleSnapshotting_keeps_the_counter_below_the_interval_witness :
  0 <= default 0 (changeCounters
                    (snd (handleSnapshotting Sample.env0 "alice" "p1" "post" "post" 2
                            "post/alice/p1" 1 Sample.w0))
                  !! counterKey "post" "p1") < IntervalChanges Sample.env0 /\
  forall key, key <> counterKey "post" "p1" ->
    changeCounters (snd (handleSnapshotting Sample.env0 "alice" "p1" "post" "post" 2
                           "post/alice/p1" 1 Sample.w0)) !! key
    = changeCounters Sample.w0 !! key.
Proof.
  apply (handleSnapshotting_keeps_the_counter_below_the_interval Sample.env0
           "alice" "p1" "post" "post" 2 "post/alice/p1" 1 Sample.w0
           (snd (handleSnapshotting Sample.env0 "alice" "p1" "post" "post" 2
                   "post/alice/p1" 1 Sample.w0)) tt).
  - vm_compute. reflexivity.
  - reflexivity.
  - lia.
  - by vm_compute.
  - by vm_compute.
Defined.

(** X14. The compare-and-set of the metadata store lets one of two writers
    through: where no adapter call fails, after an [UpdatePostMeta] that
    succeeded, an [UpdatePostMeta] of the same post that expects the same
    version fails with [ErrVersionMismatch] and leaves the store as it is. *)
Theorem UpdatePostMeta_twice_with_one_version
    (E : Env) (post post' : Post) (w w1 : World) (a : unit) :
  db_UpdatePostMeta (reliable E) post w = (Ok a, w1) ->
  Post_ID post' = Post_ID post -> Post_Version post' = Post_Version post ->
  exists w2,
    db_UpdatePostMeta (reliable E) post' w1 = (Err DbErrVersionMismatch, w2) /\
    db w2 = db w1.
Proof.
  intros H Hid Hv. fwd H. eqb_facts.
  unfold_calls. step. rewrite Hid, lookup_insert_eq. step. rewrite Hv.
  match goal with H : Post_Version _ = Post_Version post |- _ => rewrite H end.
  destruct (Z.eqb_spec (GoInt.add (Post_Version post) 1) (Post_Version post)) as [Heq|_];
    [by apply add_one_changes in Heq|].
  eexists. split; [reflexivity|]. done.
Qed.

Lemma UpdatePostMeta_twice_with_one_version_witness :
  exists w2,
    db_UpdatePostMeta (reliable Sample.env0) Sample.post1 Sample.w_updated
    = (Err DbErrVersionMismatch, w2) /\
    db w2 = db Sample.w_updated.
Proof.
  apply (UpdatePostMeta_twice_with_one_version Sample.env0 Sample.post1 Sample.post1
           Sample.w0 Sample.w_updated tt).
  - vm_compute. reflexivity.
  - reflexivity.
  - reflexivity.
Defined.

Lemma RevertToAction_commit E userID targetLogID w w' v :
  (forall itemID itemType, cache_entry_sound w itemID itemType) ->
  RevertToAction (reliable E) userID targetLogID w = ((v, None), w') ->
  exists targetLog bytes m,
    targetLog ∈ history (db w) /\ Log_ID targetLog = targetLogID /\
    blobs w !! S3PathAfter targetLog = Some bytes /\
    meta_view E w (Log_ItemID targetLog) (Log_ItemType targetLog) = Some m /\
    blobs w' = <[meta_s3path m := bytes]> (blobs w) /\
    fst (GetItemContent (reliable E) userID (Log_ItemID targetLog)
           (Log_ItemType targetLog) w') = (bytes, v, None) /\
    changeCounters w' !! counterKey (Log_ItemType targetLog) (Log_ItemID targetLog)
    = None.
Proof.
  intros Hok H. unfold RevertToAction in H. paths; try not_a_type.
  all: match goal with
       | Hg : db_GetHistoryLogByID _ _ _ = _ |- _ =>
           apply db_GetHistoryLogByID_inv in Hg as [-> [Hin Hlid]]
       end.
  all: match goal with
       | Hl : getItemMetaWithCache _ ?i ?t ?w0 = _, Hv : negb (IsValid _) = false |- _ =>
           apply negb_false_iff in Hv;
           destruct (getItemMetaWithCache_reliable E i t w0 Hv)
             as (c & evs & Heq & Hu & Hc & Hview);
           rewrite Heq in Hl; clear Heq;
           destruct (meta_view E w0 i t) as [m|] eqn:Hm; simplify_eq
       end.
  all: change (meta_view E (record_event ?ev w) ?i ?t) with (meta_view E w i t) in Hm.
  all: destruct (meta_view_sound _ _ _ _ _ (Hok _ _) Hm) as [Hid Hown];
    cbn [meta_id meta_owner] in Hid, Hown.
  all: clear Hview.
  all: eqb_facts.
  all: match goal with Hty : Log_ItemType _ = _ |- _ => rewrite Hty in * end.
  all: unfold stored_meta in Hown; types.
  all: rewrite <- Hid in *.
  all: repeat match goal with
         | H : storage_DownloadFile _ _ _ = _ |- _ => fwd H
         | H : io_ReadAll _ _ _ _ = _ |- _ => fwd H
         | H : storage_UploadFile _ _ _ _ _ = _ |- _ => fwd H
         | H : time_Now _ = _ |- _ => unfold time_Now in H; simplify_eq
         | H : db_UpdatePostMeta _ _ _ = _ |- _ => fwd H
         | H : db_UpdateCodeFileMeta _ _ _ = _ |- _ => fwd H
         | H : cache_DeleteItemMeta _ _ _ _ = _ |- _ => fwd H
         | H : cache_InvalidateItemContent _ _ _ _ = _ |- _ => fwd H
         | H : cache_SetItemContent _ _ _ _ _ _ = _ |- _ => fwd H
         | H : db_LogAction _ _ _ = _ |- _ => fwd H
         end.
  all: eexists _, _, _; (split; [exact Hin|]); (split; [reflexivity|]);
    (split; [eassumption|]).
  all: match goal with Hty : Log_ItemType _ = _ |- _ => rewrite Hty end.
  all: rewrite <- ?Hid.
  all: (split; [exact Hm|]); (split; [reflexivity|]).
  all: rewrite GetItemContent_fst.
  all: cbn [IsValid]; unfold IsValid; types.
  all: unfold meta_view, cached_meta, stored_meta, content_view; step.
  all: rewrite ?lookup_delete_eq, ?lookup_insert_eq; step.
  all: repeat match goal with
         | H : ?t = _ |- context [?t] => known t; rewrite H
         end; rewrite ?lookup_insert_eq; step.
  all: specialize (Hown _ eq_refl); cbn in Hown.
  all: rewrite ?Hown.
  all: repeat match goal with
         | H : ?t = _ |- context [?t] => known t; rewrite H
         end; rewrite ?lookup_insert_eq; step.
  all: eqb_facts.
  all: repeat match goal with
         | H : Post_Version _ = Post_Version _ |- _ => rewrite H
         | H : File_Version _ = File_Version _ |- _ => rewrite H
         end.
  all: by rewrite ?lookup_insert_eq.
Qed.

(** X15. Read after revert.  Where no adapter call fails and every cached
    record is its item's and names the stored owner, a read that follows a
    successful [RevertToAction] returns the version the revert returned and
    the bytes that the blob store held under the target entry's
    [S3PathAfter] when the revert began; the change counter of the item is
    gone. *)
Theorem read_after_RevertToAction
    (E : Env) (userID targetLogID : string) (w w' : World) (v : Z) :
  (forall itemID itemType, cache_entry_sound w itemID itemType) ->
  RevertToAction (reliable E) userID targetLogID w = ((v, None), w') ->
  exists targetLog bytes,
    targetLog ∈ history (db w) /\ Log_ID targetLog = targetLogID /\
    blobs w !! S3PathAfter targetLog = Some bytes /\
    fst (GetItemContent (reliable E) userID (Log_ItemID targetLog)
           (Log_ItemType targetLog) w') = (bytes, v, None) /\
    changeCounters w' !! counterKey (Log_ItemType targetLog) (Log_ItemID targetLog)
    = None.
Proof.
  intros Hok H.
  destruct (RevertToAction_commit _ _ _ _ _ _ Hok H)
    as (l & bytes & m & ? & ? & ? & ? & ? & ? & ?).
  by exists l, bytes.
Qed.

Lemma read_after_RevertToAction_witness :
  exists targetLog bytes,
    targetLog ∈ history (db Sample.w_patched) /\ Log_ID targetLog = "log-0" /\
    blobs Sample.w_patched !! S3PathAfter targetLog = Some bytes /\
    fst (GetItemContent (reliable Sample.env0) "alice" (Log_ItemID targetLog)
           (Log_ItemType targetLog) Sample.w_reverted) = (bytes, 3, None) /\
    changeCounters Sample.w_reverted
      !! counterKey (Log_ItemType targetLog) (Log_ItemID targetLog) = None.
Proof.
  apply (read_after_RevertToAction Sample.env0 "alice" "log-0" Sample.w_patched
           Sample.w_reverted 3).
  - intros itemID itemType m Hm. unfold cached_meta in Hm.
    change (c_posts (cache Sample.w_patched)) with (∅ : gmap string Post) in Hm.
    change (c_codefiles (cache Sample.w_patched)) with (∅ : gmap string CodeFile) in Hm.
    rewrite !lookup_empty in Hm. by repeat case_match.
  - vm_compute. reflexivity.
Defined.

(** X16. A revert restores the bytes under the target entry's path, not an
    earlier state of that path: where no adapter call fails and every cached
    record is its item's and names the stored owner, a successful
    [RevertToAction] whose target entry has as [S3PathAfter] the path of the
    item's current record leaves the blob store exactly as it was. *)
Theorem RevertToAction_to_the_current_path
    (E : Env) (userID targetLogID : string) (w w' : World) (v : Z) :
  (forall itemID itemType, cache_entry_sound w itemID itemType) ->
  RevertToAction (reliable E) userID targetLogID w = ((v, None), w') ->
  exists targetLog m,
    targetLog ∈ history (db w) /\ Log_ID targetLog = targetLogID /\
    meta_view E w (Log_ItemID targetLog) (Log_ItemType targetLog) = Some m /\
    (S3PathAfter targetLog = meta_s3path m -> blobs w' = blobs w).
Proof.
  intros Hok H.
  destruct (RevertToAction_commit _ _ _ _ _ _ Hok H)
    as (l & bytes & m & ? & ? & Hb & ? & Hb' & _).
  exists l, m. repeat (split; [done|]).
  intros Hp. rewrite Hb', <- Hp. by apply insert_id.
Qed.

Lemma RevertToAction_to_the_current_path_witness :
  exists targetLog m,
    targetLog ∈ history (db Sample.w_patched) /\ Log_ID targetLog = "log-0" /\
    meta_view Sample.env0 Sample.w_patched (Log_ItemID targetLog) (Log_ItemType targetLog)
      = Some m /\
    (S3PathAfter targetLog = meta_s3path m -> blobs Sample.w_reverted = blobs Sample.w_patched).
Proof.
  apply (RevertToAction_to_the_current_path Sample.env0 "alice" "log-0" Sample.w_patched
           Sample.w_reverted 3).
  - intros itemID itemType m Hm. unfold cached_meta in Hm.
    change (c_posts (cache Sample.w_patched)) with (∅ : gmap string Post) in Hm.
    change (c_codefiles (cache Sample.w_patched)) with (∅ : gmap string CodeFile) in Hm.
    rewrite !lookup_empty in Hm. by repeat case_match.
  - vm_compute. reflexivity.
Defined.

(** * The keys of the Redis cache and of the change counters *)

Lemma pretty_N_char_no_colon x : pretty_N_char x <> ":"%char.
Proof. unfold pretty_N_char. repeat case_match; done. Qed.

Lemma pretty_N_go_no_colon x s : free_of ":" s -> free_of ":" (pretty_N_go x s).
Proof.
  revert s. induction (N.lt_wf_0 x) as [x _ IH]; intros s Hs.
  destruct (decide (0 < x)%N) as [Hx|Hx].
  - rewrite pretty_N_go_step by done. apply IH.
    + apply N.div_lt; lia.
    + split; [apply pretty_N_char_no_colon | done].
  - assert (x = 0%N) as -> by lia. by rewrite pretty_N_go_0.
Qed.

Lemma pretty_Z_no_colon (z : Z) : free_of ":" (pretty z).
Proof.
  destruct z as [|p|p]; unfold pretty, pretty_Z.
  - cbn. by split.
  - by apply pretty_N_go_no_colon.
  - change (free_of ":" (String "-" (pretty (N.pos p)))). split; [done|].
    by apply pretty_N_go_no_colon.
Qed.

(** A string is cut in one way only at its last separator. *)
Lemma cut_at_last sep a b t1 t2 :
  free_of sep t1 -> free_of sep t2 ->
  a +:+ String sep t1 = b +:+ String sep t2 -> a = b /\ t1 = t2.
Proof.
  intros H1 H2. revert b. induction a as [|c a IH]; intros [|c' b] H;
    cbv [String.append] in H; fold String.append in H.
  - by simplify_eq.
  - simplify_eq. exfalso. clear -H1. induction b as [|x b IHb]; cbn in H1.
    + by destruct H1.
    + apply IHb. by destruct H1.
  - simplify_eq. exfalso. clear -H2. induction a as [|x a IHa]; cbn in H2.
    + by destruct H2.
    + apply IHa. by destruct H2.
  - simplify_eq. destruct (IH b) as [-> ->]; done.
Qed.

Lemma valid_type_cases t : IsValid t = true -> t = "post" \/ t = "codefile".
Proof.
  unfold IsValid, ItemTypePost, ItemTypeCodeFile.
  destruct (String.eqb_spec t "post"); [by left|].
  destruct (String.eqb_spec t "codefile"); [by right|done].
Qed.

Lemma typed_key_inj t1 t2 r1 r2 :
  IsValid t1 = true -> IsValid t2 = true ->
  t1 +:+ ":" +:+ r1 = t2 +:+ ":" +:+ r2 -> t1 = t2 /\ r1 = r2.
Proof.
  intros [-> | ->]%valid_type_cases [-> | ->]%valid_type_cases H;
    cbv [String.append] in H; fold String.append in H; by simplify_eq.
Qed.

(** X17. Redis keys do not collide.  Under any key prefix and for the two
    valid item types, the key of a cached text determines the item type,
    the item id and the version, the key of a cached metadata record
    determines the item type and the item id, the key of a cached user
    determines the user id, and no key of one of the three kinds is a key of
    another kind. *)
Theorem redis_keys_do_not_collide
    (prefix itemID itemID' itemType itemType' userID userID' : string)
    (version version' : Z) :
  IsValid itemType = true -> IsValid itemType' = true ->
  (RedisCache.itemContentKey prefix itemID itemType version
   = RedisCache.itemContentKey prefix itemID' itemType' version' ->
   itemType = itemType' /\ itemID = itemID' /\ version = version') /\
  (RedisCache.itemMetaKey prefix itemID itemType
   = RedisCache.itemMetaKey prefix itemID' itemType' ->
   itemType = itemType' /\ itemID = itemID') /\
  (RedisCache.userKey prefix userID = RedisCache.userKey prefix userID' ->
   userID = userID') /\
  RedisCache.userKey prefix userID <> RedisCache.itemMetaKey prefix itemID itemType /\
  RedisCache.userKey prefix userID
    <> RedisCache.itemContentKey prefix itemID itemType version /\
  RedisCache.itemMetaKey prefix itemID itemType
    <> RedisCache.itemContentKey prefix itemID' itemType' version'.
Proof.
  intros Hv Hv'.
  unfold RedisCache.itemContentKey, RedisCache.itemMetaKey, RedisCache.userKey.
  split; [|split; [|split; [|split; [|split]]]].
  - intros H. do 2 apply (inj (String.append _)) in H.
    apply typed_key_inj in H as [-> H]; [|done..]. split; [done|].
    change (itemID +:+ String ":" ("v" +:+ pretty version)
            = itemID' +:+ String ":" ("v" +:+ pretty version')) in H.
    apply cut_at_last in H as [-> H];
      [| split; [done | apply pretty_Z_no_colon]..].
    split; [done|].
    apply (inj (String.append _)) in H. by apply (inj pretty) in H.
  - intros H. do 2 apply (inj (String.append _)) in H.
    by apply typed_key_inj in H.
  - intros H. by do 2 apply (inj (String.append _)) in H.
  - intros H. apply (inj (String.append _)) in H.
    cbv [String.append] in H; fold String.append in H. by simplify_eq.
  - intros H. apply (inj (String.append _)) in H.
    cbv [String.append] in H; fold String.append in H. by simplify_eq.
  - intros H. apply (inj (String.append _)) in H.
    cbv [String.append] in H; fold String.append in H. by simplify_eq.
Qed.

Lemma redis_keys_do_not_collide_witness :
  (RedisCache.itemContentKey "gbc:" "p1" "post" 2
   = RedisCache.itemContentKey "gbc:" "p1:v1" "post" 2 ->
   "post" = "post" /\ "p1" = "p1:v1" /\ 2 = 2) /\
  (RedisCache.itemMetaKey "gbc:" "p1" "post"
   = RedisCache.itemMetaKey "gbc:" "p1:v1" "post" ->
   "post" = "post" /\ "p1" = "p1:v1") /\
  (RedisCache.userKey "gbc:" "alice" = RedisCache.userKey "gbc:" "bob" ->
   "alice" = "bob") /\
  RedisCache.userKey "gbc:" "alice" <> RedisCache.itemMetaKey "gbc:" "p1" "post" /\
  RedisCache.userKey "gbc:" "alice" <> RedisCache.itemContentKey "gbc:" "p1" "post" 2 /\
  RedisCache.itemMetaKey "gbc:" "p1" "post"
    <> RedisCache.itemContentKey "gbc:" "p1:v1" "post" 2.
Proof.
  apply (redis_keys_do_not_collide "gbc:" "p1" "p1:v1" "post" "post" "alice" "bob" 2 2);
    reflexivity.
Defined.

(** X18. Items do not share a change counter: for the two valid item types
    the key under which the service counts the changes of an item
    determines the item type and the item id. *)
Theorem counterKey_separates_items (itemType itemType' itemID itemID' : string) :
  IsValid itemType = true -> IsValid itemType' = true ->
  counterKey itemType itemID = counterKey itemType' itemID' ->
  itemType = itemType' /\ itemID = itemID'.
Proof. intros Hv Hv' H. by apply typed_key_inj in H. Qed.

Lemma counterKey_separates_items_witness :
  "post" = "post" /\ "p1" = "p1".
Proof.
  apply (counterKey_separates_items "post" "post" "p1" "p1"); reflexivity.
Defined.

(** * Configuration and the choice of the adapters *)

(** X19. The service runs on the Redis cache exactly when [REDIS_ENABLED]
    (taken as "true" when it is not set) parses to true, [REDIS_ADDR] is not
    set to the empty string, and the ping succeeds; in every other case
    [main] falls back to [NoOpCache]. *)
Theorem redis_is_used_exactly_when_configured
    (strconv_Atoi : string -> Z) (strconv_ParseBool : string -> bool)
    (env : Config.Environ) (ping : option error) :
  Config.main_uses_redis
    (Config.Redis (Config.LoadConfig strconv_Atoi strconv_ParseBool env)) ping = true
  <->
  strconv_ParseBool (Config.getEnv env "REDIS_ENABLED" "true") = true /\
  env !! "REDIS_ADDR" <> Some "" /\
  ping = None.
Proof.
  unfold Config.main_uses_redis, Config.NewRedisCache, Config.LoadConfig, Config.getEnv.
  cbn.
  destruct (strconv_ParseBool _); cbn.
  - destruct (env !! "REDIS_ADDR") as [a|] eqn:Ha; cbn.
    + destruct (String.eqb_spec a "") as [->|Hne]; cbn.
      * split; [done|]. by intros (_ & ? & _).
      * destruct ping; split; try done; [by intros (_ & _ & ?)|].
        intros _. repeat split. congruence.
    + destruct ping; split; try done. by intros (_ & _ & ?).
  - split; [done|]. by intros [? _].
Qed.

(** X20. An adapter is only constructed from a complete configuration.
    When [NewDBAdapter], given the loaded configuration, goes on to a
    client constructor, the variables of that backend are set and not
    empty, and [DB_TYPE] names the backend (or, for MongoDB, is not set at
    all); when [NewStorageAdapter] goes on to the S3 client, [S3_BUCKET_NAME]
    and [AWS_REGION] are set and not empty and [STORAGE_TYPE] is "s3" or not
    set. *)
Theorem adapters_need_their_settings
    (strconv_Atoi : string -> Z) (strconv_ParseBool : string -> bool)
    (env : Config.Environ) :
  let cfg := Config.LoadConfig strconv_Atoi strconv_ParseBool env in
  (forall choice, Config.NewDBAdapter (Config.Database cfg) = Ok choice ->
     match choice with
     | Config.NewMongoClient uri dbName =>
         (env !! "DB_TYPE" = None \/ env !! "DB_TYPE" = Some "mongodb") /\
         env !! "MONGO_URI" = Some uri /\ uri <> "" /\
         env !! "MONGO_DB_NAME" = Some dbName /\ dbName <> ""
     | Config.NewDynamoDBClient region tableName =>
         env !! "DB_TYPE" = Some "dynamodb" /\
         env !! "AWS_REGION" = Some region /\ region <> "" /\
         env !! "DYNAMO_TABLE_NAME" = Some tableName /\ tableName <> ""
     | Config.NewFirestoreClient projectID _ =>
         env !! "DB_TYPE" = Some "firestore" /\
         env !! "FIRESTORE_PROJECT_ID" = Some projectID /\ projectID <> ""
     end) /\
  (forall scfg, Config.NewStorageAdapter (Config.Storage cfg) = Ok (Config.NewS3Client scfg) ->
     scfg = Config.Storage cfg /\
     (env !! "STORAGE_TYPE" = None \/ env !! "STORAGE_TYPE" = Some "s3") /\
     env !! "S3_BUCKET_NAME" = Some (Config.S3Bucket scfg) /\ Config.S3Bucket scfg <> "" /\
     env !! "AWS_REGION" = Some (Config.S3Region scfg) /\ Config.S3Region scfg <> "").
Proof.
  cbv zeta. unfold Config.NewDBAdapter, Config.NewStorageAdapter, Config.LoadConfig,
    Config.getEnv. cbn. split.
  - intros choice H.
    destruct (env !! "DB_TYPE") as [t|] eqn:Ht;
      destruct (env !! "MONGO_URI") as [u|] eqn:Hu;
      destruct (env !! "MONGO_DB_NAME") as [n|] eqn:Hn;
      destruct (env !! "AWS_REGION") as [r|] eqn:Hr;
      destruct (env !! "DYNAMO_TABLE_NAME") as [d|] eqn:Hd;
      destruct (env !! "FIRESTORE_PROJECT_ID") as [p|] eqn:Hp;
      cbn in H.
    all: repeat match type of H with
           | context [String.eqb ?a ?b] =>
               destruct (String.eqb_spec a b); cbn in H; try discriminate H
           end.
    all: simplify_eq; naive_solver.
  - intros scfg H.
    destruct (env !! "STORAGE_TYPE") as [t|] eqn:Ht;
      destruct (env !! "S3_BUCKET_NAME") as [b|] eqn:Hb;
      destruct (env !! "AWS_REGION") as [r|] eqn:Hr;
      cbn in H.
    all: repeat match type of H with
           | context [String.eqb ?a ?b] =>
               destruct (String.eqb_spec a b); cbn in H; try discriminate H
           end.
    all: simplify_eq; cbn; naive_solver.
Qed.

(** * The bearer-token check *)

Lemma strings_Split_nonempty sep s : strings_Split sep s <> [].
Proof. destruct s as [|c s]; cbn; [done|]. repeat case_match; done. Qed.

Lemma strings_Split_one sep s b :
  strings_Split sep s = [b] <->
  b = s /\ Forall (fun c => c <> sep) (String.list_ascii_of_string s).
Proof.
  revert b. induction s as [|c s IH]; intros b; cbn.
  - split; [intros; simplify_eq; by split; [|constructor] | by intros [-> _]].
  - destruct (Ascii.eqb_spec c sep) as [->|Hne].
    + split.
      * intros H. simplify_eq.
        match goal with H : strings_Split _ _ = [] |- _ =>
          by apply strings_Split_nonempty in H end.
      * intros [_ H]. by apply Forall_cons in H as [? _].
    + destruct (strings_Split sep s) as [|p ps] eqn:Hs;
        [by apply strings_Split_nonempty in Hs|].
      split.
      * intros H. simplify_eq. destruct (proj1 (IH p) eq_refl) as [-> Hp].
        split; [done|]. by constructor.
      * intros [-> H]. apply Forall_cons in H as [_ H].
        pose proof (proj2 (IH s) (conj eq_refl H)). by simplify_eq.
Qed.

Lemma strings_Split_two sep s a b :
  strings_Split sep s = [a; b] <->
  s = a +:+ String sep b /\
  Forall (fun c => c <> sep) (String.list_ascii_of_string a) /\
  Forall (fun c => c <> sep) (String.list_ascii_of_string b).
Proof.
  revert a. induction s as [|c s IH]; intros a; cbn.
  - split; [done|]. intros [H _]. by destruct a; cbv [String.append] in H.
  - destruct (Ascii.eqb_spec c sep) as [->|Hne].
    + split.
      * intros H. simplify_eq.
        match goal with H : strings_Split _ _ = [_] |- _ =>
          apply strings_Split_one in H as [-> Hb] end.
        split; [done|]. split; [by constructor|done].
      * intros (H & Ha & Hb). destruct a as [|c' a]; cbv [String.append] in H; simplify_eq.
        -- f_equal. apply strings_Split_one. by split.
        -- by apply Forall_cons in Ha as [? _].
    + destruct (strings_Split sep s) as [|p ps] eqn:Hs;
        [by apply strings_Split_nonempty in Hs|].
      split.
      * intros H. simplify_eq. destruct (proj1 (IH p) eq_refl) as (-> & Hp & Hb).
        split; [done|]. split; [by constructor|done].
      * intros (H & Ha & Hb). destruct a as [|c' a]; cbv [String.append] in H; simplify_eq.
        apply Forall_cons in Ha as [_ Ha].
        pose proof (proj2 (IH a) (conj eq_refl (conj Ha Hb))). by simplify_eq.
Qed.

(** X21. The bearer check passes a request on exactly when its
    [Authorization] header is one scheme and one token with a single space
    between them and none inside them, the scheme lower-cases to "bearer",
    and the token validates; the user id in the context is then the one the
    validation returned.  A header with no space, or with more than one,
    is answered with 401, whatever it holds. *)
Theorem AuthMiddleware_passes_exactly_bearer_tokens
    (strings_ToLower : string -> string) (auth_ValidateJWT : string -> Result string)
    (authHeader userID : string) :
  AuthMiddleware strings_ToLower auth_ValidateJWT authHeader = Next userID <->
  exists scheme token,
    authHeader = scheme +:+ " " +:+ token /\
    no_space scheme /\ no_space token /\
    strings_ToLower scheme = "bearer" /\
    auth_ValidateJWT token = Ok userID.
Proof.
  unfold AuthMiddleware, no_space. split.
  - intros H. destruct (String.eqb authHeader ""); [done|]. cbv zeta in H.
    destruct (strings_Split " " authHeader) as [|a [|b [|? ?]]] eqn:Hs;
      cbn in H; try done.
    destruct (String.eqb_spec (strings_ToLower a) "bearer") as [Hl|]; cbn in H; [|done].
    destruct (auth_ValidateJWT b) as [u|] eqn:Hj; [|done]. simplify_eq.
    apply strings_Split_two in Hs as (-> & Ha & Hb). by exists a, b.
  - intros (a & b & -> & Ha & Hb & Hl & Hj).
    destruct (String.eqb_spec (a +:+ " " +:+ b) "") as [He|_];
      [by destruct a|].
    cbv zeta. rewrite (proj2 (strings_Split_two " " _ a b)) by done.
    cbn. by rewrite Hl, Hj.
Qed.

(** * The websocket hub *)

Module HubFacts.
Import Hub.

Lemma deliver_spec m cs chs :
  NoDup cs ->
  (forall c, c ∈ cs -> exists ch, chs !! c = Some ch /\ closed ch = false) ->
  exists chs' slow,
    deliver m cs chs = Some (chs', slow) /\
    (forall c, c ∉ cs -> chs' !! c = chs !! c) /\
    (forall c ch, c ∈ cs -> chs !! c = Some ch ->
       if has_room ch
       then chs' !! c = Some (mkChan (queue ch ++ [m]) (capacity ch) false) /\ c ∉ slow
       else chs' !! c = Some ch /\ c ∈ slow) /\
    (forall c, c ∈ slow -> c ∈ cs).
Proof.
  revert chs. induction cs as [|c cs IH]; intros chs Hnd Hopen; cbn [deliver].
  - exists chs, []. split; [done|]. split; [done|]. split; intros ?; set_solver.
  - apply NoDup_cons in Hnd as [Hc Hnd].
    destruct (Hopen c) as (ch & Hch & Hcl); [set_solver|].
    rewrite Hch. cbn [try_send]. rewrite Hcl.
    destruct (Nat.ltb (length (queue ch)) (capacity ch)) eqn:Hroom.
    + destruct (IH (<[c := mkChan (queue ch ++ [m]) (capacity ch) false]> chs) Hnd)
        as (chs' & slow & -> & Hout & Hin & Hslow).
      { intros c' Hc'. rewrite lookup_insert_ne by set_solver. apply Hopen. set_solver. }
      exists chs', slow. split; [done|]. split; [|split].
      * intros c' Hc'. rewrite Hout by set_solver. apply lookup_insert_ne. set_solver.
      * intros c' ch' Hc' Hch'. apply elem_of_cons in Hc' as [-> | Hc'].
        -- simplify_eq. unfold has_room. rewrite Hroom.
           rewrite Hout by done. rewrite lookup_insert_eq. split; [done|].
           intros Hs. by apply Hslow in Hs.
        -- apply Hin; [done|]. rewrite lookup_insert_ne; [done|]. set_solver.
      * intros c' Hc'. apply elem_of_cons. right. by apply Hslow.
    + destruct (IH (<[c := ch]> chs) Hnd) as (chs' & slow & -> & Hout & Hin & Hslow).
      { intros c' Hc'. rewrite lookup_insert_ne by set_solver. apply Hopen. set_solver. }
      exists chs', (c :: slow). split; [done|]. split; [|split].
      * intros c' Hc'. rewrite Hout by set_solver. apply lookup_insert_ne. set_solver.
      * intros c' ch' Hc' Hch'. apply elem_of_cons in Hc' as [-> | Hc'].
        -- simplify_eq. unfold has_room. rewrite Hroom.
           rewrite Hout by done. rewrite lookup_insert_eq. split; [done|]. set_solver.
        -- assert (c' <> c) by set_solver.
           specialize (Hin c' ch' Hc'). rewrite lookup_insert_ne in Hin by done.
           specialize (Hin Hch').
           destruct (has_room ch') eqn:Hr; rewrite ?Hr in Hin; destruct Hin as [? Hn];
             (split; [done|]); set_solver.
      * intros c' Hc'. apply elem_of_cons in Hc' as [-> | Hc']; [set_solver|].
        apply elem_of_cons. right. by apply Hslow.
Qed.

Lemma step_keeps_open ev s :
  registered_open s -> admissible ev s ->
  exists s', step ev s = Some s' /\ registered_open s'.
Proof.
  intros Hok Hadm. destruct ev as [c|c|m|c]; cbn.
  - eexists. split; [reflexivity|]. intros c' Hc'. cbn in *.
    apply elem_of_union in Hc' as [Hc'|Hc']; [|by apply Hok].
    apply elem_of_singleton in Hc' as ->. exact Hadm.
  - unfold unregister. destruct (decide (c ∈ clients s)) as [Hc|Hc]; [|by eauto].
    destruct (Hok c Hc) as (ch & Hch & Hcl). rewrite Hch. cbn. rewrite Hcl.
    eexists. split; [reflexivity|]. intros c' Hc'. cbn in *.
    apply elem_of_difference in Hc' as [Hc' Hne].
    rewrite lookup_insert_ne by set_solver. by apply Hok.
  - unfold broadcast.
    destruct (deliver_spec m (elements (clients s)) (chans s)) as
      (chs' & slow & -> & Hout & Hin & Hslow).
    { apply NoDup_elements. }
    { intros c Hc. apply Hok. by apply elem_of_elements. }
    cbn. eexists. split; [reflexivity|]. intros c Hc. cbn [clients chans] in *.
    destruct (Hok c Hc) as (ch & Hch & Hcl).
    assert (Hc' : c ∈ elements (clients s)) by by apply elem_of_elements.
    specialize (Hin c ch Hc' Hch).
    destruct (has_room ch) eqn:Hr; rewrite ?Hr in Hin; destruct Hin as [-> _]; eauto.
  - unfold receive. destruct (chans s !! c) as [ch|] eqn:Hch; [|by eauto].
    destruct (queue ch) as [|x q] eqn:Hq; [by eauto|].
    eexists. split; [reflexivity|]. intros c' Hc'. cbn [clients chans] in *.
    destruct (decide (c' = c)) as [->|Hne].
    + rewrite lookup_insert_eq. destruct (Hok c Hc') as (ch' & Hch' & Hcl).
      simplify_eq. eauto.
    + rewrite lookup_insert_ne by done. by apply Hok.
Qed.

End HubFacts.

(** X22. The hub does not panic.  From a state in which the [send] channel
    of every registered client is open, and as long as a client is only
    registered while its channel is open, [Hub.Run] takes any sequence of
    register, unregister and broadcast events, with the clients draining
    their channels in between, without closing a channel twice and without
    sending on a closed channel, and the channels of the registered clients
    are open afterwards as well. *)
Theorem hub_never_panics (evs : list Hub.Event) (s : Hub.State) :
  Hub.registered_open s -> Hub.run_admissible evs s ->
  exists s', Hub.run evs s = Some s' /\ Hub.registered_open s'.
Proof.
  revert s. induction evs as [|ev evs IH]; intros s Hok Hadm; cbn in *.
  - eauto.
  - destruct Hadm as [Ha Hrest].
    destruct (HubFacts.step_keeps_open ev s Hok Ha) as (s' & Hs & Hok').
    rewrite Hs in *. by apply IH.
Qed.

(** X23. A broadcast reaches the registered clients and nobody else: of the
    registered clients, those whose channel has room get the message at the
    end of their queue, and those whose channel is full get nothing and are
    handed to a goroutine that will unregister them; the channel of a client
    that is not registered is not touched, and nobody is registered or
    unregistered by the broadcast itself. *)
Theorem broadcast_reaches_the_registered_clients
    (m : string) (s s' : Hub.State) (slow : list Hub.Client) :
  Hub.registered_open s ->
  Hub.broadcast m s = Some (s', slow) ->
  Hub.clients s' = Hub.clients s /\
  (forall c, c ∉ Hub.clients s -> Hub.chans s' !! c = Hub.chans s !! c /\ c ∉ slow) /\
  (forall c ch, c ∈ Hub.clients s -> Hub.chans s !! c = Some ch ->
     if Hub.has_room ch
     then Hub.chans s' !! c
          = Some (Hub.mkChan (Hub.queue ch ++ [m]) (Hub.capacity ch) false) /\ c ∉ slow
     else Hub.chans s' !! c = Some ch /\ c ∈ slow).
Proof.
  intros Hok H. unfold Hub.broadcast in H.
  destruct (HubFacts.deliver_spec m (elements (Hub.clients s)) (Hub.chans s)) as
    (chs' & slow' & Hd & Hout & Hin & Hslow).
  { apply NoDup_elements. }
  { intros c Hc. apply Hok. by apply elem_of_elements. }
  rewrite Hd in H. simplify_eq. cbn. split; [done|]. split.
  - intros c Hc. split.
    + apply Hout. by rewrite elem_of_elements.
    + intros Hs. apply Hslow in Hs. by apply elem_of_elements in Hs.
  - intros c ch Hc Hch. apply Hin; [by apply elem_of_elements|done].
Qed.

(** X24. Unregistering is idempotent and final: a second unregister of the
    same client changes nothing (its channel is not closed again), and after
    an unregister the client is not registered, its channel is closed and
    its queue is as it was. *)
Theorem unregister_once
    (c : Hub.Client) (s s' : Hub.State) :
  Hub.unregister c s = Some s' ->
  Hub.unregister c s' = Some s' /\
  (c ∉ Hub.clients s') /\
  (c ∈ Hub.clients s ->
   exists ch, Hub.chans s !! c = Some ch /\
     Hub.chans s' !! c = Some (Hub.mkChan (Hub.queue ch) (Hub.capacity ch) true)) /\
  Hub.GetClientCount s' = (Hub.GetClientCount s - (if decide (c ∈ Hub.clients s) then 1 else 0))%nat.
Proof.
  unfold Hub.unregister, Hub.GetClientCount. intros H.
  destruct (decide (c ∈ Hub.clients s)) as [Hc|Hc].
  - destruct (Hub.chans s !! c) as [ch|] eqn:Hch; cbn in H; [|done].
    destruct (Hub.closed ch) eqn:Hcl; [done|]. simplify_eq. cbn.
    rewrite decide_False by set_solver. split; [done|]. split; [set_solver|].
    split.
    + intros _. exists ch. by rewrite lookup_insert_eq.
    + rewrite size_difference by set_solver. by rewrite size_singleton.
  - simplify_eq. rewrite decide_False by done. split; [done|]. split; [done|].
    split; [done|]. lia.
Qed.

Lemma hub_never_panics_witness :
  exists s', Hub.run Hub.sample_events Hub.sample = Some s' /\
             Hub.registered_open s'.
Proof.
  apply (hub_never_panics Hub.sample_events Hub.sample).
  - intros c Hc. apply elem_of_union in Hc as [Hc|Hc];
      apply elem_of_singleton in Hc as ->; eexists; split; vm_compute; reflexivity.
  - vm_compute. repeat split. eexists. split; reflexivity.
Defined.

Lemma broadcast_reaches_the_registered_clients_witness :
  Hub.clients Hub.sample_after_broadcast = Hub.clients Hub.sample /\
  (forall c, c ∉ Hub.clients Hub.sample ->
     Hub.chans Hub.sample_after_broadcast !! c = Hub.chans Hub.sample !! c /\
     c ∉ [2%nat]) /\
  (forall c ch, c ∈ Hub.clients Hub.sample -> Hub.chans Hub.sample !! c = Some ch ->
     if Hub.has_room ch
     then Hub.chans Hub.sample_after_broadcast !! c
          = Some (Hub.mkChan (Hub.queue ch ++ ["m"]) (Hub.capacity ch) false) /\
          c ∉ [2%nat]
     else Hub.chans Hub.sample_after_broadcast !! c = Some ch /\ c ∈ [2%nat]).
Proof.
  apply (broadcast_reaches_the_registered_clients "m" Hub.sample
           Hub.sample_after_broadcast [2%nat]).
  - intros c Hc. apply elem_of_union in Hc as [Hc|Hc];
      apply elem_of_singleton in Hc as ->; eexists; split; vm_compute; reflexivity.
  - vm_compute. reflexivity.
Defined.

Lemma unregister_once_witness :
  Hub.unregister 2%nat Hub.sample_after_unregister = Some Hub.sample_after_unregister /\
  (2%nat ∉ Hub.clients Hub.sample_after_unregister) /\
  (2%nat ∈ Hub.clients Hub.sample ->
   exists ch, Hub.chans Hub.sample !! 2%nat = Some ch /\
     Hub.chans Hub.sample_after_unregister !! 2%nat
     = Some (Hub.mkChan (Hub.queue ch) (Hub.capacity ch) true)) /\
  Hub.GetClientCount Hub.sample_after_unregister
  = (Hub.GetClientCount Hub.sample
     - (if decide (2%nat ∈ Hub.clients Hub.sample) then 1 else 0))%nat.
Proof.
  apply (unregister_once 2%nat Hub.sample Hub.sample_after_unregister).
  vm_compute. reflexivity.
Defined.

(** * Runs of the sample deployment *)

Module SampleRuns.
Import Sample.

Example happy_patch :
  fst (ApplyItemChanges env0 "alice" "p1" "post" 1 [insert_d] w0)
  = (2, [insert_d], None).
Proof. vm_compute. reflexivity. Qed.

Example happy_patch_content :
  blobs (snd (ApplyItemChanges env0 "alice" "p1" "post" 1 [insert_d] w0))
    !! "post/alice/p1" = Some ("abcd" +:+ newline).
Proof. vm_compute. reflexivity. Qed.

(** One batch of three changes with an interval of three: the three patch
    entries are followed by a snapshot entry at the committed version, and the
    counter of the post is back at zero. *)
Example snapshot_after_three_changes :
  map (fun l => (Action l, ItemVersion l, S3PathAfter l))
    (history (db w_snapshotted))
  = [(ActionCreate, 1, "post/alice/p1"); (ActionPatch, 2, "");
     (ActionPatch, 2, ""); (ActionPatch, 2, "");
     (ActionSnapshot, 2, "post/alice/p1")]
  /\ changeCounters w_snapshotted !! "post:p1" = Some 0.
Proof. split; vm_compute; reflexivity. Qed.

End SampleRuns.
